(** * Meteor Mission: the simulation core, embedded and verified

    A shallow embedding of the game's simulation core (entity kinematics,
    mission state, collision queries, frame loop) followed by the properties
    proved about it.

    Conventions of the embedding.
    - A JavaScript number that carries a physical quantity (a coordinate, a
      velocity, fuel, a timer) is an exact rational [Q]; a decimal literal of
      the source denotes the rational it writes.  Counters (score, lives,
      level, rescued astronauts) are integers [Z].
    - A JavaScript object that is compared by identity ([indexOf]) carries
      its reference in a field [ref]; the game allocates references from a
      counter.
    - [Math.random] is an oracle [nat -> Q] read at a cursor that advances at
      every call; [setTimeout] appends to a list of pending timers; the
      renderer, the audio system and the DOM are sinks that record the calls
      they receive.
    - Closures registered as listeners are first-order: a constructor per
      closure of the source, interpreted by [run_callback].

    Sections are headed by the module path the code imports.  In the source
    tree at hand several modules share a file: Game.js follows Config.js in
    src/core/Config.js, LandingPad.js follows Lander.js in
    src/entities/Lander.js, InputSystem.js is in src/systems/index.js, and
    CollisionSystem.js and Mothership.js are the unnamed parts 001 and
    002. *)

From Stdlib Require Import QArith Qminmax Qabs Qround Lqa ZArith Lia Bool List.
From stdpp Require Import base option list strings gmap.

Local Open Scope Q_scope.

(** ** JavaScript arithmetic on rationals *)

(** [x < y] as a boolean. *)
Definition Qltb (x y : Q) : bool := negb (Qle_bool y x).

(** [Math.sign]. *)
Definition Math_sign (x : Q) : Q := inject_Z (Z.sgn (Qnum x)).

(** ** src/core/Config.js *)

Module Config.
Definition GAME_WIDTH : Q := 40.
Definition GAME_HEIGHT : Q := 60.

Definition METEOR_COUNT : Z := 25.
Definition LANDING_PADS : nat := 3.
Definition INITIAL_LIVES : Z := 3.
Definition MAX_BULLETS : nat := 3.

Definition FUEL_MAX : Q := 100.
Definition FUEL_CONSUMPTION_RATE : Q := 15.
Definition FUEL_REFILL_ON_LAND : Q := 50.

Definition GRAVITY : Q := -0.015.
Definition THRUST : Q := 0.04.
Definition HORIZONTAL_SPEED : Q := 0.3.
Definition DESCENT_SPEED : Q := -0.08.
Definition ASCENT_SPEED : Q := 0.1.
Definition BULLET_SPEED : Q := 0.8.
Definition MAX_DESCENT_SPEED : Q := -0.3.

Definition SCORE_LANDING : Z := 100.
Definition SCORE_RESCUE : Z := 200.
Definition SCORE_METEOR : Z := 50.
Definition SCORE_FLAGSHIP : Z := 500.

Definition ASTRONAUTS_PER_LEVEL : Z := 5.
Definition METEORS_PER_LEVEL : Z := 3.

Definition FLAGSHIP_CHANCE : Q := 0.05.
Definition FLAGSHIP_FLASH_DURATION : Q := 3.

Inductive PHASE := TITLE | DESCENT | LANDED | ASCENT | GAME_OVER.

Definition phase_eqb (a b : PHASE) : bool :=
  match a, b with
  | TITLE, TITLE | DESCENT, DESCENT | LANDED, LANDED
  | ASCENT, ASCENT | GAME_OVER, GAME_OVER => true
  | _, _ => false
  end.
End Config.

(** ** src/entities/Entity.js *)

Record Vec3 := mkVec3 { vx : Q; vy : Q; vz : Q }.

Definition with_x (x : Q) (v : Vec3) : Vec3 := mkVec3 x (vy v) (vz v).
Definition with_y (y : Q) (v : Vec3) : Vec3 := mkVec3 (vx v) y (vz v).

(** The square of [Vector3.distanceTo]. *)
Definition distanceToSquared (p q : Vec3) : Q :=
  let dx := vx p - vx q in
  let dy := vy p - vy q in
  let dz := vz p - vz q in
  dx * dx + dy * dy + dz * dz.

(** [p.distanceTo(q) < r]: a square root is below [r] exactly when [r] is
    positive and the radicand is below [r * r]. *)
Definition distance_lt (p q : Vec3) (r : Q) : bool :=
  Qltb 0 r && Qltb (distanceToSquared p q) (r * r).

(** The fields of the base class.  [position] and [scale] are those of the
    mesh, which every subclass creates in its constructor. *)
Record Entity := mkEntity {
  ref : nat;
  position : Vec3;
  scale : Q;
  velocity : Vec3;
  active : bool;
  radius : Q
}.

Module EntityOps.
Definition new (r : nat) : Entity :=
  mkEntity r (mkVec3 0 0 0) 1 (mkVec3 0 0 0) true 1.

Definition with_position (p : Vec3) (e : Entity) : Entity :=
  mkEntity (ref e) p (scale e) (velocity e) (active e) (radius e).
Definition with_scale (s : Q) (e : Entity) : Entity :=
  mkEntity (ref e) (position e) s (velocity e) (active e) (radius e).
Definition with_velocity (v : Vec3) (e : Entity) : Entity :=
  mkEntity (ref e) (position e) (scale e) v (active e) (radius e).
Definition with_active (a : bool) (e : Entity) : Entity :=
  mkEntity (ref e) (position e) (scale e) (velocity e) a (radius e).
Definition with_radius (r : Q) (e : Entity) : Entity :=
  mkEntity (ref e) (position e) (scale e) (velocity e) (active e) r.

Definition setPosition (x y z : Q) (e : Entity) : Entity :=
  with_position (mkVec3 x y z) e.

Definition collidesWith (this other : Entity) : bool :=
  if negb (active this) || negb (active other) then false
  else distance_lt (position this) (position other)
                   (radius this + radius other).

(** [dispose] releases the drawable and clears the active flag. *)
Definition dispose (e : Entity) : Entity := with_active false e.
End EntityOps.

(** ** src/entities/Lander.js *)

Module Lander.
Record t := mk {
  entity : Entity;
  rotation_z : Q;
  thrusterVisible : bool;
  thrusterOpacity : Q
}.

Definition with_entity (e : Entity) (l : t) : t :=
  mk e (rotation_z l) (thrusterVisible l) (thrusterOpacity l).
Definition with_rotation_z (r : Q) (l : t) : t :=
  mk (entity l) r (thrusterVisible l) (thrusterOpacity l).
Definition on_entity (f : Entity -> Entity) (l : t) : t :=
  with_entity (f (entity l)) l.

Definition pos (l : t) : Vec3 := position (entity l).
Definition vel (l : t) : Vec3 := velocity (entity l).
Definition set_x (x : Q) : t -> t :=
  on_entity (fun e => EntityOps.with_position (with_x x (position e)) e).
Definition set_y (y : Q) : t -> t :=
  on_entity (fun e => EntityOps.with_position (with_y y (position e)) e).
Definition set_vy (y : Q) : t -> t :=
  on_entity (fun e => EntityOps.with_velocity (with_y y (velocity e)) e).

Definition setThrusterVisible (visible : bool) (intensity : Q) (l : t) : t :=
  mk (entity l) (rotation_z l) visible (if visible then intensity else 0).

Definition new (r : nat) : t :=
  mk (EntityOps.with_radius 1 (EntityOps.new r)) 0 false 0.

Definition reset (l : t) : t :=
  let l := on_entity (EntityOps.setPosition 0 (Config.GAME_HEIGHT / 2 - 6) 0) l in
  let l := on_entity (EntityOps.with_velocity (mkVec3 0 Config.DESCENT_SPEED 0)) l in
  let l := with_rotation_z 0 l in
  setThrusterVisible false 0.8 l.

Definition applyThrust (l : t) : t :=
  let l := set_vy (vy (vel l) + Config.THRUST) l in
  setThrusterVisible true 0.8 l.

Definition moveHorizontal (direction speedMultiplier : Q) (l : t) : t :=
  let l := set_x (vx (pos l) + direction * Config.HORIZONTAL_SPEED * speedMultiplier) l in
  with_rotation_z (- direction * 0.2) l.

Definition applyGravity (l : t) : t :=
  let l := set_vy (vy (vel l) + Config.GRAVITY) l in
  set_vy (Qmax (vy (vel l)) Config.MAX_DESCENT_SPEED) l.

Definition easeRotation (l : t) : t :=
  with_rotation_z (rotation_z l * 0.9) l.

Definition clampPosition (l : t) : t :=
  let halfWidth := Config.GAME_WIDTH / 2 - 1 in
  set_x (Qmax (- halfWidth) (Qmin halfWidth (vx (pos l)))) l.

Definition update (deltaTime : Q) (l : t) : t :=
  if negb (active (entity l)) then l
  else
    let l := set_x (vx (pos l) + vx (vel l)) l in
    let l := set_y (vy (pos l) + vy (vel l)) l in
    clampPosition l.

Definition startAscent (l : t) : t := set_vy Config.ASCENT_SPEED l.
Definition boostAscent (l : t) : t := set_vy (Config.ASCENT_SPEED * 1.5) l.

Definition isAtGroundLevel (l : t) : bool :=
  Qltb (vy (pos l)) (- Config.GAME_HEIGHT / 2 + 3).
Definition reachedMothership (l : t) : bool :=
  Qltb (Config.GAME_HEIGHT / 2 - 6) (vy (pos l)).
Definition isInDockingRange (l : t) : bool :=
  Qltb (Qabs (vx (pos l))) 2.
Definition isOutOfBounds (l : t) : bool :=
  let halfWidth := Config.GAME_WIDTH / 2 - 1 in
  Qltb (vx (pos l)) (- halfWidth) || Qltb halfWidth (vx (pos l)).
End Lander.

(** ** src/entities/LandingPad.js

    The pads are static; the animation of their lights is left to the
    renderer. *)

Module LandingPad.
Record t := mk {
  entity : Entity;
  padX : Q;
  padIndex : nat;
  width : Q
}.

Definition new (r : nat) (x : Q) (index : nat) : t :=
  mk (EntityOps.setPosition x (- Config.GAME_HEIGHT / 2 + 2) 0 (EntityOps.new r))
     x index 4.

Definition isPositionOverPad (x : Q) (p : t) : bool :=
  Qltb (Qabs (x - padX p)) (width p / 2 - 0.5).
End LandingPad.

(** ** src/entities/Mothership.js

    The station only bobs with the wall clock; its home position is what the
    simulation sees. *)

Module Mothership.
Record t := mk { entity : Entity; baseY : Q }.

Definition new (r : nat) : t :=
  let baseY := Config.GAME_HEIGHT / 2 - 3 in
  mk (EntityOps.setPosition 0 baseY 0 (EntityOps.new r)) baseY.
End Mothership.

(** ** src/entities/Meteor.js

    The rotation of the mesh and the flicker of its emissive colour are
    states of the drawable and are left to the renderer. *)

Module Meteor.
(** The drawable: one of the three rock geometries, or the flagship group. *)
Inductive Drawable := Rock (geometry : Z) | FlagshipGroup.

Record t := mk {
  entity : Entity;
  level : Z;
  rotation : Vec3;
  isFlagship : bool;
  flashTimer : Q;
  willBecomeFlagship : bool;
  points : Z;
  drawable : Drawable
}.

Definition with_entity (e : Entity) (m : t) : t :=
  mk e (level m) (rotation m) (isFlagship m) (flashTimer m)
     (willBecomeFlagship m) (points m) (drawable m).
Definition with_flashTimer (f : Q) (m : t) : t :=
  mk (entity m) (level m) (rotation m) (isFlagship m) f
     (willBecomeFlagship m) (points m) (drawable m).
Definition on_entity (f : Entity -> Entity) (m : t) : t :=
  with_entity (f (entity m)) m.

Definition pos (m : t) : Vec3 := position (entity m).
Definition vel (m : t) : Vec3 := velocity (entity m).
Definition set_x (x : Q) : t -> t :=
  on_entity (fun e => EntityOps.with_position (with_x x (position e)) e).
Definition set_y (y : Q) : t -> t :=
  on_entity (fun e => EntityOps.with_position (with_y y (position e)) e).
Definition set_vx (x : Q) : t -> t :=
  on_entity (fun e => EntityOps.with_velocity (with_x x (velocity e)) e).

(** Number of [Math.random] calls of the constructor. *)
Definition draws : nat := 14.

(** [new Meteor(level)]: the draws, in the order the constructor makes
    them, are [rnd k] (flagship eligibility), [rnd (k+1)] (geometry),
    [rnd (k+2)] (scale), then those of [randomize]: position (3), mesh
    rotation (3), velocity (2), rotation rates (3). *)
Definition new (r : nat) (level : Z) (rnd : nat -> Q) (k : nat) : t :=
  let willBecomeFlagship := Qltb (rnd k) Config.FLAGSHIP_CHANCE in
  let geometry := Qfloor (rnd (k + 1)%nat * 3) in
  let scale := 0.5 + rnd (k + 2)%nat * 1 in
  let topSafeZone := 15 in
  let bottomMargin := 8 in
  let yRange := Config.GAME_HEIGHT - topSafeZone - bottomMargin in
  let position :=
    mkVec3 ((rnd (k + 3)%nat - 0.5) * (Config.GAME_WIDTH - 4))
           (- Config.GAME_HEIGHT / 2 + bottomMargin + rnd (k + 4)%nat * yRange)
           ((rnd (k + 5)%nat - 0.5) * 4) in
  let speedMultiplier := 1 + inject_Z level * 0.1 in
  let velocity :=
    mkVec3 ((rnd (k + 9)%nat - 0.5) * 0.1 * speedMultiplier)
           ((rnd (k + 10)%nat - 0.5) * 0.05)
           0 in
  let rotation :=
    mkVec3 ((rnd (k + 11)%nat - 0.5) * 0.02)
           ((rnd (k + 12)%nat - 0.5) * 0.02)
           ((rnd (k + 13)%nat - 0.5) * 0.02) in
  mk (mkEntity r position scale velocity true scale)
     level rotation false 0 willBecomeFlagship Config.SCORE_METEOR
     (Rock geometry).

(** The new group copies the position of the old mesh and has the default
    scale. *)
Definition transformToFlagship (m : t) : t :=
  let e := entity m in
  let e := EntityOps.with_scale 1 e in
  let e := EntityOps.with_velocity (with_x (vx (velocity e) * 2) (velocity e)) e in
  let e := EntityOps.with_radius 1.2 e in
  mk e (level m) (rotation m) true (flashTimer m) (willBecomeFlagship m)
     Config.SCORE_FLAGSHIP FlagshipGroup.

(** [scene] tells whether a scene was passed (the default is [null]). *)
Definition update (deltaTime : Q) (scene : bool) (m : t) : t :=
  if negb (active (entity m)) then m
  else
    let m := set_x (vx (pos m) + vx (vel m)) m in
    let m := set_y (vy (pos m) + vy (vel m)) m in
    let halfWidth := Config.GAME_WIDTH / 2 - 2 in
    let m :=
      if Qltb (vx (pos m)) (- halfWidth) || Qltb halfWidth (vx (pos m))
      then set_vx (vx (vel m) * -1) m else m in
    let topBound := Config.GAME_HEIGHT / 2 - 15 in
    let bottomBound := - Config.GAME_HEIGHT / 2 + 5 in
    let m :=
      if Qltb (vy (pos m)) bottomBound then set_y (topBound - 3) m
      else if Qltb topBound (vy (pos m)) then set_y (bottomBound + 3) m
      else m in
    if willBecomeFlagship m && negb (isFlagship m) && scene then
      let m := with_flashTimer (flashTimer m + 0.05) m in
      if Qltb Config.FLAGSHIP_FLASH_DURATION (flashTimer m)
      then transformToFlagship m
      else m
    else m.
End Meteor.

(** ** src/entities/Astronaut.js

    The sway of the walking animation follows the wall clock and is left to
    the renderer. *)

Module Astronaut.
Inductive AstronautState := RUNNING | BOARDING | ABOARD.

Record t := mk {
  entity : Entity;
  padX : Q;
  state : AstronautState;
  speed : Q
}.

Definition pos (a : t) : Vec3 := position (entity a).

Definition setStartPosition (padX : Q) (e : Entity) : Entity :=
  EntityOps.setPosition (padX - 3) (- Config.GAME_HEIGHT / 2 + 2.5) 0 e.

Definition new (r : nat) (padX : Q) : t :=
  mk (setStartPosition padX (EntityOps.with_radius 0.3 (EntityOps.new r)))
     padX RUNNING 0.05.

(** Returns the value the method returns and the astronaut after it. *)
Definition update (deltaTime : Q) (landerPosition : Vec3) (a : t) : bool * t :=
  let e := entity a in
  if negb (active e) then (false, a)
  else match state a with
  | ABOARD => (false, a)
  | RUNNING =>
      let direction := Math_sign (vx landerPosition - vx (position e)) in
      let e := EntityOps.with_position
                 (with_x (vx (position e) + direction * speed a) (position e)) e in
      if Qltb (Qabs (vx (position e) - vx landerPosition)) 0.5
      then (false, mk e (padX a) BOARDING (speed a))
      else (false, mk e (padX a) RUNNING (speed a))
  | BOARDING =>
      let e := EntityOps.with_position
                 (with_y (vy (position e) + 0.05) (position e)) e in
      let e := EntityOps.with_scale (scale e * 0.95) e in
      if Qltb (scale e) 0.1
      then (true, mk (EntityOps.with_active false e) (padX a) ABOARD (speed a))
      else (false, mk e (padX a) BOARDING (speed a))
  end.

Definition isBoarding (a : t) : bool :=
  match state a with BOARDING => true | _ => false end.
Definition isAboard (a : t) : bool :=
  match state a with ABOARD => true | _ => false end.
End Astronaut.

(** ** src/entities/Bullet.js *)

Module Bullet.
Record t := mk { entity : Entity; speed : Q }.

Definition new (r : nat) (startPosition : Vec3) : t :=
  mk (EntityOps.setPosition (vx startPosition) (vy startPosition + 1.5)
        (vz startPosition) (EntityOps.with_radius 0.2 (EntityOps.new r)))
     Config.BULLET_SPEED.

Definition update (deltaTime : Q) (b : t) : bool * t :=
  let e := entity b in
  if negb (active e) then (false, b)
  else
    let e := EntityOps.with_position
               (with_y (vy (position e) + speed b) (position e)) e in
    if Qltb (Config.GAME_HEIGHT / 2) (vy (position e))
    then (false, mk (EntityOps.with_active false e) (speed b))
    else (true, mk e (speed b)).
End Bullet.

(** ** src/entities/Explosion.js *)

Module Explosion.
Record Particle := mkParticle {
  size : Q;
  hue : Q;
  p_position : Vec3;
  p_velocity : Vec3;
  life : Q;
  opacity : Q;
  p_scale : Q
}.

Record t := mk { particles : list Particle; active : bool }.

(** Number of [Math.random] calls per particle. *)
Definition draws_per_particle : nat := 5.

Definition createParticle (position : Vec3) (rnd : nat -> Q) (k : nat) : Particle :=
  mkParticle (0.1 + rnd k * 0.2)
             (rnd (k + 1)%nat * 0.1 + 0.05)
             position
             (mkVec3 ((rnd (k + 2)%nat - 0.5) * 0.5)
                     ((rnd (k + 3)%nat - 0.5) * 0.5)
                     ((rnd (k + 4)%nat - 0.5) * 0.5))
             1 1 1.

Definition createParticles (position : Vec3) (count : nat)
    (rnd : nat -> Q) (k : nat) : list Particle :=
  map (fun i => createParticle position rnd (k + i * draws_per_particle)%nat)
      (seq 0 count).

Definition new (position : Vec3) (particleCount : nat)
    (rnd : nat -> Q) (k : nat) : t :=
  mk (createParticles position particleCount rnd k) true.

Definition updateParticle (p : Particle) : Particle :=
  if Qle_bool (life p) 0 then p
  else
    let v := p_velocity p in
    let q := p_position p in
    mkParticle (size p) (hue p)
               (mkVec3 (vx q + vx v) (vy q + vy v) (vz q + vz v))
               (mkVec3 (vx v * 0.95) (vy v * 0.95) (vz v * 0.95))
               (life p - 0.02) (life p - 0.02) (p_scale p * 0.98).

Definition update (deltaTime : Q) (x : t) : bool * t :=
  if negb (active x) then (false, x)
  else
    let allDead := forallb (fun p => Qle_bool (life p) 0) (particles x) in
    let ps := map updateParticle (particles x) in
    let act := if allDead then false else active x in
    (act, mk ps act).
End Explosion.

(** ** src/systems/CollisionSystem.js

    A query returns its result together with the collision events it
    dispatches through [triggerCollision], in dispatch order. *)

Module CollisionSystem.
Record Event := mkEvent {
  type : string;
  entityA : nat;
  entityB : option nat
}.

Definition triggerCollision (type : string) (entityA : nat)
    (entityB : option nat) : list Event :=
  [mkEvent type entityA entityB].

Fixpoint landerMeteorLoop (lander : Lander.t) (meteors : list Meteor.t)
    : option Meteor.t * list Event :=
  match meteors with
  | [] => (None, [])
  | meteor :: rest =>
      if negb (active (Meteor.entity meteor)) then landerMeteorLoop lander rest
      else if EntityOps.collidesWith (Lander.entity lander) (Meteor.entity meteor)
      then (Some meteor,
            triggerCollision "lander-meteor" (ref (Lander.entity lander))
                             (Some (ref (Meteor.entity meteor))))
      else landerMeteorLoop lander rest
  end.

Definition checkLanderMeteorCollision (lander : Lander.t)
    (meteors : list Meteor.t) : option Meteor.t * list Event :=
  if negb (active (Lander.entity lander)) then (None, [])
  else landerMeteorLoop lander meteors.

(** The inner loop of [checkBulletMeteorCollisions] for one bullet. *)
Fixpoint bulletMeteorLoop (bullet : Bullet.t) (meteors : list Meteor.t)
    : list (Bullet.t * Meteor.t) * list Event :=
  match meteors with
  | [] => ([], [])
  | meteor :: rest =>
      if negb (active (Meteor.entity meteor)) then bulletMeteorLoop bullet rest
      else if EntityOps.collidesWith (Bullet.entity bullet) (Meteor.entity meteor)
      then
        let '(collisions, events) := bulletMeteorLoop bullet rest in
        ((bullet, meteor) :: collisions,
         triggerCollision "bullet-meteor" (ref (Bullet.entity bullet))
                          (Some (ref (Meteor.entity meteor))) ++ events)
      else bulletMeteorLoop bullet rest
  end.

Fixpoint checkBulletMeteorCollisions (bullets : list Bullet.t)
    (meteors : list Meteor.t) : list (Bullet.t * Meteor.t) * list Event :=
  match bullets with
  | [] => ([], [])
  | bullet :: rest =>
      if negb (active (Bullet.entity bullet))
      then checkBulletMeteorCollisions rest meteors
      else
        let '(collisions, events) := bulletMeteorLoop bullet meteors in
        let '(later, laterEvents) := checkBulletMeteorCollisions rest meteors in
        (collisions ++ later, events ++ laterEvents)
  end.

Fixpoint firstPadUnder (x : Q) (pads : list LandingPad.t) : option LandingPad.t :=
  match pads with
  | [] => None
  | pad :: rest =>
      if LandingPad.isPositionOverPad x pad then Some pad
      else firstPadUnder x rest
  end.

Definition checkLandingPadCollision (lander : Lander.t)
    (pads : list LandingPad.t) : option LandingPad.t * list Event :=
  if negb (Lander.isAtGroundLevel lander) then (None, [])
  else match firstPadUnder (vx (Lander.pos lander)) pads with
       | Some pad =>
           (Some pad,
            triggerCollision "lander-pad" (ref (Lander.entity lander))
                             (Some (ref (LandingPad.entity pad))))
       | None => (None, [])
       end.

Definition checkGroundCollision (lander : Lander.t)
    (pads : list LandingPad.t) : bool * list Event :=
  if negb (Lander.isAtGroundLevel lander) then (false, [])
  else match firstPadUnder (vx (Lander.pos lander)) pads with
       | Some _ => (false, [])
       | None =>
           (true,
            triggerCollision "lander-ground" (ref (Lander.entity lander)) None)
       end.

Definition checkDockingCollision (lander : Lander.t)
    (mothership : Mothership.t) : bool * list Event :=
  if Lander.reachedMothership lander && Lander.isInDockingRange lander
  then (true,
        triggerCollision "lander-mothership" (ref (Lander.entity lander))
                         (Some (ref (Mothership.entity mothership))))
  else (false, []).

Definition checkBoundaryCollision (lander : Lander.t) : bool * list Event :=
  if Lander.isOutOfBounds lander
  then (true,
        triggerCollision "lander-boundary" (ref (Lander.entity lander)) None)
  else (false, []).
End CollisionSystem.

(** ** src/core/GameState.js: the state object and its listeners *)

Module GameState.
Record State := mkState {
  phase : Config.PHASE;
  score : Z;
  lives : Z;
  astronautsRescued : Z;
  fuel : Q;
  hasAstronaut : bool;
  level : Z
}.

(** The values passed to listeners. *)
Inductive Value :=
| VPhase (p : Config.PHASE)
| VInt (z : Z)
| VNum (q : Q)
| VBool (b : bool)
| VState (s : State).

Record Notification := mkNotification {
  event : string;
  newValue : Value;
  oldValue : option Value
}.

(** A key of the state object: its name, how it is read and written, the
    strict equality of its values, and how a value is handed to
    listeners. *)
Record Key (A : Type) := mkKey {
  name : string;
  read : State -> A;
  write : A -> State -> State;
  same : A -> A -> bool;
  box : A -> Value
}.
Arguments mkKey {A}.
Arguments name {A}.
Arguments read {A}.
Arguments write {A}.
Arguments same {A}.
Arguments box {A}.

Definition k_phase : Key Config.PHASE :=
  mkKey "phase" phase
    (fun v s => mkState v (score s) (lives s) (astronautsRescued s) (fuel s)
                        (hasAstronaut s) (level s))
    Config.phase_eqb VPhase.
Definition k_score : Key Z :=
  mkKey "score" score
    (fun v s => mkState (phase s) v (lives s) (astronautsRescued s) (fuel s)
                        (hasAstronaut s) (level s))
    Z.eqb VInt.
Definition k_lives : Key Z :=
  mkKey "lives" lives
    (fun v s => mkState (phase s) (score s) v (astronautsRescued s) (fuel s)
                        (hasAstronaut s) (level s))
    Z.eqb VInt.
Definition k_astronautsRescued : Key Z :=
  mkKey "astronautsRescued" astronautsRescued
    (fun v s => mkState (phase s) (score s) (lives s) v (fuel s)
                        (hasAstronaut s) (level s))
    Z.eqb VInt.
Definition k_fuel : Key Q :=
  mkKey "fuel" fuel
    (fun v s => mkState (phase s) (score s) (lives s) (astronautsRescued s) v
                        (hasAstronaut s) (level s))
    Qeq_bool VNum.
Definition k_hasAstronaut : Key bool :=
  mkKey "hasAstronaut" hasAstronaut
    (fun v s => mkState (phase s) (score s) (lives s) (astronautsRescued s)
                        (fuel s) v (level s))
    Bool.eqb VBool.
Definition k_level : Key Z :=
  mkKey "level" level
    (fun v s => mkState (phase s) (score s) (lives s) (astronautsRescued s)
                        (fuel s) (hasAstronaut s) v)
    Z.eqb VInt.

(** The closures that [Game.setupStateListeners] registers. *)
Inductive Callback :=
| UpdateUI          (* (key, value) => uiManager.updateAll(gameState.state) *)
| CreateMeteors.    (* (level) => this.createMeteors() *)

Definition callback_eqb (a b : Callback) : bool :=
  match a, b with
  | UpdateUI, UpdateUI | CreateMeteors, CreateMeteors => true
  | _, _ => false
  end.

(** The manager: the state, the listener map, and the sequence of [notify]
    calls made so far. *)
Record t := mk {
  state : State;
  listeners : gmap string (list Callback);
  notified : list Notification
}.

Definition initialState : State :=
  mkState Config.TITLE 0 Config.INITIAL_LIVES 0 Config.FUEL_MAX false 1.

Definition on (event : string) (callback : Callback) (m : t) : t :=
  let callbacks := default [] (listeners m !! event) in
  mk (state m) (<[event := callbacks ++ [callback]]> (listeners m) )
     (notified m) .

(** [callbacks.splice(callbacks.indexOf(callback), 1)]. *)
Fixpoint removeFirst (callback : Callback) (callbacks : list Callback)
    : list Callback :=
  match callbacks with
  | [] => []
  | c :: rest =>
      if callback_eqb c callback then rest else c :: removeFirst callback rest
  end.

Definition off (event : string) (callback : Callback) (m : t) : t :=
  match listeners m !! event with
  | Some callbacks =>
      mk (state m) (<[event := removeFirst callback callbacks]> (listeners m))
         (notified m)
  | None => m
  end.
End GameState.

(** ** src/systems/InputSystem.js: the keys currently held *)

Record InputKeys := mkKeys { left : bool; right : bool; up : bool; space : bool }.

(** ** src/core/Game.js *)

Module Game.
(** The calls received by the UI manager. *)
Inductive UICall :=
| ShowTitleScreen
| HideMessageOverlay
| ShowControlsHelp
| UpdateAll (s : GameState.State)
| ShowGameOver (score astronautsRescued level : Z).

(** The closure that [loseLife] hands to [setTimeout]. *)
Inductive TimerCallback := ResetForNextAttempt.

Record Timer := mkTimer { callback : TimerCallback; delay : Q }.

(** The game object together with the singletons it drives: the state
    manager, the input system, and the sinks (collision dispatches, pending
    timers, UI calls, sounds requested), the number of calls of
    [createMeteors] made so far, the [Math.random] oracle with its cursor,
    and the next free object reference.  The mothership and the landing
    pads exist from the constructor on; the lander is [null] until the
    first [startGame]. *)
Record t := mk {
  gameState : GameState.t;
  keys : InputKeys;
  inputEnabled : bool;
  lander : option Lander.t;
  mothership : Mothership.t;
  meteors : list Meteor.t;
  landingPads : list LandingPad.t;
  bullets : list Bullet.t;
  explosions : list Explosion.t;
  astronaut : option Astronaut.t;
  lastTime : Q;
  collisionEvents : list CollisionSystem.Event;
  timers : list Timer;
  ui : list UICall;
  audio : list string;
  meteorBatches : nat;
  random : nat -> Q;
  cursor : nat;
  nextRef : nat
}.

Definition with_gameState (x : GameState.t) (g : t) : t :=
  mk x (keys g) (inputEnabled g) (lander g) (mothership g) (meteors g)
     (landingPads g) (bullets g) (explosions g) (astronaut g) (lastTime g)
     (collisionEvents g) (timers g) (ui g) (audio g) (meteorBatches g)
     (random g) (cursor g) (nextRef g).
Definition with_keys (x : InputKeys) (g : t) : t :=
  mk (gameState g) x (inputEnabled g) (lander g) (mothership g) (meteors g)
     (landingPads g) (bullets g) (explosions g) (astronaut g) (lastTime g)
     (collisionEvents g) (timers g) (ui g) (audio g) (meteorBatches g)
     (random g) (cursor g) (nextRef g).
Definition with_inputEnabled (x : bool) (g : t) : t :=
  mk (gameState g) (keys g) x (lander g) (mothership g) (meteors g)
     (landingPads g) (bullets g) (explosions g) (astronaut g) (lastTime g)
     (collisionEvents g) (timers g) (ui g) (audio g) (meteorBatches g)
     (random g) (cursor g) (nextRef g).
Definition with_lander (x : option Lander.t) (g : t) : t :=
  mk (gameState g) (keys g) (inputEnabled g) x (mothership g) (meteors g)
     (landingPads g) (bullets g) (explosions g) (astronaut g) (lastTime g)
     (collisionEvents g) (timers g) (ui g) (audio g) (meteorBatches g)
     (random g) (cursor g) (nextRef g).
Definition with_mothership (x : Mothership.t) (g : t) : t :=
  mk (gameState g) (keys g) (inputEnabled g) (lander g) x (meteors g)
     (landingPads g) (bullets g) (explosions g) (astronaut g) (lastTime g)
     (collisionEvents g) (timers g) (ui g) (audio g) (meteorBatches g)
     (random g) (cursor g) (nextRef g).
Definition with_meteors (x : list Meteor.t) (g : t) : t :=
  mk (gameState g) (keys g) (inputEnabled g) (lander g) (mothership g) x
     (landingPads g) (bullets g) (explosions g) (astronaut g) (lastTime g)
     (collisionEvents g) (timers g) (ui g) (audio g) (meteorBatches g)
     (random g) (cursor g) (nextRef g).
Definition with_landingPads (x : list LandingPad.t) (g : t) : t :=
  mk (gameState g) (keys g) (inputEnabled g) (lander g) (mothership g)
     (meteors g) x (bullets g) (explosions g) (astronaut g) (lastTime g)
     (collisionEvents g) (timers g) (ui g) (audio g) (meteorBatches g)
     (random g) (cursor g) (nextRef g).
Definition with_bullets (x : list Bullet.t) (g : t) : t :=
  mk (gameState g) (keys g) (inputEnabled g) (lander g) (mothership g)
     (meteors g) (landingPads g) x (explosions g) (astronaut g) (lastTime g)
     (collisionEvents g) (timers g) (ui g) (audio g) (meteorBatches g)
     (random g) (cursor g) (nextRef g).
Definition with_explosions (x : list Explosion.t) (g : t) : t :=
  mk (gameState g) (keys g) (inputEnabled g) (lander g) (mothership g)
     (meteors g) (landingPads g) (bullets g) x (astronaut g) (lastTime g)
     (collisionEvents g) (timers g) (ui g) (audio g) (meteorBatches g)
     (random g) (cursor g) (nextRef g).
Definition with_astronaut (x : option Astronaut.t) (g : t) : t :=
  mk (gameState g) (keys g) (inputEnabled g) (lander g) (mothership g)
     (meteors g) (landingPads g) (bullets g) (explosions g) x (lastTime g)
     (collisionEvents g) (timers g) (ui g) (audio g) (meteorBatches g)
     (random g) (cursor g) (nextRef g).
Definition with_lastTime (x : Q) (g : t) : t :=
  mk (gameState g) (keys g) (inputEnabled g) (lander g) (mothership g)
     (meteors g) (landingPads g) (bullets g) (explosions g) (astronaut g) x
     (collisionEvents g) (timers g) (ui g) (audio g) (meteorBatches g)
     (random g) (cursor g) (nextRef g).
Definition with_collisionEvents (x : list CollisionSystem.Event) (g : t) : t :=
  mk (gameState g) (keys g) (inputEnabled g) (lander g) (mothership g)
     (meteors g) (landingPads g) (bullets g) (explosions g) (astronaut g)
     (lastTime g) x (timers g) (ui g) (audio g) (meteorBatches g) (random g)
     (cursor g) (nextRef g).
Definition with_timers (x : list Timer) (g : t) : t :=
  mk (gameState g) (keys g) (inputEnabled g) (lander g) (mothership g)
     (meteors g) (landingPads g) (bullets g) (explosions g) (astronaut g)
     (lastTime g) (collisionEvents g) x (ui g) (audio g) (meteorBatches g)
     (random g) (cursor g) (nextRef g).
Definition with_ui (x : list UICall) (g : t) : t :=
  mk (gameState g) (keys g) (inputEnabled g) (lander g) (mothership g)
     (meteors g) (landingPads g) (bullets g) (explosions g) (astronaut g)
     (lastTime g) (collisionEvents g) (timers g) x (audio g)
     (meteorBatches g) (random g) (cursor g) (nextRef g).
Definition with_audio (x : list string) (g : t) : t :=
  mk (gameState g) (keys g) (inputEnabled g) (lander g) (mothership g)
     (meteors g) (landingPads g) (bullets g) (explosions g) (astronaut g)
     (lastTime g) (collisionEvents g) (timers g) (ui g) x (meteorBatches g)
     (random g) (cursor g) (nextRef g).
Definition with_meteorBatches (x : nat) (g : t) : t :=
  mk (gameState g) (keys g) (inputEnabled g) (lander g) (mothership g)
     (meteors g) (landingPads g) (bullets g) (explosions g) (astronaut g)
     (lastTime g) (collisionEvents g) (timers g) (ui g) (audio g) x
     (random g) (cursor g) (nextRef g).
Definition with_random (x : nat -> Q) (g : t) : t :=
  mk (gameState g) (keys g) (inputEnabled g) (lander g) (mothership g)
     (meteors g) (landingPads g) (bullets g) (explosions g) (astronaut g)
     (lastTime g) (collisionEvents g) (timers g) (ui g) (audio g)
     (meteorBatches g) x (cursor g) (nextRef g).
Definition with_cursor (x : nat) (g : t) : t :=
  mk (gameState g) (keys g) (inputEnabled g) (lander g) (mothership g)
     (meteors g) (landingPads g) (bullets g) (explosions g) (astronaut g)
     (lastTime g) (collisionEvents g) (timers g) (ui g) (audio g)
     (meteorBatches g) (random g) x (nextRef g).
Definition with_nextRef (x : nat) (g : t) : t :=
  mk (gameState g) (keys g) (inputEnabled g) (lander g) (mothership g)
     (meteors g) (landingPads g) (bullets g) (explosions g) (astronaut g)
     (lastTime g) (collisionEvents g) (timers g) (ui g) (audio g)
     (meteorBatches g) (random g) (cursor g) x.

(** *** Sinks, input and oracle *)

Definition play (sound : string) (g : t) : t :=
  with_audio (audio g ++ [sound]) g.
Definition uiCall (c : UICall) (g : t) : t := with_ui (ui g ++ [c]) g.
Definition dispatch (events : list CollisionSystem.Event) (g : t) : t :=
  with_collisionEvents (collisionEvents g ++ events) g.
Definition setTimeout (cb : TimerCallback) (ms : Q) (g : t) : t :=
  with_timers (timers g ++ [mkTimer cb ms]) g.

(** [inputSystem.isPressed(action)]. *)
Definition isPressed (action : InputKeys -> bool) (g : t) : bool :=
  inputEnabled g && action (keys g).

Definition Math_random (g : t) : Q * t :=
  (random g (cursor g), with_cursor (S (cursor g)) g).

Definition state (g : t) : GameState.State := GameState.state (gameState g).

(** [gameState.get(key)]. *)
Definition get {A : Type} (key : GameState.Key A) (g : t) : A :=
  GameState.read key (state g).

Definition on_lander (f : Lander.t -> Lander.t) (g : t) : t :=
  with_lander (f <$> lander g) g.

(** *** Entity creation *)

Definition createLandingPads (g : t) : t :=
  let padSpacing :=
    Config.GAME_WIDTH / (inject_Z (Z.of_nat Config.LANDING_PADS) + 1) in
  let pads :=
    map (fun i : nat =>
           let x := - Config.GAME_WIDTH / 2
                    + padSpacing * (inject_Z (Z.of_nat i) + 1) in
           LandingPad.new (nextRef g + i) x i)
        (seq 0 Config.LANDING_PADS) in
  with_nextRef (nextRef g + Config.LANDING_PADS)
    (with_landingPads (landingPads g ++ pads) g).

Definition createMeteors (g : t) : t :=
  let level := get GameState.k_level g in
  let count :=
    Z.to_nat (Config.METEOR_COUNT + level * Config.METEORS_PER_LEVEL) in
  let batch :=
    map (fun i : nat =>
           Meteor.new (nextRef g + i) level (random g)
                      (cursor g + i * Meteor.draws))
        (seq 0 count) in
  let g := with_meteors batch g in
  let g := with_cursor (cursor g + count * Meteor.draws) g in
  let g := with_nextRef (nextRef g + count) g in
  with_meteorBatches (S (meteorBatches g)) g.

Definition createLander (g : t) : t :=
  let l := Lander.reset (Lander.new (nextRef g)) in
  with_nextRef (S (nextRef g)) (with_lander (Some l) g).

Definition createAstronaut (pad : LandingPad.t) (g : t) : t :=
  let a := Astronaut.new (nextRef g) (LandingPad.padX pad) in
  with_nextRef (S (nextRef g)) (with_astronaut (Some a) g).

(** The lander exists whenever a bullet is requested (the phase is Ascent),
    so the [None] branch, where the source would dereference [null], is
    never taken. *)
Definition createBullet (g : t) : t :=
  if (Config.MAX_BULLETS <=? length (bullets g))%nat then g
  else match lander g with
       | None => g
       | Some l =>
           let bullet := Bullet.new (nextRef g) (Lander.pos l) in
           let g := with_nextRef (S (nextRef g)) g in
           let g := with_bullets (bullets g ++ [bullet]) g in
           play "shoot" g
       end.

Definition createExplosion (position : Vec3) (g : t) : t :=
  let particleCount := 20%nat in
  let explosion := Explosion.new position particleCount (random g) (cursor g) in
  let g := with_cursor
             (cursor g + particleCount * Explosion.draws_per_particle) g in
  with_explosions (explosions g ++ [explosion]) g.

(** *** The state manager (src/core/GameState.js), acting on the game its
    listeners are closed over *)

Module GameStateManager.
Definition with_state (s : GameState.State) (g : t) : t :=
  with_gameState
    (GameState.mk s (GameState.listeners (gameState g))
                  (GameState.notified (gameState g))) g.

Definition record (n : GameState.Notification) (g : t) : t :=
  with_gameState
    (GameState.mk (GameState.state (gameState g))
                  (GameState.listeners (gameState g))
                  (GameState.notified (gameState g) ++ [n])) g.

Definition run_callback (cb : GameState.Callback) (g : t) : t :=
  match cb with
  | GameState.UpdateUI => uiCall (UpdateAll (state g)) g
  | GameState.CreateMeteors => createMeteors g
  end.

Definition callbacks (event : string) (g : t) : list GameState.Callback :=
  default [] (GameState.listeners (gameState g) !! event).

Definition notify (event : string) (newValue : GameState.Value)
    (oldValue : option GameState.Value) (g : t) : t :=
  let g := record (GameState.mkNotification event newValue oldValue) g in
  let g := foldl (fun g cb => run_callback cb g) g (callbacks event g) in
  foldl (fun g cb => run_callback cb g) g (callbacks "change" g).

Definition reset (g : t) : t :=
  let g := with_state GameState.initialState g in
  notify "reset" (GameState.VState (state g)) None g.

Definition set {A : Type} (key : GameState.Key A) (value : A) (g : t) : t :=
  let oldValue := GameState.read key (state g) in
  if GameState.same key oldValue value then g
  else
    let g := with_state (GameState.write key value (state g)) g in
    notify (GameState.name key) (GameState.box key value)
           (Some (GameState.box key oldValue)) g.

Definition addScore (points : Z) (g : t) : t :=
  set GameState.k_score (GameState.score (state g) + points)%Z g.

Definition consumeFuel (amount : Q) (g : t) : bool * t :=
  if Qle_bool (GameState.fuel (state g)) 0 then (false, g)
  else
    (true,
     set GameState.k_fuel (Qmax 0 (GameState.fuel (state g) - amount)) g).

Definition refillFuel (amount : Q) (g : t) : t :=
  set GameState.k_fuel
      (Qmin Config.FUEL_MAX (GameState.fuel (state g) + amount)) g.

Definition loseLife (g : t) : bool * t :=
  let newLives := (GameState.lives (state g) - 1)%Z in
  let g := set GameState.k_lives newLives g in
  ((0 <? newLives)%Z, g).

Definition rescueAstronaut (g : t) : t :=
  let rescued := (GameState.astronautsRescued (state g) + 1)%Z in
  let g := set GameState.k_astronautsRescued rescued g in
  let g := addScore Config.SCORE_RESCUE g in
  if (Z.rem rescued Config.ASTRONAUTS_PER_LEVEL =? 0)%Z then
    let g := set GameState.k_level (GameState.level (state g) + 1)%Z g in
    notify "levelUp" (GameState.VInt (GameState.level (state g))) None g
  else g.
End GameStateManager.

(** *** Construction and start *)

Definition setupStateListeners (g : t) : t :=
  let m := GameState.on "change" GameState.UpdateUI (gameState g) in
  let m := GameState.on "levelUp" GameState.CreateMeteors m in
  with_gameState m g.

(** [new Game(containerId)]: the constructor followed by [init], for a
    given random oracle.  The state manager is the module's singleton,
    created (and reset, with no listener yet) when the module loads. *)
Definition new (rnd : nat -> Q) : t :=
  let gs :=
    GameState.mk GameState.initialState ∅
      [GameState.mkNotification "reset"
         (GameState.VState GameState.initialState) None] in
  let g :=
    mk gs (mkKeys false false false false) true None (Mothership.new 0)
       [] [] [] [] None 0 [] [] [] [] 0 rnd 0 1 in
  let g := createLandingPads g in
  let g := uiCall ShowTitleScreen g in
  setupStateListeners g.

Definition startGame (g : t) : t :=
  let g := GameStateManager.reset g in
  let g := GameStateManager.set GameState.k_phase Config.DESCENT g in
  let g := createMeteors g in
  let g := createLander g in
  let g := with_bullets [] g in
  let g := with_explosions [] g in
  let g := with_astronaut None g in
  let g := uiCall HideMessageOverlay g in
  let g := uiCall ShowControlsHelp g in
  uiCall (UpdateAll (state g)) g.

Definition gameOver (g : t) : t :=
  let g := GameStateManager.set GameState.k_phase Config.GAME_OVER g in
  uiCall (ShowGameOver (get GameState.k_score g)
                       (get GameState.k_astronautsRescued g)
                       (get GameState.k_level g)) g.

(** [loseLife] is only called from [checkCollisions], which has a lander. *)
Definition loseLife (g : t) : t :=
  let g := play "explosion" g in
  let g := match lander g with
           | Some l => createExplosion (Lander.pos l) g
           | None => g
           end in
  let '(hasLives, g) := GameStateManager.loseLife g in
  if negb hasLives then gameOver g
  else setTimeout ResetForNextAttempt 1000 g.

(** The body of a timer callback, run when the host fires the timer. *)
Definition run_timer (cb : TimerCallback) (g : t) : t :=
  match cb with
  | ResetForNextAttempt =>
      let g := GameStateManager.set GameState.k_phase Config.DESCENT g in
      let g := GameStateManager.set GameState.k_hasAstronaut false g in
      let g := on_lander Lander.reset g in
      let g := GameStateManager.refillFuel Config.FUEL_MAX g in
      with_astronaut None g
  end.

Definition handleSpacePress (pressed : bool) (g : t) : t :=
  if pressed && Config.phase_eqb (get GameState.k_phase g) Config.ASCENT
  then createBullet g else g.

(** *** Per-frame updates *)

Definition updateDescentPhase (deltaTime : Q) (g : t) : t :=
  let g := on_lander Lander.applyGravity g in
  let g :=
    if isPressed left g then on_lander (Lander.moveHorizontal (-1) 1) g
    else if isPressed right g then on_lander (Lander.moveHorizontal 1 1) g
    else on_lander Lander.easeRotation g in
  if isPressed up g && Qltb 0 (get GameState.k_fuel g) then
    let g := on_lander Lander.applyThrust g in
    let '(_, g) :=
      GameStateManager.consumeFuel (Config.FUEL_CONSUMPTION_RATE * deltaTime) g in
    let g := on_lander (Lander.setThrusterVisible true 0.8) g in
    let '(r, g) := Math_random g in
    if Qltb r 0.3 then play "thrust" g else g
  else on_lander (Lander.setThrusterVisible false 0.8) g.

Definition updateAscentPhase (deltaTime : Q) (g : t) : t :=
  let g := on_lander (Lander.set_vy Config.ASCENT_SPEED) g in
  let g :=
    if isPressed left g then on_lander (Lander.moveHorizontal (-1) 0.7) g
    else if isPressed right g then on_lander (Lander.moveHorizontal 1 0.7) g
    else on_lander Lander.easeRotation g in
  if isPressed space g then
    let g := on_lander Lander.boostAscent g in
    on_lander (Lander.setThrusterVisible true 0.8) g
  else if isPressed up g && Qltb 0 (get GameState.k_fuel g) then
    let g := on_lander (Lander.set_vy (Config.ASCENT_SPEED * 1.3)) g in
    let '(_, g) :=
      GameStateManager.consumeFuel
        (Config.FUEL_CONSUMPTION_RATE * deltaTime * 0.5) g in
    on_lander (Lander.setThrusterVisible true 0.6) g
  else on_lander (Lander.setThrusterVisible true 0.4) g.

Definition updateLander (deltaTime : Q) (g : t) : t :=
  match lander g with
  | None => g
  | Some l =>
      if negb (active (Lander.entity l)) then g
      else
        let g :=
          match get GameState.k_phase g with
          | Config.DESCENT => updateDescentPhase deltaTime g
          | Config.ASCENT => updateAscentPhase deltaTime g
          | _ => g
          end in
        on_lander (Lander.update deltaTime) g
  end.

Definition updateMeteors (deltaTime : Q) (g : t) : t :=
  with_meteors (map (Meteor.update deltaTime true) (meteors g)) g.

Definition updateAstronaut (deltaTime : Q) (g : t) : t :=
  match astronaut g, lander g with
  | Some a, Some l =>
      if negb (Config.phase_eqb (get GameState.k_phase g) Config.LANDED) then g
      else
        let '(isAboard, a) := Astronaut.update deltaTime (Lander.pos l) a in
        let g := with_astronaut (Some a) g in
        let g :=
          if Astronaut.isBoarding a && negb (get GameState.k_hasAstronaut g)
          then play "pickup" g else g in
        if isAboard then
          let g := with_astronaut None g in
          let g := GameStateManager.set GameState.k_hasAstronaut true g in
          let g := GameStateManager.set GameState.k_phase Config.ASCENT g in
          on_lander Lander.startAscent g
        else g
  | _, _ => g
  end.

(** The loop runs from the last index down and splices the dead ones out:
    the survivors keep their order. *)
Definition updateBullets (deltaTime : Q) (g : t) : t :=
  with_bullets
    (fold_right (fun bullet kept =>
                   let '(alive, bullet) := Bullet.update deltaTime bullet in
                   if alive then bullet :: kept else kept)
                [] (bullets g)) g.

Definition updateExplosions (deltaTime : Q) (g : t) : t :=
  with_explosions
    (fold_right (fun explosion kept =>
                   let '(alive, explosion) :=
                     Explosion.update deltaTime explosion in
                   if alive then explosion :: kept else kept)
                [] (explosions g)) g.

(** *** Collision resolution *)

(** [array.splice(array.indexOf(object), 1)], when the object is found. *)
Fixpoint spliceRef {A : Type} (refOf : A -> nat) (r : nat) (l : list A)
    : list A :=
  match l with
  | [] => []
  | x :: rest =>
      if (refOf x =? r)%nat then rest else x :: spliceRef refOf r rest
  end.

(** The body of [bulletHits.forEach]. *)
Definition resolveBulletHit (hit : Bullet.t * Meteor.t) (g : t) : t :=
  let '(bullet, meteor) := hit in
  let g := createExplosion (Meteor.pos meteor) g in
  let g := play "explosion" g in
  let g := GameStateManager.addScore (Meteor.points meteor) g in
  let g := with_bullets
             (spliceRef (fun b => ref (Bullet.entity b))
                        (ref (Bullet.entity bullet)) (bullets g)) g in
  with_meteors
    (spliceRef (fun m => ref (Meteor.entity m))
               (ref (Meteor.entity meteor)) (meteors g)) g.

Definition land (pad : LandingPad.t) (g : t) : t :=
  let g := play "land" g in
  let g := GameStateManager.set GameState.k_phase Config.LANDED g in
  let g := on_lander
             (fun l => Lander.on_entity
                         (EntityOps.setPosition (vx (Lander.pos l))
                            (- Config.GAME_HEIGHT / 2 + 3.5) 0) l) g in
  let g := on_lander
             (Lander.on_entity (EntityOps.with_velocity (mkVec3 0 0 0))) g in
  let g := GameStateManager.refillFuel Config.FUEL_REFILL_ON_LAND g in
  let g := GameStateManager.addScore Config.SCORE_LANDING g in
  createAstronaut pad g.

Definition dock (g : t) : t :=
  let g := play "dock" g in
  let g :=
    if get GameState.k_hasAstronaut g then
      let g := GameStateManager.rescueAstronaut g in
      GameStateManager.set GameState.k_hasAstronaut false g
    else g in
  let g := GameStateManager.set GameState.k_phase Config.DESCENT g in
  on_lander Lander.reset g.

(** The lander exists in every phase in which the checks run; without one
    the source would dereference [null]. *)
Definition checkCollisions (g : t) : t :=
  let phase := get GameState.k_phase g in
  match phase with
  | Config.LANDED | Config.GAME_OVER | Config.TITLE => g
  | _ =>
    match lander g with
    | None => g
    | Some l =>
      let '(hitMeteor, events) :=
        CollisionSystem.checkLanderMeteorCollision l (meteors g) in
      let g := dispatch events g in
      match hitMeteor with
      | Some _ => loseLife g
      | None =>
        let '(outside, events) := CollisionSystem.checkBoundaryCollision l in
        let g := dispatch events g in
        if outside then loseLife g
        else
          let '(bulletHits, events) :=
            CollisionSystem.checkBulletMeteorCollisions (bullets g) (meteors g) in
          let g := dispatch events g in
          let g := foldl (fun g hit => resolveBulletHit hit g) g bulletHits in
          match phase with
          | Config.DESCENT =>
              let '(pad, events) :=
                CollisionSystem.checkLandingPadCollision l (landingPads g) in
              let g := dispatch events g in
              match pad with
              | Some pad => land pad g
              | None =>
                  let '(crashed, events) :=
                    CollisionSystem.checkGroundCollision l (landingPads g) in
                  let g := dispatch events g in
                  if crashed then loseLife g else g
              end
          | Config.ASCENT =>
              let '(docked, events) :=
                CollisionSystem.checkDockingCollision l (mothership g) in
              let g := dispatch events g in
              if docked then dock g else g
          | _ => g
          end
      end
    end
  end.

(** One frame.  [requestAnimationFrame], the cosmetic animation of the
    static entities and the render call do not touch the simulation. *)
Definition gameLoop (currentTime : Q) (g : t) : t :=
  let elapsed := (currentTime - lastTime g) / 1000 in
  let deltaTime := if Qeq_bool elapsed 0 then 0.016 else elapsed in
  let g := with_lastTime currentTime g in
  match get GameState.k_phase g with
  | Config.TITLE | Config.GAME_OVER => g
  | _ =>
      let g := updateLander deltaTime g in
      let g := updateMeteors deltaTime g in
      let g := updateAstronaut deltaTime g in
      let g := updateBullets deltaTime g in
      let g := updateExplosions deltaTime g in
      checkCollisions g
  end.
End Game.

(** * Vocabulary of the statements *)

(** The condition under which [updateDescentPhase] applies thrust. *)
Definition thrustApplied (g : Game.t) : bool :=
  Game.isPressed up g && Qltb 0 (Game.get GameState.k_fuel g).

(** The vertical velocity of the game's lander ([0] before a lander exists). *)
Definition landerVy (g : Game.t) : Q :=
  match Game.lander g with
  | Some l => vy (Lander.vel l)
  | None => 0
  end.

(** A Descent-phase frame update is [updateLander] on a game in the Descent
    phase with an active lander. *)
Definition inDescent (g : Game.t) : bool :=
  Config.phase_eqb (Game.get GameState.k_phase g) Config.DESCENT
  && match Game.lander g with
     | Some l => active (Lander.entity l)
     | None => false
     end.

(** A game just started with the given keys held, with a random oracle that
    always answers one half. *)
Definition startedWith (held : InputKeys) : Game.t :=
  Game.with_keys held (Game.startGame (Game.new (fun _ => 0.5))).

(** A call of one of the two fuel methods. *)
Inductive FuelOp := Consume (amount : Q) | Refill (amount : Q).

Definition fuelAmount (op : FuelOp) : Q :=
  match op with Consume amount | Refill amount => amount end.

Definition applyFuelOp (op : FuelOp) (g : Game.t) : Game.t :=
  match op with
  | Consume amount => snd (Game.GameStateManager.consumeFuel amount g)
  | Refill amount => Game.GameStateManager.refillFuel amount g
  end.

Definition applyFuelOps (ops : list FuelOp) (g : Game.t) : Game.t :=
  foldl (fun g op => applyFuelOp op g) g ops.

Definition fuelOf (g : Game.t) : Q := GameState.fuel (Game.state g).

Definition fuelInRange (g : Game.t) : Prop :=
  0 <= fuelOf g /\ fuelOf g <= Config.FUEL_MAX.

(** The listener map is the one [Game.setupStateListeners] leaves: one
    listener on "change" (the UI refresh) and one on "levelUp" (the meteor
    regeneration). *)
Definition wiredListeners : gmap string (list GameState.Callback) :=
  GameState.listeners (Game.gameState (Game.new (fun _ => 0))).

Definition wired (g : Game.t) : Prop :=
  GameState.listeners (Game.gameState g) = wiredListeners.

(** A game in mid-play: started, then brought to the given counters. *)
Definition midGame (rescued level lives : Z) (fuel : Q) : Game.t :=
  let g := startedWith (mkKeys false false false false) in
  let s := Game.state g in
  Game.GameStateManager.with_state
    (GameState.mkState (GameState.phase s) (GameState.score s) lives rescued
                       fuel (GameState.hasAstronaut s) level) g.

(** The phases in which [gameLoop] runs the simulation, and those in which
    [checkCollisions] looks at the lander. *)
Definition simulated (p : Config.PHASE) : bool :=
  match p with Config.TITLE | Config.GAME_OVER => false | _ => true end.

Definition collisionsChecked (p : Config.PHASE) : bool :=
  match p with Config.DESCENT | Config.ASCENT => true | _ => false end.

(** The game as [checkCollisions] finds it in the frame at [currentTime]:
    after the five updates of [gameLoop]. *)
Definition beforeChecks (currentTime : Q) (g : Game.t) : Game.t :=
  let elapsed := (currentTime - Game.lastTime g) / 1000 in
  let deltaTime := if Qeq_bool elapsed 0 then 0.016 else elapsed in
  let g := Game.with_lastTime currentTime g in
  let g := Game.updateLander deltaTime g in
  let g := Game.updateMeteors deltaTime g in
  let g := Game.updateAstronaut deltaTime g in
  let g := Game.updateBullets deltaTime g in
  Game.updateExplosions deltaTime g.

Definition livesOf (g : Game.t) : Z := GameState.lives (Game.state g).
Definition phaseOf (g : Game.t) : Config.PHASE := GameState.phase (Game.state g).

(** The horizontal position of the game's lander. *)
Definition landerX (g : Game.t) : Q :=
  match Game.lander g with
  | Some l => vx (Lander.pos l)
  | None => 0
  end.

(** The horizontal position of the lander in a Descent frame after the
    movement of the frame (input, then velocity) and before
    [clampPosition]. *)
Definition preClampX (deltaTime : Q) (g : Game.t) : Q :=
  match Game.lander (Game.updateDescentPhase deltaTime g) with
  | Some l => vx (Lander.pos l) + vx (Lander.vel l)
  | None => 0
  end.

(** A started game with the right key held and the lander at the right edge
    of the play extent, where 64 frames of holding the key bring it. *)
Definition atRightEdge : Game.t :=
  Game.on_lander (Lander.set_x 19) (startedWith (mkKeys false true false false)).

(** Whether the game has a lander and it is active. *)
Definition landerActive (g : Game.t) : bool :=
  match Game.lander g with
  | Some l => active (Lander.entity l)
  | None => false
  end.

(** Clearing the active flag of an obstacle, of a projectile, of the craft. *)
Definition deactivateMeteor (m : Meteor.t) : Meteor.t :=
  Meteor.on_entity (EntityOps.with_active false) m.

Definition deactivateLander (l : Lander.t) : Lander.t :=
  Lander.on_entity (EntityOps.with_active false) l.

Definition meteorActive (m : Meteor.t) : bool := active (Meteor.entity m).
Definition bulletActive (b : Bullet.t) : bool := active (Bullet.entity b).

(** A meteor of unit radius at rest at the given place. *)
Definition meteorAt (r : nat) (x y : Q) : Meteor.t :=
  Meteor.mk (mkEntity r (mkVec3 x y 0) 1 (mkVec3 0 0 0) true 1)
            1 (mkVec3 0 0 0) false 0 false Config.SCORE_METEOR (Meteor.Rock 0).

Definition deactivateBullet (b : Bullet.t) : Bullet.t :=
  Bullet.mk (EntityOps.with_active false (Bullet.entity b)) (Bullet.speed b).

(** A sequence of [Meteor.update] calls, each with its time step and whether
    a scene is passed. *)
Definition meteorUpdates (calls : list (Q * bool)) (m : Meteor.t) : Meteor.t :=
  foldl (fun m call => Meteor.update (fst call) (snd call) m) m calls.

Definition meteorRadius (m : Meteor.t) : Q := radius (Meteor.entity m).
Definition meteorSpeedX (m : Meteor.t) : Q := Qabs (vx (Meteor.vel m)).

(** A random oracle that makes the meteor eligible for the transform (first
    draw below [FLAGSHIP_CHANCE]) and draws [scaleDraw] for its scale. *)
Definition eligibleOracle (scaleDraw : Q) (i : nat) : Q :=
  match i with
  | 0%nat => 0.01
  | 2%nat => scaleDraw
  | _ => 0.5
  end.

(** An eligible meteor of level 1 after sixty frames: its flash timer stands
    at the threshold, which the next frame exceeds. *)
Definition aboutToTransform (scaleDraw : Q) : Meteor.t :=
  Nat.iter 60 (Meteor.update 0.016 true)
           (Meteor.new 0 1 (eligibleOracle scaleDraw) 0).

(** A sequence of [Astronaut.update] calls, each with its time step and the
    lander position it is given: the values returned, in order, and the
    astronaut after the last call. *)
Fixpoint astronautUpdates (calls : list (Q * Vec3)) (a : Astronaut.t)
    : list bool * Astronaut.t :=
  match calls with
  | [] => ([], a)
  | (dt, landerPosition) :: rest =>
      let '(r, a) := Astronaut.update dt landerPosition a in
      let '(rs, a) := astronautUpdates rest a in
      (r :: rs, a)
  end.

(** How often a sequence of returned values reports "aboard". *)
Definition reports (rs : list bool) : nat := count_occ bool_dec rs true.

(** The position of a state on the path Approaching, Boarding, Aboard. *)
Definition rank (s : Astronaut.AstronautState) : nat :=
  match s with
  | Astronaut.RUNNING => 0
  | Astronaut.BOARDING => 1
  | Astronaut.ABOARD => 2
  end.

Definition astronautActive (a : Astronaut.t) : bool :=
  active (Astronaut.entity a).

(** The scale of a boarding astronaut after [k] updates, from scale 1. *)
Definition shrunk (k : nat) : Q := Nat.iter k (fun s => s * 0.95) 1.

(** The horizontal distance between an astronaut and a lander position. *)
Definition gap (p : Vec3) (a : Astronaut.t) : Q :=
  Qabs (vx p - vx (Astronaut.pos a)).

(** * Further vocabulary *)

Definition inAscent (g : Game.t) : bool :=
  Config.phase_eqb (Game.get GameState.k_phase g) Config.ASCENT
  && landerActive g.

(** The altitude of the game's lander. *)
Definition landerY (g : Game.t) : Q :=
  match Game.lander g with
  | Some l => vy (Lander.pos l)
  | None => 0
  end.

(** The factor by which the Ascent phase scales [ASCENT_SPEED]: the boost of
    the fire key, the thrust, or neither. *)
Definition ascentFactor (g : Game.t) : Q :=
  if Game.isPressed space g then 1.5
  else if thrustApplied g then 1.3
  else 1.

(** The half-width of the lander's play extent. *)
Definition landerHalfWidth : Q := Config.GAME_WIDTH / 2 - 1.

(** A game put into a given phase. *)
Definition inPhase (p : Config.PHASE) (g : Game.t) : Game.t :=
  Game.GameStateManager.with_state
    (GameState.write GameState.k_phase p (Game.state g)) g.

(** The half-width within which meteors bounce, and the band within which
    they wrap. *)
Definition meteorHalfWidth : Q := Config.GAME_WIDTH / 2 - 2.
Definition meteorTopBound : Q := Config.GAME_HEIGHT / 2 - 15.
Definition meteorBottomBound : Q := - Config.GAME_HEIGHT / 2 + 5.

(** A meteor is within one step of the bounce band, and beyond an edge only
    while heading back. *)
Definition withinReach (m : Meteor.t) : Prop :=
  let x := vx (Meteor.pos m) in
  let v := vx (Meteor.vel m) in
  Qabs x <= meteorHalfWidth + Qabs v
  /\ (meteorHalfWidth < x -> v <= 0)
  /\ (x < - meteorHalfWidth -> 0 <= v).

(** The flash timer after [k] ticks, from zero. *)
Definition flashed (k : nat) : Q := Nat.iter k (fun t => t + 0.05) 0.

(** Updates that all pass a scene, one per time step. *)
Definition withScene (steps : list Q) : list (Q * bool) :=
  map (fun dt => (dt, true)) steps.

(** [n] updates of a bullet, whatever they return. *)
Definition bulletUpdates (n : nat) (deltaTime : Q) (b : Bullet.t) : Bullet.t :=
  Nat.iter n (fun b => snd (Bullet.update deltaTime b)) b.

(** [n] updates of an explosion, whatever they return. *)
Definition explosionUpdates (n : nat) (deltaTime : Q) (x : Explosion.t)
    : Explosion.t :=
  Nat.iter n (fun x => snd (Explosion.update deltaTime x)) x.

(** A game in the Ascent phase with one bullet about to leave the playfield
    and another in mid-flight. *)
Definition twoBullets : Game.t :=
  Game.with_bullets
    [Bullet.new 100 (mkVec3 0 28 0); Bullet.new 101 (mkVec3 0 0 0)]
    (inPhase Config.ASCENT (startedWith (mkKeys false false false false))).

(** The lander of the game is clear of the hazards that [checkCollisions]
    looks at first: it touches no active meteor, it is inside the
    boundaries, and no bullet hits a meteor. *)
Definition clearOfHazards (g : Game.t) (l : Lander.t) : Prop :=
  Game.lander g = Some l
  /\ fst (CollisionSystem.checkLanderMeteorCollision l (Game.meteors g)) = None
  /\ Lander.isOutOfBounds l = false
  /\ fst (CollisionSystem.checkBulletMeteorCollisions
            (Game.bullets g) (Game.meteors g)) = [].

Definition scoreOf (g : Game.t) : Z := GameState.score (Game.state g).
Definition rescuedOf (g : Game.t) : Z :=
  GameState.astronautsRescued (Game.state g).
Definition carrying (g : Game.t) : bool :=
  GameState.hasAstronaut (Game.state g).

(** A lander in free fall just above the ground over the middle pad, and one
    just below the mothership. *)
Definition overMiddlePad : Game.t :=
  Game.with_meteors []
    (Game.on_lander (Lander.set_y (-28))
       (startedWith (mkKeys false false false false))).
Definition underMothership : Game.t :=
  Game.GameStateManager.with_state
    (GameState.mkState Config.ASCENT 100 3 0 40 true 1)
    (Game.with_meteors []
       (Game.on_lander (Lander.set_y 25)
          (startedWith (mkKeys false false false false)))).

(** The game after the frames at the given times. *)
Definition frames (times : list Q) (g : Game.t) : Game.t :=
  foldl (fun g t => Game.gameLoop t g) g times.

(** A live lander at rest at a position. *)
Definition restingAt (p : Vec3) (l : Lander.t) : Prop :=
  Lander.pos l = p /\ Lander.vel l = mkVec3 0 0 0
  /\ active (Lander.entity l) = true.

(** A landed game: the lander rests at [p], strictly inside the boundaries
    and below the docking height, and the astronaut [a] is on its way. *)
Definition landedWith (p : Vec3) (a : Astronaut.t) (g : Game.t) : Prop :=
  phaseOf g = Config.LANDED
  /\ (exists l, Game.lander g = Some l /\ restingAt p l)
  /\ Game.astronaut g = Some a
  /\ - landerHalfWidth < vx p < landerHalfWidth
  /\ vy p <= Config.GAME_HEIGHT / 2 - 6.

(** An astronaut as the constructor leaves it, wherever it stands. *)
Definition newcomer (a : Astronaut.t) : Prop :=
  astronautActive a = true
  /\ Astronaut.state a = Astronaut.RUNNING
  /\ Astronaut.speed a = 0.05
  /\ scale (Astronaut.entity a) = 1.

(** The game right after a landing on the middle pad. *)
Definition justLanded : Game.t := Game.checkCollisions overMiddlePad.

(** The callbacks registered for an event, in calling order. *)
Definition callbacksOf (event : string) (m : GameState.t)
    : list GameState.Callback :=
  default [] (GameState.listeners m !! event).

(** * src/systems/InputSystem.js: the key handlers

    The handlers act on the keys and the enabled flag that the game record
    holds.  The only listener is the one that [Game.init] registers:
    [handleSpacePress] on the action "space"; the events "keydown" and
    "keyup" have none. *)

Module InputSystem.
Inductive Action := ActLeft | ActRight | ActUp | ActSpace.

(** [this.keyBindings[event.code]]. *)
Definition keyBindings (code : string) : option Action :=
  if String.eqb code "ArrowLeft" then Some ActLeft
  else if String.eqb code "KeyA" then Some ActLeft
  else if String.eqb code "ArrowRight" then Some ActRight
  else if String.eqb code "KeyD" then Some ActRight
  else if String.eqb code "ArrowUp" then Some ActUp
  else if String.eqb code "KeyW" then Some ActUp
  else if String.eqb code "Space" then Some ActSpace
  else None.

(** [this.keys[action]] and [this.keys[action] = value]. *)
Definition key (action : Action) (k : InputKeys) : bool :=
  match action with
  | ActLeft => left k
  | ActRight => right k
  | ActUp => up k
  | ActSpace => space k
  end.

Definition setKey (action : Action) (value : bool) (k : InputKeys)
    : InputKeys :=
  match action with
  | ActLeft => mkKeys value (right k) (up k) (space k)
  | ActRight => mkKeys (left k) value (up k) (space k)
  | ActUp => mkKeys (left k) (right k) value (space k)
  | ActSpace => mkKeys (left k) (right k) (up k) value
  end.

(** [this._notify(action, data)] with the listeners of [Game.init]. *)
Definition _notify (action : Action) (data : bool) (g : Game.t) : Game.t :=
  match action with
  | ActSpace => Game.handleSpacePress data g
  | _ => g
  end.

Definition setEnabled (enabled : bool) (g : Game.t) : Game.t :=
  let g := Game.with_inputEnabled enabled g in
  if negb enabled
  then Game.with_keys (mkKeys false false false false) g
  else g.

Definition _onKeyDown (code : string) (g : Game.t) : Game.t :=
  if negb (Game.inputEnabled g) then g
  else match keyBindings code with
       | Some action =>
           let wasPressed := key action (Game.keys g) in
           let g := Game.with_keys (setKey action true (Game.keys g)) g in
           if negb wasPressed then _notify action true g else g
       | None => g
       end.

Definition _onKeyUp (code : string) (g : Game.t) : Game.t :=
  match keyBindings code with
  | Some action =>
      let g := Game.with_keys (setKey action false (Game.keys g)) g in
      _notify action false g
  | None => g
  end.
End InputSystem.

(** A game in the Ascent phase with an empty bullet pool. *)
Definition ascending : Game.t :=
  inPhase Config.ASCENT (startedWith (mkKeys false false false false)).

(** The explosions of the game that are still running. *)
Definition allRunning (g : Game.t) : Prop :=
  Forall (fun x => Explosion.active x = true) (Game.explosions g).

(** A game in the Descent phase with a spent explosion and the lander on a
    meteor. *)
Definition hitWithDebris : Game.t :=
  Game.with_explosions [Explosion.mk [] false]
    (Game.with_meteors
       [Meteor.set_y 0 (Meteor.set_x 0 (Meteor.new 200 1 (fun _ => 0.5) 0))]
       (Game.on_lander (Lander.set_y 0)
          (startedWith (mkKeys false false false false)))).

(** * Properties *)

(** ** Boolean comparisons *)

Lemma Qltb_lt (x y : Q) : Qltb x y = true <-> x < y.
Proof.
  unfold Qltb. rewrite negb_true_iff. split.
  - intros H. apply Qnot_le_lt. intros Hle.
    apply Qle_bool_iff in Hle. congruence.
  - intros H. destruct (Qle_bool y x) eqn:E; [|reflexivity].
    apply Qle_bool_iff in E. exfalso. exact (Qlt_not_le _ _ H E).
Qed.

Lemma Qltb_ge (x y : Q) : Qltb x y = false <-> y <= x.
Proof.
  unfold Qltb. rewrite negb_false_iff. apply Qle_bool_iff.
Qed.

Lemma Qle_bool_gt (x y : Q) : Qle_bool x y = false <-> y < x.
Proof.
  rewrite <- Qltb_lt. unfold Qltb. destruct (Qle_bool x y); simpl; split; congruence.
Qed.

(** ** What the listeners leave alone

    A projection of the game that no listener, no notification record and no
    state write touches is preserved by every method of the state manager. *)

Section Frame.
Context {A : Type} (proj : Game.t -> A).
Hypothesis Hcb :
  forall cb g, proj (Game.GameStateManager.run_callback cb g) = proj g.
Hypothesis Hrec :
  forall n g, proj (Game.GameStateManager.record n g) = proj g.

Lemma run_callbacks_frame cbs g :
  proj (foldl (fun g cb => Game.GameStateManager.run_callback cb g) g cbs)
  = proj g.
Proof.
  revert g. induction cbs as [|cb cbs IH]; intros g; simpl; [reflexivity|].
  rewrite IH. apply Hcb.
Qed.

Lemma notify_frame ev n o g :
  proj (Game.GameStateManager.notify ev n o g) = proj g.
Proof.
  unfold Game.GameStateManager.notify.
  rewrite !run_callbacks_frame. apply Hrec.
Qed.

Hypothesis Hst :
  forall s g, proj (Game.GameStateManager.with_state s g) = proj g.

Lemma set_frame {B : Type} (key : GameState.Key B) v g :
  proj (Game.GameStateManager.set key v g) = proj g.
Proof.
  unfold Game.GameStateManager.set.
  destruct (GameState.same key _ v); [reflexivity|].
  rewrite notify_frame. apply Hst.
Qed.

Lemma consumeFuel_frame amount g :
  proj (snd (Game.GameStateManager.consumeFuel amount g)) = proj g.
Proof.
  unfold Game.GameStateManager.consumeFuel.
  destruct (Qle_bool _ 0); simpl; [reflexivity|apply set_frame].
Qed.

Lemma refillFuel_frame amount g :
  proj (Game.GameStateManager.refillFuel amount g) = proj g.
Proof. apply set_frame. Qed.

Lemma addScore_frame points g :
  proj (Game.GameStateManager.addScore points g) = proj g.
Proof. apply set_frame. Qed.

Lemma loseLife_frame g :
  proj (snd (Game.GameStateManager.loseLife g)) = proj g.
Proof. unfold Game.GameStateManager.loseLife. simpl. apply set_frame. Qed.
End Frame.

Lemma state_run_callback cb g :
  Game.state (Game.GameStateManager.run_callback cb g) = Game.state g.
Proof. destruct cb; reflexivity. Qed.

Lemma state_notify ev n o g :
  Game.state (Game.GameStateManager.notify ev n o g) = Game.state g.
Proof.
  apply (notify_frame Game.state); [apply state_run_callback|reflexivity].
Qed.

(** The state after [set]: written unless the value is strictly equal to the
    old one. *)
Lemma state_set {B : Type} (key : GameState.Key B) v g :
  Game.state (Game.GameStateManager.set key v g)
  = if GameState.same key (GameState.read key (Game.state g)) v
    then Game.state g
    else GameState.write key v (Game.state g).
Proof.
  unfold Game.GameStateManager.set.
  destruct (GameState.same key _ v); [reflexivity|].
  rewrite state_notify. reflexivity.
Qed.

Lemma lander_set {B : Type} (key : GameState.Key B) v g :
  Game.lander (Game.GameStateManager.set key v g) = Game.lander g.
Proof. apply set_frame; try reflexivity. intros []; reflexivity. Qed.

Lemma lander_consumeFuel amount g :
  Game.lander (snd (Game.GameStateManager.consumeFuel amount g)) = Game.lander g.
Proof. apply consumeFuel_frame; try reflexivity. intros []; reflexivity. Qed.

Lemma timers_set {B : Type} (key : GameState.Key B) v g :
  Game.timers (Game.GameStateManager.set key v g) = Game.timers g.
Proof. apply set_frame; try reflexivity. intros []; reflexivity. Qed.

(** ** Descent kinematics *)

Lemma applyGravity_vy l :
  vy (Lander.vel (Lander.applyGravity l))
  = Qmax (vy (Lander.vel l) + Config.GRAVITY) Config.MAX_DESCENT_SPEED.
Proof. reflexivity. Qed.

Lemma update_vel dt l : Lander.vel (Lander.update dt l) = Lander.vel l.
Proof. unfold Lander.update. destruct (negb _); reflexivity. Qed.

Lemma iter_gravity_floor (f : Lander.t -> Lander.t) n l :
  (forall l, Config.MAX_DESCENT_SPEED <= vy (Lander.vel (f l))) ->
  Config.MAX_DESCENT_SPEED <= vy (Lander.vel l) ->
  Config.MAX_DESCENT_SPEED <= vy (Lander.vel (Nat.iter n f l)).
Proof. intros Hf Hl. destruct n as [|n]; simpl; [exact Hl|apply Hf]. Qed.

(** C9. After every [applyGravity] the vertical velocity is at least
    [MAX_DESCENT_SPEED]; the bound is kept by any number of gravity
    applications starting from the reset velocity, with or without the
    position update of the frame in between. *)
Theorem applyGravity_never_below_floor :
  (forall l,
      Config.MAX_DESCENT_SPEED <= vy (Lander.vel (Lander.applyGravity l)))
  /\ (forall n l,
      Config.MAX_DESCENT_SPEED
      <= vy (Lander.vel (Nat.iter n Lander.applyGravity (Lander.reset l))))
  /\ (forall n dt l,
      Config.MAX_DESCENT_SPEED
      <= vy (Lander.vel
               (Nat.iter n (fun l => Lander.update dt (Lander.applyGravity l))
                         (Lander.reset l)))).
Proof.
  assert (Hg : forall l,
             Config.MAX_DESCENT_SPEED <= vy (Lander.vel (Lander.applyGravity l))).
  { intros l. rewrite applyGravity_vy. apply Q.le_max_r. }
  assert (Hr : forall l,
             Config.MAX_DESCENT_SPEED <= vy (Lander.vel (Lander.reset l))).
  { intros l. simpl. unfold Config.MAX_DESCENT_SPEED, Config.DESCENT_SPEED. lra. }
  split; [exact Hg|split].
  - intros n l. apply iter_gravity_floor; [exact Hg|apply Hr].
  - intros n dt l. apply iter_gravity_floor; [|apply Hr].
    intros l0. rewrite update_vel. apply Hg.
Qed.

Lemma isPressed_on_lander a f g :
  Game.isPressed a (Game.on_lander f g) = Game.isPressed a g.
Proof. reflexivity. Qed.

Lemma get_on_lander {B} (k : GameState.Key B) f g :
  Game.get k (Game.on_lander f g) = Game.get k g.
Proof. reflexivity. Qed.

Lemma lander_on_lander f g :
  Game.lander (Game.on_lander f g) = f <$> Game.lander g.
Proof. reflexivity. Qed.

Lemma update_active dt l :
  active (Lander.entity (Lander.update dt l)) = active (Lander.entity l).
Proof. unfold Lander.update. destruct (negb _) eqn:E; reflexivity. Qed.

Lemma descent_tick_lander dt g l :
  Game.lander g = Some l ->
  active (Lander.entity l) = true ->
  Game.get GameState.k_phase g = Config.DESCENT ->
  exists l',
    Game.lander (Game.updateLander dt g) = Some l'
    /\ active (Lander.entity l') = true
    /\ vy (Lander.vel l')
       == Qmax (vy (Lander.vel l) + Config.GRAVITY) Config.MAX_DESCENT_SPEED
          + (if thrustApplied g then Config.THRUST else 0).
Proof.
  intros Hl Ha Hp. unfold Game.updateLander. rewrite Hl, Ha, Hp. simpl negb. cbv iota.
  unfold Game.updateDescentPhase, thrustApplied.
  rewrite !isPressed_on_lander.
  destruct (Game.isPressed left g), (Game.isPressed right g);
    rewrite ?isPressed_on_lander, ?get_on_lander;
    destruct (Game.isPressed up g && Qltb 0 (Game.get GameState.k_fuel g)) eqn:Et.
  all: try (rewrite !lander_on_lander, Hl; eexists; split; [reflexivity|];
            rewrite update_vel, update_active; simpl; split; [exact Ha|lra]).
  all: match goal with
       | |- context [Game.GameStateManager.consumeFuel ?a ?g0] =>
           pose proof (lander_consumeFuel a g0) as Hc;
           destruct (Game.GameStateManager.consumeFuel a g0) as [b g1]
       end;
       cbn [snd] in Hc; rewrite !lander_on_lander, Hl in Hc; cbn [fmap option_fmap option_map] in Hc;
       unfold Game.Math_random;
       match goal with |- context [Qltb ?r 0.3] => destruct (Qltb r 0.3) end;
       (eexists; split;
        [rewrite lander_on_lander; simpl; rewrite Hc; reflexivity|];
        rewrite update_vel, update_active; simpl; split; [exact Ha|lra]).
Qed.

Lemma phase_eqb_eq a b : Config.phase_eqb a b = true <-> a = b.
Proof. destruct a, b; simpl; split; congruence. Qed.

Lemma inDescent_spec g :
  inDescent g = true <->
  Game.get GameState.k_phase g = Config.DESCENT
  /\ exists l, Game.lander g = Some l /\ active (Lander.entity l) = true.
Proof.
  unfold inDescent. rewrite andb_true_iff, phase_eqb_eq.
  destruct (Game.lander g) as [l|]; split; intros [Hp H]; split; try exact Hp.
  - exists l. split; [reflexivity|exact H].
  - destruct H as (l' & [= <-] & H). exact H.
  - discriminate.
  - destruct H as (l' & [=] & _).
Qed.

Lemma phase_consumeFuel amount g :
  GameState.phase (Game.state (snd (Game.GameStateManager.consumeFuel amount g)))
  = GameState.phase (Game.state g).
Proof.
  unfold Game.GameStateManager.consumeFuel.
  destruct (Qle_bool _ 0); simpl; [reflexivity|].
  rewrite state_set. destruct (GameState.same _ _ _); reflexivity.
Qed.

Lemma descent_tick_phase dt g :
  Game.get GameState.k_phase (Game.updateDescentPhase dt g)
  = Game.get GameState.k_phase g.
Proof.
  unfold Game.updateDescentPhase.
  rewrite !isPressed_on_lander.
  destruct (Game.isPressed left g), (Game.isPressed right g);
    rewrite ?isPressed_on_lander, ?get_on_lander;
    destruct (Game.isPressed up g && Qltb 0 (Game.get GameState.k_fuel g));
    try reflexivity.
  all: match goal with
       | |- context [Game.GameStateManager.consumeFuel ?a ?g0] =>
           pose proof (phase_consumeFuel a g0) as Hc;
           destruct (Game.GameStateManager.consumeFuel a g0) as [b g1]
       end;
       cbn [snd] in Hc; unfold Game.Math_random;
       match goal with |- context [Qltb ?r 0.3] => destruct (Qltb r 0.3) end;
       exact Hc.
Qed.

(** What a Descent-phase frame update does to the vertical velocity.  It
    becomes [max (vy + GRAVITY) MAX_DESCENT_SPEED], plus [THRUST]
    when thrust is applied (up held and fuel left); the game stays in the
    Descent phase.  Without thrust a velocity that is not positive stays so.
    With thrust the velocity rises by at least [THRUST + GRAVITY], and it is
    not positive after the tick exactly when it was at most
    [- (THRUST + GRAVITY)] before: nothing clamps it at zero. *)
Theorem descent_tick_velocity dt g :
  inDescent g = true ->
  let v := landerVy g in
  let v' := landerVy (Game.updateLander dt g) in
  inDescent (Game.updateLander dt g) = true
  /\ v' == Qmax (v + Config.GRAVITY) Config.MAX_DESCENT_SPEED
           + (if thrustApplied g then Config.THRUST else 0)
  /\ Config.MAX_DESCENT_SPEED <= v'
  /\ (thrustApplied g = false -> v <= 0 -> v' <= 0)
  /\ (thrustApplied g = true ->
      v + (Config.THRUST + Config.GRAVITY) <= v'
      /\ (v' <= 0 <-> v <= - (Config.THRUST + Config.GRAVITY))).
Proof.
  intros Hd. apply inDescent_spec in Hd. destruct Hd as (Hp & l & Hl & Ha).
  destruct (descent_tick_lander dt g l Hl Ha Hp) as (l' & Hl' & Ha' & Hv).
  intros v v'. unfold v, v', landerVy. rewrite Hl', Hl.
  assert (Hd' : inDescent (Game.updateLander dt g) = true).
  { apply inDescent_spec. split; [|exists l'; split; assumption].
    unfold Game.updateLander. rewrite Hl, Ha, Hp. simpl negb. cbv iota.
    change (Game.get GameState.k_phase (Game.updateDescentPhase dt g)
            = Config.DESCENT).
    rewrite descent_tick_phase. exact Hp. }
  split; [exact Hd'|]. split; [exact Hv|].
  revert Hv. unfold Config.GRAVITY, Config.THRUST, Config.MAX_DESCENT_SPEED.
  set (a := vy (Lander.vel l) + -0.015).
  destruct (Q.max_spec a (-0.3)) as [[Hlt Hm]|[Hle Hm]];
    rewrite Hm; subst a; destruct (thrustApplied g); intros Hv;
    (split; [lra|]); split; intros; try discriminate;
    try split; try split; intros; lra.
Qed.

(** [descent_tick_velocity] on the first frame of a game started with the
    thrust key held. *)
Lemma descent_tick_velocity_witness :
  inDescent (startedWith (mkKeys false false true false)) = true
  /\ landerVy (Game.updateLander 0.016
                 (startedWith (mkKeys false false true false))) == -0.055.
Proof.
  assert (H : inDescent (startedWith (mkKeys false false true false)) = true)
    by (vm_compute; reflexivity).
  split; [exact H|].
  destruct (descent_tick_velocity 0.016 _ H) as (_ & Hv & _).
  rewrite Hv. vm_compute. reflexivity.
Defined.

(** C1 on the code.  The claim, and the repository's physics notes ("the
    ship cannot ascend (velocity.y capped at 0)"), say that a Descent tick
    keeps a vertical velocity that is not positive; the code has no cap.
    From the reset velocity, with thrust held and fuel left, the velocity
    before the fourth Descent tick is [-0.005] and after it [0.02]. *)
Lemma thrust_produces_positive_velocity :
  let g := Nat.iter 3 (Game.updateLander 0.016)
                    (startedWith (mkKeys false false true false)) in
  inDescent g = true
  /\ thrustApplied g = true
  /\ landerVy g <= 0
  /\ ~ landerVy (Game.updateLander 0.016 g) <= 0.
Proof.
  cbv zeta. split; [vm_compute; reflexivity|].
  split; [vm_compute; reflexivity|]. split.
  - apply Qle_bool_iff. vm_compute. reflexivity.
  - intros H. apply Qle_bool_iff in H. vm_compute in H. discriminate.
Qed.

(** ** Fuel *)

Lemma fuel_set v g :
  fuelOf (Game.GameStateManager.set GameState.k_fuel v g) == v.
Proof.
  unfold fuelOf. rewrite state_set. simpl.
  destruct (Qeq_bool (GameState.fuel (Game.state g)) v) eqn:E; [|reflexivity].
  apply Qeq_bool_eq. exact E.
Qed.

Lemma consumeFuel_fuel amount g :
  0 < fuelOf g ->
  fuelOf (snd (Game.GameStateManager.consumeFuel amount g))
  == Qmax 0 (fuelOf g - amount).
Proof.
  intros Hpos. unfold Game.GameStateManager.consumeFuel.
  destruct (Qle_bool (GameState.fuel (Game.state g)) 0) eqn:E.
  - apply Qle_bool_iff in E. unfold fuelOf in Hpos. lra.
  - simpl. apply fuel_set.
Qed.

Lemma consumeFuel_empty amount g :
  fuelOf g <= 0 ->
  Game.GameStateManager.consumeFuel amount g = (false, g).
Proof.
  intros Hle. unfold Game.GameStateManager.consumeFuel.
  destruct (Qle_bool (GameState.fuel (Game.state g)) 0) eqn:E; [reflexivity|].
  apply Qle_bool_gt in E. unfold fuelOf in Hle. lra.
Qed.

Lemma refillFuel_fuel amount g :
  fuelOf (Game.GameStateManager.refillFuel amount g)
  == Qmin Config.FUEL_MAX (fuelOf g + amount).
Proof. apply fuel_set. Qed.

(** [consumeFuel] never drives the fuel below zero, whatever the amount. *)
Lemma consumeFuel_nonneg amount g :
  0 <= fuelOf g ->
  0 <= fuelOf (snd (Game.GameStateManager.consumeFuel amount g)).
Proof.
  intros H0. destruct (Qlt_le_dec 0 (fuelOf g)) as [Hpos|Hle].
  - rewrite consumeFuel_fuel by exact Hpos. apply Q.le_max_l.
  - rewrite consumeFuel_empty by exact Hle. exact H0.
Qed.

(** [refillFuel] never drives the fuel above [FUEL_MAX], whatever the
    amount. *)
Lemma refillFuel_le_max amount g :
  fuelOf (Game.GameStateManager.refillFuel amount g) <= Config.FUEL_MAX.
Proof. rewrite refillFuel_fuel. apply Q.le_min_l. Qed.

Lemma applyFuelOp_in_range op g :
  0 <= fuelAmount op -> fuelInRange g -> fuelInRange (applyFuelOp op g).
Proof.
  intros Ha [H0 Hmax]. destruct op as [amount|amount]; simpl in *; split.
  - apply consumeFuel_nonneg. exact H0.
  - destruct (Qlt_le_dec 0 (fuelOf g)) as [Hpos|Hle].
    + rewrite consumeFuel_fuel by exact Hpos.
      apply Q.max_lub; unfold Config.FUEL_MAX in *; lra.
    + rewrite consumeFuel_empty by exact Hle. exact Hmax.
  - rewrite refillFuel_fuel.
    apply Q.min_glb; unfold Config.FUEL_MAX in *; lra.
  - apply refillFuel_le_max.
Qed.

(** C5. Starting from a fuel value in [[0, FUEL_MAX]], every sequence of
    [consumeFuel] and [refillFuel] calls with non-negative amounts leaves the
    fuel in [[0, FUEL_MAX]]. *)
Theorem fuel_stays_in_range ops g :
  fuelInRange g ->
  Forall (fun op => 0 <= fuelAmount op) ops ->
  fuelInRange (applyFuelOps ops g).
Proof.
  intros Hg Hops. revert g Hg.
  induction Hops as [|op ops Hop _ IH]; intros g Hg; simpl; [exact Hg|].
  apply IH. apply applyFuelOp_in_range; assumption.
Qed.

(** Witness of [fuel_stays_in_range]: a full tank, burnt and refilled. *)
Lemma fuel_stays_in_range_witness :
  fuelInRange
    (applyFuelOps [Consume 60; Refill 50; Consume 200; Refill 500; Consume 0.24]
                  (midGame 0 1 3 100)).
Proof.
  apply fuel_stays_in_range.
  - split; vm_compute; discriminate.
  - repeat constructor; vm_compute; discriminate.
Defined.

(** C10. With no fuel left [consumeFuel] returns [false] and changes nothing
    (no write, no notification); with fuel left it returns [true] and sets
    the fuel to [max 0 (fuel - amount)], leaving the other keys of the state
    as they were. *)
Theorem consumeFuel_result amount g :
  (fuelOf g <= 0 ->
   Game.GameStateManager.consumeFuel amount g = (false, g))
  /\ (0 < fuelOf g ->
      let g' := snd (Game.GameStateManager.consumeFuel amount g) in
      fst (Game.GameStateManager.consumeFuel amount g) = true
      /\ fuelOf g' == Qmax 0 (fuelOf g - amount)
      /\ Game.state g' = GameState.write GameState.k_fuel (fuelOf g') (Game.state g)).
Proof.
  split; [apply consumeFuel_empty|].
  intros Hpos g'. split; [|split].
  - unfold Game.GameStateManager.consumeFuel.
    destruct (Qle_bool (GameState.fuel (Game.state g)) 0) eqn:E; [|reflexivity].
    apply Qle_bool_iff in E. unfold fuelOf in Hpos. lra.
  - apply consumeFuel_fuel. exact Hpos.
  - subst g'. unfold fuelOf, Game.GameStateManager.consumeFuel.
    destruct (Qle_bool (GameState.fuel (Game.state g)) 0) eqn:E.
    + simpl. destruct (Game.state g). reflexivity.
    + simpl snd. rewrite state_set. simpl.
      destruct (Qeq_bool _ _); [destruct (Game.state g)|]; reflexivity.
Qed.

(** Witness of [consumeFuel_result]: an empty tank and a full one. *)
Lemma consumeFuel_result_witness :
  Game.GameStateManager.consumeFuel 15 (midGame 0 1 3 0)
  = (false, midGame 0 1 3 0)
  /\ fuelOf (snd (Game.GameStateManager.consumeFuel 15 (midGame 0 1 3 100)))
     == 85.
Proof.
  split.
  - apply (consumeFuel_result 15 (midGame 0 1 3 0)).
    vm_compute. discriminate.
  - destruct (consumeFuel_result 15 (midGame 0 1 3 100)) as [_ H].
    destruct H as (_ & H & _); [vm_compute; reflexivity|].
    rewrite H. vm_compute. reflexivity.
Defined.

(** ** Level progression *)

Lemma callbacks_wired ev g :
  wired g ->
  Game.GameStateManager.callbacks ev g
  = default [] (wiredListeners !! ev).
Proof. intros H. unfold Game.GameStateManager.callbacks. rewrite H. reflexivity. Qed.

Lemma wired_change : default [] (wiredListeners !! "change") = [GameState.UpdateUI].
Proof. vm_compute. reflexivity. Qed.

Lemma wired_levelUp :
  default [] (wiredListeners !! "levelUp") = [GameState.CreateMeteors].
Proof. vm_compute. reflexivity. Qed.

(** A key that has no listener of its own: [set] writes, records the
    notification and refreshes the UI. *)
Lemma set_wired {B : Type} (key : GameState.Key B) v g :
  wired g ->
  default [] (wiredListeners !! GameState.name key) = [] ->
  Game.GameStateManager.set key v g
  = if GameState.same key (GameState.read key (Game.state g)) v then g
    else
      let s := GameState.write key v (Game.state g) in
      Game.uiCall (Game.UpdateAll s)
        (Game.GameStateManager.record
           (GameState.mkNotification (GameState.name key) (GameState.box key v)
              (Some (GameState.box key (GameState.read key (Game.state g)))))
           (Game.GameStateManager.with_state s g)).
Proof.
  intros Hw Hk. unfold Game.GameStateManager.set.
  destruct (GameState.same key _ v); [reflexivity|].
  unfold Game.GameStateManager.notify.
  rewrite (callbacks_wired (GameState.name key)) by exact Hw.
  rewrite Hk. simpl foldl.
  rewrite (callbacks_wired "change") by exact Hw.
  rewrite wired_change. reflexivity.
Qed.

Lemma notify_levelUp_wired n o g :
  wired g ->
  Game.GameStateManager.notify "levelUp" n o g
  = let g := Game.createMeteors
               (Game.GameStateManager.record
                  (GameState.mkNotification "levelUp" n o) g) in
    Game.uiCall (Game.UpdateAll (Game.state g)) g.
Proof.
  intros Hw. unfold Game.GameStateManager.notify.
  rewrite (callbacks_wired "levelUp") by exact Hw.
  rewrite wired_levelUp. simpl foldl.
  rewrite (callbacks_wired "change") by exact Hw.
  rewrite wired_change. reflexivity.
Qed.

Lemma wired_set {B : Type} (key : GameState.Key B) v g :
  wired g -> wired (Game.GameStateManager.set key v g).
Proof.
  unfold wired. intros H.
  rewrite (set_frame (fun g => GameState.listeners (Game.gameState g)));
    try reflexivity; [exact H|intros []; reflexivity].
Qed.

Lemma state_uiCall c g : Game.state (Game.uiCall c g) = Game.state g.
Proof. reflexivity. Qed.

Lemma state_record n g :
  Game.state (Game.GameStateManager.record n g) = Game.state g.
Proof. reflexivity. Qed.

Lemma state_createMeteors g : Game.state (Game.createMeteors g) = Game.state g.
Proof. reflexivity. Qed.

Lemma meteorBatches_uiCall c g :
  Game.meteorBatches (Game.uiCall c g) = Game.meteorBatches g.
Proof. reflexivity. Qed.

Lemma meteorBatches_record n g :
  Game.meteorBatches (Game.GameStateManager.record n g) = Game.meteorBatches g.
Proof. reflexivity. Qed.

Lemma meteorBatches_createMeteors g :
  Game.meteorBatches (Game.createMeteors g) = S (Game.meteorBatches g).
Proof. reflexivity. Qed.

Lemma meteors_uiCall c g : Game.meteors (Game.uiCall c g) = Game.meteors g.
Proof. reflexivity. Qed.

Lemma createMeteors_length g :
  length (Game.meteors (Game.createMeteors g))
  = Z.to_nat (Config.METEOR_COUNT
              + GameState.level (Game.state g) * Config.METEORS_PER_LEVEL).
Proof.
  unfold Game.createMeteors. simpl.
  rewrite length_map, length_seq. reflexivity.
Qed.

(** Under the game's wiring, writing a key without a listener of its own
    regenerates nothing. *)
Lemma set_plain {B : Type} (key : GameState.Key B) v g :
  wired g ->
  default [] (wiredListeners !! GameState.name key) = [] ->
  let g' := Game.GameStateManager.set key v g in
  wired g'
  /\ Game.meteorBatches g' = Game.meteorBatches g
  /\ Game.meteors g' = Game.meteors g
  /\ Game.state g'
     = if GameState.same key (GameState.read key (Game.state g)) v
       then Game.state g
       else GameState.write key v (Game.state g).
Proof.
  intros Hw Hk g'. split; [apply wired_set; exact Hw|].
  split; [|split; [|apply state_set]]; subst g';
    rewrite set_wired by assumption;
    destruct (GameState.same key _ v); reflexivity.
Qed.

Lemma rem_divide_5 z :
  (Z.rem z Config.ASTRONAUTS_PER_LEVEL =? 0)%Z = true
  <-> (Config.ASTRONAUTS_PER_LEVEL | z)%Z.
Proof.
  rewrite Z.eqb_eq. apply Z.rem_divide. discriminate.
Qed.

(** C4. A call of [rescueAstronaut] increments the rescue count; the level
    goes up by one and the obstacle batch is regenerated exactly once, three
    meteors larger than a batch of the previous level, if and only if the
    incremented count is a multiple of [ASTRONAUTS_PER_LEVEL]; otherwise the
    level and the meteors are left as they were. *)
Theorem rescueAstronaut_level_up g :
  wired g ->
  (1 <= GameState.level (Game.state g))%Z ->
  let rescued := (GameState.astronautsRescued (Game.state g) + 1)%Z in
  let g' := Game.GameStateManager.rescueAstronaut g in
  GameState.astronautsRescued (Game.state g') = rescued
  /\ ((Config.ASTRONAUTS_PER_LEVEL | rescued)%Z ->
      GameState.level (Game.state g') = (GameState.level (Game.state g) + 1)%Z
      /\ Game.meteorBatches g' = S (Game.meteorBatches g)
      /\ length (Game.meteors g')
         = (length (Game.meteors (Game.createMeteors g))
            + Z.to_nat Config.METEORS_PER_LEVEL)%nat)
  /\ (~ (Config.ASTRONAUTS_PER_LEVEL | rescued)%Z ->
      GameState.level (Game.state g') = GameState.level (Game.state g)
      /\ Game.meteorBatches g' = Game.meteorBatches g
      /\ Game.meteors g' = Game.meteors g).
Proof.
  intros Hw Hlevel rescued g'. subst g'.
  unfold Game.GameStateManager.rescueAstronaut, Game.GameStateManager.addScore.
  fold rescued.
  destruct (set_plain GameState.k_astronautsRescued rescued g Hw)
    as (Hw1 & Hb1 & Hm1 & Hs1); [vm_compute; reflexivity|].
  set (g1 := Game.GameStateManager.set GameState.k_astronautsRescued rescued g) in *.
  destruct (set_plain GameState.k_score
              (GameState.score (Game.state g1) + Config.SCORE_RESCUE)%Z g1 Hw1)
    as (Hw2 & Hb2 & Hm2 & Hs2); [vm_compute; reflexivity|].
  set (g2 := Game.GameStateManager.set GameState.k_score _ g1) in *.
  simpl in Hs1, Hs2.
  replace (GameState.astronautsRescued (Game.state g) =? rescued)%Z
    with false in Hs1 by (symmetry; apply Z.eqb_neq; subst rescued; lia).
  replace (GameState.score (Game.state g1)
           =? GameState.score (Game.state g1) + Config.SCORE_RESCUE)%Z
    with false in Hs2
    by (symmetry; apply Z.eqb_neq; unfold Config.SCORE_RESCUE; lia).
  assert (Hs2' : GameState.astronautsRescued (Game.state g2) = rescued
                 /\ GameState.level (Game.state g2) = GameState.level (Game.state g)).
  { rewrite Hs2, Hs1. split; reflexivity. }
  destruct Hs2' as [Hr2 Hl2].
  destruct (Z.rem rescued Config.ASTRONAUTS_PER_LEVEL =? 0)%Z eqn:Erem.
  - apply rem_divide_5 in Erem.
    destruct (set_plain GameState.k_level
                (GameState.level (Game.state g2) + 1)%Z g2 Hw2)
      as (Hw3 & Hb3 & Hm3 & Hs3); [vm_compute; reflexivity|].
    set (g3 := Game.GameStateManager.set GameState.k_level _ g2) in *.
    simpl in Hs3.
    replace (GameState.level (Game.state g2)
             =? GameState.level (Game.state g2) + 1)%Z
      with false in Hs3 by (symmetry; apply Z.eqb_neq; lia).
    rewrite notify_levelUp_wired by exact Hw3. cbv zeta.
    rewrite state_uiCall, state_createMeteors, state_record.
    rewrite meteorBatches_uiCall, meteorBatches_createMeteors,
      meteorBatches_record.
    rewrite meteors_uiCall, !createMeteors_length, state_record.
    rewrite Hs3. cbn [GameState.write GameState.k_level GameState.level
                      GameState.astronautsRescued].
    split; [exact Hr2|]. split.
    + intros _. split; [rewrite Hl2; reflexivity|].
      split; [rewrite Hb3, Hb2, Hb1; reflexivity|].
      rewrite Hl2. unfold Config.METEOR_COUNT, Config.METEORS_PER_LEVEL. lia.
    + intros Hn. contradiction.
  - assert (Hn : ~ (Config.ASTRONAUTS_PER_LEVEL | rescued)%Z).
    { intros Hd. apply rem_divide_5 in Hd. congruence. }
    split; [exact Hr2|]. split; [intros Hd; contradiction|].
    intros _. split; [exact Hl2|]. split.
    + rewrite Hb2, Hb1. reflexivity.
    + rewrite Hm2, Hm1. reflexivity.
Qed.

(** Witness of [rescueAstronaut_level_up] (scenario D): the fifth rescue at
    level 1 raises the level to 2 and regenerates a batch of 31 meteors, three
    more than the 28 of level 1. *)
Lemma rescueAstronaut_level_up_witness :
  let g := midGame 4 1 3 100 in
  let g' := Game.GameStateManager.rescueAstronaut g in
  wired g
  /\ length (Game.meteors g) = 28%nat
  /\ GameState.astronautsRescued (Game.state g') = 5%Z
  /\ GameState.level (Game.state g') = 2%Z
  /\ Game.meteorBatches g' = S (Game.meteorBatches g)
  /\ length (Game.meteors g') = 31%nat.
Proof.
  cbv zeta.
  assert (Hw : wired (midGame 4 1 3 100)) by (vm_compute; reflexivity).
  destruct (rescueAstronaut_level_up (midGame 4 1 3 100) Hw) as (Hr & Hup & _);
    [vm_compute; discriminate|].
  destruct Hup as (Hl & Hb & Hm); [exists 1%Z; vm_compute; reflexivity|].
  split; [exact Hw|]. split; [vm_compute; reflexivity|].
  split; [rewrite Hr; vm_compute; reflexivity|].
  split; [rewrite Hl; vm_compute; reflexivity|].
  split; [exact Hb|]. rewrite Hm. vm_compute. reflexivity.
Defined.

(** ** Life loss *)

Lemma gameLoop_checks t g :
  simulated (phaseOf g) = true ->
  Game.gameLoop t g = Game.checkCollisions (beforeChecks t g).
Proof.
  unfold Game.gameLoop, beforeChecks, phaseOf. cbv zeta.
  change (Game.get GameState.k_phase (Game.with_lastTime t g))
    with (GameState.phase (Game.state g)).
  destruct (GameState.phase (Game.state g)); simpl; intros H;
    try discriminate; reflexivity.
Qed.

(** With one life left, [Game.loseLife] ends the game: the lives drop to
    zero, the phase becomes GameOver and no timer is added. *)
Lemma loseLife_last g :
  livesOf g = 1%Z ->
  let g' := Game.loseLife g in
  livesOf g' = 0%Z /\ phaseOf g' = Config.GAME_OVER
  /\ Game.timers g' = Game.timers g.
Proof.
  intros Hl. unfold Game.loseLife. cbv zeta.
  set (g1 := match Game.lander (Game.play "explosion" g) with
             | Some l => Game.createExplosion (Lander.pos l) (Game.play "explosion" g)
             | None => Game.play "explosion" g
             end).
  assert (H1 : Game.state g1 = Game.state g /\ Game.timers g1 = Game.timers g).
  { subst g1. destruct (Game.lander _); split; reflexivity. }
  destruct H1 as [Hs1 Ht1].
  unfold Game.GameStateManager.loseLife. cbv zeta.
  assert (Hnew : (GameState.lives (Game.state g1) - 1 = 0)%Z).
  { rewrite Hs1. unfold livesOf in Hl. rewrite Hl. reflexivity. }
  rewrite Hnew. simpl negb. cbv iota.
  unfold Game.gameOver.
  set (g2 := Game.GameStateManager.set GameState.k_lives 0%Z g1).
  set (g3 := Game.GameStateManager.set GameState.k_phase Config.GAME_OVER g2).
  assert (Hs2 : Game.state g2 = GameState.write GameState.k_lives 0%Z (Game.state g)).
  { subst g2. rewrite state_set, Hs1. simpl. unfold livesOf in Hl.
    rewrite Hl. reflexivity. }
  assert (Hs3 : livesOf g3 = 0%Z /\ phaseOf g3 = Config.GAME_OVER).
  { unfold livesOf, phaseOf. subst g3. rewrite state_set, Hs2. simpl.
    destruct (Config.phase_eqb _ Config.GAME_OVER) eqn:E; simpl.
    - apply phase_eqb_eq in E. auto.
    - auto. }
  destruct Hs3 as [Hlives Hphase].
  split; [exact Hlives|]. split; [exact Hphase|].
  change (Game.timers g3 = Game.timers g).
  subst g3 g2. rewrite !timers_set. exact Ht1.
Qed.

Lemma checkCollisions_hit g l m events :
  collisionsChecked (phaseOf g) = true ->
  Game.lander g = Some l ->
  CollisionSystem.checkLanderMeteorCollision l (Game.meteors g) = (Some m, events) ->
  Game.checkCollisions g = Game.loseLife (Game.dispatch events g).
Proof.
  intros Hp Hl Hc. unfold Game.checkCollisions. cbv zeta.
  unfold phaseOf in Hp. change (Game.get GameState.k_phase g)
    with (GameState.phase (Game.state g)).
  destruct (GameState.phase (Game.state g)); try discriminate;
    rewrite Hl, Hc; reflexivity.
Qed.

(** A projection of the game that the per-frame updates leave alone. *)
Section UpdatesFrame.
Context {A : Type} (proj : Game.t -> A).
Hypothesis Hcb :
  forall cb g, proj (Game.GameStateManager.run_callback cb g) = proj g.
Hypothesis Hrec :
  forall n g, proj (Game.GameStateManager.record n g) = proj g.
Hypothesis Hst :
  forall s g, proj (Game.GameStateManager.with_state s g) = proj g.
Hypothesis Hlander : forall x g, proj (Game.with_lander x g) = proj g.
Hypothesis Hcursor : forall x g, proj (Game.with_cursor x g) = proj g.
Hypothesis Haudio : forall x g, proj (Game.with_audio x g) = proj g.
Hypothesis Hastronaut : forall x g, proj (Game.with_astronaut x g) = proj g.
Hypothesis Hmeteors : forall x g, proj (Game.with_meteors x g) = proj g.
Hypothesis Hbullets : forall x g, proj (Game.with_bullets x g) = proj g.
Hypothesis Hexplosions : forall x g, proj (Game.with_explosions x g) = proj g.
Hypothesis HlastTime : forall x g, proj (Game.with_lastTime x g) = proj g.

Local Ltac frame :=
  repeat first
    [ rewrite Hlander | rewrite Hcursor | rewrite Haudio | rewrite Hastronaut
    | rewrite Hmeteors | rewrite Hbullets | rewrite Hexplosions
    | rewrite HlastTime
    | rewrite (set_frame proj Hcb Hrec Hst) ].

Local Ltac case_if :=
  match goal with
  | |- context [if ?b then _ else _] => destruct b
  end.

Local Ltac split_fuel :=
  match goal with
  | |- context [Game.GameStateManager.consumeFuel ?a ?g0] =>
      let H := fresh "H" in
      pose proof (consumeFuel_frame proj Hcb Hrec Hst a g0) as H;
      destruct (Game.GameStateManager.consumeFuel a g0); cbn [snd] in H
  end.

Lemma updateDescentPhase_frame dt g :
  proj (Game.updateDescentPhase dt g) = proj g.
Proof.
  unfold Game.updateDescentPhase, Game.on_lander, Game.Math_random, Game.play.
  cbv zeta.
  repeat first [ case_if | split_fuel ];
    frame; try reflexivity;
    match goal with H : proj _ = _ |- _ => rewrite H end; frame; reflexivity.
Qed.

Lemma updateAscentPhase_frame dt g :
  proj (Game.updateAscentPhase dt g) = proj g.
Proof.
  unfold Game.updateAscentPhase, Game.on_lander. cbv zeta.
  repeat first [ case_if | split_fuel ];
    frame; try reflexivity;
    match goal with H : proj _ = _ |- _ => rewrite H end; frame; reflexivity.
Qed.

Lemma updateLander_frame dt g :
  proj (Game.updateLander dt g) = proj g.
Proof.
  unfold Game.updateLander.
  destruct (Game.lander g) as [l|]; [|reflexivity].
  destruct (negb _); [reflexivity|].
  unfold Game.on_lander. frame.
  destruct (Game.get GameState.k_phase g);
    auto using updateDescentPhase_frame, updateAscentPhase_frame.
Qed.

Lemma updateAstronaut_frame dt g :
  proj (Game.updateAstronaut dt g) = proj g.
Proof.
  unfold Game.updateAstronaut, Game.on_lander, Game.play.
  destruct (Game.astronaut g) as [a|]; [|reflexivity].
  destruct (Game.lander g) as [l|]; [|reflexivity].
  destruct (negb _); [reflexivity|].
  destruct (Astronaut.update dt (Lander.pos l) a) as [isAboard a'].
  cbv zeta.
  repeat case_if; frame; reflexivity.
Qed.

Lemma beforeChecks_frame t g : proj (beforeChecks t g) = proj g.
Proof.
  unfold beforeChecks, Game.updateExplosions, Game.updateBullets,
    Game.updateMeteors. cbv zeta.
  frame. rewrite updateAstronaut_frame. frame.
  rewrite updateLander_frame. frame. reflexivity.
Qed.
End UpdatesFrame.

Lemma timers_beforeChecks t g :
  Game.timers (beforeChecks t g) = Game.timers g.
Proof.
  apply beforeChecks_frame; try reflexivity. intros []; reflexivity.
Qed.

Lemma timers_dispatch events g :
  Game.timers (Game.dispatch events g) = Game.timers g.
Proof. reflexivity. Qed.

(** C8. In a frame that finds the lander on a meteor while one life is left,
    the life loss brings the lives to zero and the phase to GameOver within
    that frame, and the frame schedules no timer: the deferred reset is not
    set up. *)
Theorem last_life_collision_is_game_over t g l m events :
  simulated (phaseOf g) = true ->
  collisionsChecked (phaseOf (beforeChecks t g)) = true ->
  Game.lander (beforeChecks t g) = Some l ->
  CollisionSystem.checkLanderMeteorCollision l (Game.meteors (beforeChecks t g))
  = (Some m, events) ->
  livesOf (beforeChecks t g) = 1%Z ->
  let g' := Game.gameLoop t g in
  livesOf g' = 0%Z
  /\ phaseOf g' = Config.GAME_OVER
  /\ Game.timers g' = Game.timers g.
Proof.
  intros Hsim Hchk Hl Hc Hlives g'. subst g'.
  rewrite gameLoop_checks by exact Hsim.
  rewrite (checkCollisions_hit _ l m events Hchk Hl Hc).
  destruct (loseLife_last (Game.dispatch events (beforeChecks t g)) Hlives)
    as (H0 & Hp & Ht).
  split; [exact H0|]. split; [exact Hp|].
  rewrite Ht, timers_dispatch. apply timers_beforeChecks.
Qed.

(** Witness of [last_life_collision_is_game_over]: the last life, the lander
    two units above the meteors of a fresh batch. *)
Lemma last_life_collision_is_game_over_witness :
  let g := Game.on_lander (Lander.set_y (-2)) (midGame 0 1 1 100) in
  livesOf (beforeChecks 0 g) = 1%Z
  /\ livesOf (Game.gameLoop 0 g) = 0%Z
  /\ phaseOf (Game.gameLoop 0 g) = Config.GAME_OVER
  /\ Game.timers (Game.gameLoop 0 g) = [].
Proof.
  cbv zeta.
  set (g := Game.on_lander (Lander.set_y (-2)) (midGame 0 1 1 100)).
  destruct (Game.lander (beforeChecks 0 g)) as [l|] eqn:Hl;
    [|vm_compute in Hl; discriminate].
  destruct (CollisionSystem.checkLanderMeteorCollision
              l (Game.meteors (beforeChecks 0 g))) as [[m|] events] eqn:Hc;
    [|vm_compute in Hl; injection Hl as <-; vm_compute in Hc; discriminate].
  assert (Hlives : livesOf (beforeChecks 0 g) = 1%Z) by (vm_compute; reflexivity).
  destruct (last_life_collision_is_game_over 0 g l m events
              ltac:(vm_compute; reflexivity) ltac:(vm_compute; reflexivity)
              Hl Hc Hlives) as (H0 & Hp & Ht).
  split; [exact Hlives|]. split; [exact H0|]. split; [exact Hp|].
  rewrite Ht. vm_compute. reflexivity.
Defined.

(** ** The boundary check *)

Lemma clampPosition_in_bounds l :
  Lander.isOutOfBounds (Lander.clampPosition l) = false.
Proof.
  unfold Lander.isOutOfBounds, Lander.clampPosition. cbv zeta.
  set (hw := Config.GAME_WIDTH / 2 - 1).
  assert (Hhw : - hw <= hw) by (apply Qle_bool_iff; reflexivity).
  change (vx (Lander.pos (Lander.set_x ?x l))) with x.
  apply orb_false_iff. split; apply Qltb_ge.
  - apply Q.le_max_l.
  - apply Q.max_lub; [exact Hhw|apply Q.le_min_l].
Qed.

(** After [Lander.update] an active lander is never out of bounds: the
    position is clamped at the end of the update. *)
Lemma update_in_bounds dt l :
  active (Lander.entity l) = true ->
  Lander.isOutOfBounds (Lander.update dt l) = false.
Proof.
  intros Ha. unfold Lander.update. rewrite Ha. simpl negb. cbv iota zeta.
  apply clampPosition_in_bounds.
Qed.

Local Ltac case_if :=
  match goal with
  | |- context [if ?b then _ else _] => destruct b
  end.

Local Ltac split_fuel_lander :=
  match goal with
  | |- context [Game.GameStateManager.consumeFuel ?a ?g0] =>
      let H := fresh "H" in
      pose proof (lander_consumeFuel a g0) as H;
      destruct (Game.GameStateManager.consumeFuel a g0); cbn [snd] in H
  end.

Lemma updateDescentPhase_active dt g :
  landerActive (Game.updateDescentPhase dt g) = landerActive g.
Proof.
  unfold Game.updateDescentPhase, Game.Math_random, Game.play. cbv zeta.
  repeat first [ case_if | split_fuel_lander ];
    unfold landerActive; rewrite ?lander_on_lander;
    cbn [Game.lander Game.with_audio Game.with_cursor];
    rewrite ?lander_on_lander;
    try match goal with H : Game.lander _ = _ |- _ => rewrite H end;
    rewrite ?lander_on_lander;
    destruct (Game.lander g); reflexivity.
Qed.

Lemma updateAscentPhase_active dt g :
  landerActive (Game.updateAscentPhase dt g) = landerActive g.
Proof.
  unfold Game.updateAscentPhase. cbv zeta.
  repeat first [ case_if | split_fuel_lander ];
    unfold landerActive; rewrite ?lander_on_lander;
    try match goal with H : Game.lander _ = _ |- _ => rewrite H end;
    rewrite ?lander_on_lander;
    destruct (Game.lander g); reflexivity.
Qed.

(** Whenever [updateLander] moves the lander, the boundary query that
    follows in the frame answers no and dispatches nothing. *)
Lemma updateLander_in_bounds dt g l' :
  landerActive g = true ->
  Game.lander (Game.updateLander dt g) = Some l' ->
  CollisionSystem.checkBoundaryCollision l' = (false, []).
Proof.
  intros Ha Hl'. unfold Game.updateLander in Hl'.
  unfold landerActive in Ha.
  destruct (Game.lander g) as [l|] eqn:Hl; [|discriminate].
  rewrite Ha in Hl'. simpl negb in Hl'. cbv iota in Hl'.
  rewrite lander_on_lander in Hl'.
  set (g1 := match Game.get GameState.k_phase g with
             | Config.DESCENT => Game.updateDescentPhase dt g
             | Config.ASCENT => Game.updateAscentPhase dt g
             | _ => g
             end) in *.
  assert (Hact : landerActive g1 = true).
  { subst g1. destruct (Game.get GameState.k_phase g);
      rewrite ?updateDescentPhase_active, ?updateAscentPhase_active;
      unfold landerActive; rewrite Hl; exact Ha. }
  unfold landerActive in Hact.
  destruct (Game.lander g1) as [l1|]; [|discriminate].
  injection Hl' as <-.
  unfold CollisionSystem.checkBoundaryCollision.
  rewrite update_in_bounds by exact Hact. reflexivity.
Qed.

(** C3 on the code.  The claim, and the repository's description of the game
    ("colliding with meteors, the ground, or screen edges costs a life"), say
    that a frame whose movement takes the craft outside the play extent
    costs a life.  Here the lander stands at the right edge ([x = 19]) with
    the right key held, three lives, no meteor near.  The movement of the
    frame takes it to [19.3]; [Lander.update] clamps it back to [19] before
    [checkCollisions] runs, so the frame dispatches no boundary collision,
    takes no life and schedules no reset. *)
Theorem boundary_check_sees_clamped_position :
  landerX atRightEdge == 19
  /\ phaseOf atRightEdge = Config.DESCENT
  /\ preClampX 0.016 atRightEdge == 19.3
  /\ landerX (Game.gameLoop 0 atRightEdge) == 19
  /\ Game.collisionEvents (Game.gameLoop 0 atRightEdge) = []
  /\ livesOf (Game.gameLoop 0 atRightEdge) = livesOf atRightEdge
  /\ Game.timers (Game.gameLoop 0 atRightEdge) = []
  /\ phaseOf (Game.gameLoop 0 atRightEdge) = Config.DESCENT.
Proof.
  do 7 (split; [vm_compute; reflexivity|]). vm_compute. reflexivity.
Qed.

(** ** Collision queries and the active flag *)

Lemma landerMeteorLoop_filter l ms :
  CollisionSystem.landerMeteorLoop l ms
  = CollisionSystem.landerMeteorLoop l (List.filter meteorActive ms).
Proof.
  induction ms as [|m ms IH]; simpl; [reflexivity|].
  unfold meteorActive at 1.
  destruct (active (Meteor.entity m)) eqn:E; simpl; rewrite ?E; simpl.
  - rewrite IH. reflexivity.
  - exact IH.
Qed.

Lemma landerMeteorLoop_Some l ms m events :
  CollisionSystem.landerMeteorLoop l ms = (Some m, events) ->
  m ∈ ms /\ meteorActive m = true
  /\ EntityOps.collidesWith (Lander.entity l) (Meteor.entity m) = true.
Proof.
  induction ms as [|m0 ms IH]; simpl; [discriminate|].
  destruct (active (Meteor.entity m0)) eqn:E; simpl.
  - destruct (EntityOps.collidesWith (Lander.entity l) (Meteor.entity m0)) eqn:Ec.
    + intros H. inversion H; subst. split; [left|]. split; assumption.
    + intros H. destruct (IH H) as (? & ? & ?). split; [right; assumption|].
      split; assumption.
  - intros H. destruct (IH H) as (? & ? & ?). split; [right; assumption|].
    split; assumption.
Qed.

Lemma bulletMeteorLoop_filter b ms :
  CollisionSystem.bulletMeteorLoop b ms
  = CollisionSystem.bulletMeteorLoop b (List.filter meteorActive ms).
Proof.
  induction ms as [|m ms IH]; simpl; [reflexivity|].
  unfold meteorActive at 1.
  destruct (active (Meteor.entity m)) eqn:E; simpl; rewrite ?E; simpl;
    rewrite IH; reflexivity.
Qed.

Lemma bulletMeteorLoop_elem b ms b' m :
  (b', m) ∈ fst (CollisionSystem.bulletMeteorLoop b ms) ->
  b' = b /\ m ∈ ms /\ meteorActive m = true.
Proof.
  induction ms as [|m0 ms IH]; simpl; [intros H; inversion H|].
  destruct (active (Meteor.entity m0)) eqn:E; simpl.
  - destruct (EntityOps.collidesWith (Bullet.entity b) (Meteor.entity m0)).
    + destruct (CollisionSystem.bulletMeteorLoop b ms) as [cs es]. simpl in *.
      intros H. apply elem_of_cons in H. destruct H as [H|H].
      * injection H as -> ->. split; [reflexivity|]. split; [left|exact E].
      * destruct (IH H) as (? & ? & ?). split; [assumption|].
        split; [right; assumption|assumption].
    + intros H. destruct (IH H) as (? & ? & ?). split; [assumption|].
      split; [right; assumption|assumption].
  - intros H. destruct (IH H) as (? & ? & ?). split; [assumption|].
    split; [right; assumption|assumption].
Qed.

Lemma checkBulletMeteorCollisions_filter bs ms :
  CollisionSystem.checkBulletMeteorCollisions bs ms
  = CollisionSystem.checkBulletMeteorCollisions
      (List.filter bulletActive bs) (List.filter meteorActive ms).
Proof.
  induction bs as [|b bs IH]; simpl; [reflexivity|].
  unfold bulletActive at 1.
  destruct (active (Bullet.entity b)) eqn:E; simpl; rewrite ?E; simpl.
  - rewrite IH, bulletMeteorLoop_filter. reflexivity.
  - rewrite IH. reflexivity.
Qed.

Lemma checkBulletMeteorCollisions_elem bs ms b m :
  (b, m) ∈ fst (CollisionSystem.checkBulletMeteorCollisions bs ms) ->
  b ∈ bs /\ bulletActive b = true /\ m ∈ ms /\ meteorActive m = true.
Proof.
  induction bs as [|b0 bs IH]; simpl; [intros H; inversion H|].
  destruct (active (Bullet.entity b0)) eqn:E; simpl.
  - pose proof (bulletMeteorLoop_elem b0 ms b m) as Hb.
    destruct (CollisionSystem.bulletMeteorLoop b0 ms) as [cs es].
    destruct (CollisionSystem.checkBulletMeteorCollisions bs ms) as [later le].
    simpl in *. intros H. apply elem_of_app in H. destruct H as [H|H].
    + destruct (Hb H) as (-> & ? & ?). split; [left|]. repeat split; assumption.
    + destruct (IH H) as (? & ? & ? & ?). split; [right; assumption|].
      repeat split; assumption.
  - intros H. destruct (IH H) as (? & ? & ? & ?). split; [right; assumption|].
    repeat split; assumption.
Qed.

(** An inactive entry of a pool counts as much as an absent one. *)
Lemma filter_deactivated {A : Type} (p : A -> bool) (l : list A) i x y :
  l !! i = Some x -> p y = false ->
  List.filter p (<[i := y]> l) = List.filter p (delete i l).
Proof.
  revert i. induction l as [|a l IH]; intros [|i] Hx Hy; simpl in *;
    try discriminate.
  - rewrite Hy. reflexivity.
  - rewrite (IH i Hx Hy). reflexivity.
Qed.

(** C2, for the two pool queries.  [checkLanderMeteorCollision] and
    [checkBulletMeteorCollisions] exclude inactive entities: an inactive
    lander hits nothing; a meteor or bullet that a result names is a member
    of its pool and is active; and a pool in which an obstacle (or a
    projectile) has been deactivated gives the same results and dispatches
    the same events as the pool without it. *)
Theorem pool_queries_exclude_inactive
    (l : Lander.t) (bs : list Bullet.t) (ms : list Meteor.t) :
  (active (Lander.entity l) = false ->
   CollisionSystem.checkLanderMeteorCollision l ms = (None, []))
  /\ (forall m events,
        CollisionSystem.checkLanderMeteorCollision l ms = (Some m, events) ->
        active (Lander.entity l) = true /\ m ∈ ms /\ meteorActive m = true)
  /\ (forall b m,
        (b, m) ∈ fst (CollisionSystem.checkBulletMeteorCollisions bs ms) ->
        b ∈ bs /\ bulletActive b = true /\ m ∈ ms /\ meteorActive m = true)
  /\ (forall i m,
        ms !! i = Some m ->
        CollisionSystem.checkLanderMeteorCollision l (<[i := deactivateMeteor m]> ms)
        = CollisionSystem.checkLanderMeteorCollision l (delete i ms)
        /\ CollisionSystem.checkBulletMeteorCollisions bs (<[i := deactivateMeteor m]> ms)
           = CollisionSystem.checkBulletMeteorCollisions bs (delete i ms))
  /\ (forall j b,
        bs !! j = Some b ->
        CollisionSystem.checkBulletMeteorCollisions (<[j := deactivateBullet b]> bs) ms
        = CollisionSystem.checkBulletMeteorCollisions (delete j bs) ms).
Proof.
  split; [|split; [|split; [|split]]].
  - intros Ha. unfold CollisionSystem.checkLanderMeteorCollision.
    rewrite Ha. reflexivity.
  - intros m events. unfold CollisionSystem.checkLanderMeteorCollision.
    destruct (active (Lander.entity l)); simpl; [|discriminate].
    intros H. apply landerMeteorLoop_Some in H. destruct H as (? & ? & _).
    repeat split; assumption.
  - intros b m. apply checkBulletMeteorCollisions_elem.
  - intros i m Hm.
    assert (Hf : List.filter meteorActive (<[i := deactivateMeteor m]> ms)
                 = List.filter meteorActive (delete i ms))
      by (apply (filter_deactivated _ _ _ m); [exact Hm|reflexivity]).
    split.
    + unfold CollisionSystem.checkLanderMeteorCollision.
      destruct (negb _); [reflexivity|].
      rewrite landerMeteorLoop_filter, Hf, <- landerMeteorLoop_filter.
      reflexivity.
    + rewrite checkBulletMeteorCollisions_filter, Hf,
        <- checkBulletMeteorCollisions_filter.
      reflexivity.
  - intros j b Hb.
    rewrite checkBulletMeteorCollisions_filter.
    rewrite (filter_deactivated bulletActive bs j b) by (exact Hb || reflexivity).
    rewrite <- checkBulletMeteorCollisions_filter. reflexivity.
Qed.

(** Witness of [pool_queries_exclude_inactive]: the lander touches two
    meteors; the query names the first, and the second once the first is
    deactivated. *)
Lemma pool_queries_exclude_inactive_witness :
  let l := Lander.new 0 in
  let ms := [meteorAt 1 0.5 0; meteorAt 2 0 0.5] in
  fst (CollisionSystem.checkLanderMeteorCollision l ms) = Some (meteorAt 1 0.5 0)
  /\ fst (CollisionSystem.checkLanderMeteorCollision
            l (<[0%nat := deactivateMeteor (meteorAt 1 0.5 0)]> ms))
     = Some (meteorAt 2 0 0.5).
Proof.
  cbv zeta. split; [vm_compute; reflexivity|].
  destruct (pool_queries_exclude_inactive
              (Lander.new 0) [] [meteorAt 1 0.5 0; meteorAt 2 0 0.5])
    as (_ & _ & _ & H & _).
  destruct (H 0%nat (meteorAt 1 0.5 0) eq_refl) as [Hq _].
  rewrite Hq. vm_compute. reflexivity.
Defined.

(** C2, as stated, fails for the positional queries, which never read an
    active flag: an inactive lander beyond the right edge makes
    [checkBoundaryCollision] report a hit, and an inactive lander on the
    ground between two pads makes [checkGroundCollision] report one. *)
Lemma positional_queries_ignore_active_flag :
  let outside := deactivateLander (Lander.set_x 20 (Lander.new 0)) in
  let crashed :=
    deactivateLander (Lander.set_y (-28) (Lander.set_x 5 (Lander.new 0))) in
  let pads := Game.landingPads (Game.new (fun _ => 0)) in
  active (Lander.entity outside) = false
  /\ fst (CollisionSystem.checkBoundaryCollision outside) = true
  /\ active (Lander.entity crashed) = false
  /\ fst (CollisionSystem.checkGroundCollision crashed pads) = true.
Proof.
  cbv zeta. do 3 (split; [vm_compute; reflexivity|]). vm_compute. reflexivity.
Qed.

(** ** The flagship transform *)

Lemma Qabs_neg1 x : Qabs (x * -1) == Qabs x.
Proof. rewrite Qabs_Qmult. change (Qabs (-1)) with 1. ring. Qed.

(** A flagship stays one: an update changes neither the flag, the points,
    the radius, the flash timer nor the horizontal speed. *)
Lemma update_flagship dt scene m :
  Meteor.isFlagship m = true ->
  let m' := Meteor.update dt scene m in
  Meteor.isFlagship m' = true
  /\ Meteor.points m' = Meteor.points m
  /\ meteorRadius m' = meteorRadius m
  /\ Meteor.flashTimer m' = Meteor.flashTimer m
  /\ Meteor.drawable m' = Meteor.drawable m
  /\ meteorSpeedX m' == meteorSpeedX m.
Proof.
  intros Hf. unfold Meteor.update.
  destruct (negb (active (Meteor.entity m))).
  { cbv zeta. repeat split; try assumption; reflexivity. }
  cbv zeta.
  repeat match goal with
         | |- context [if Qltb ?a ?b then _ else _] => destruct (Qltb a b)
         | |- context [if ?a || ?b then _ else _] => destruct (a || b)
         end;
    cbn [Meteor.willBecomeFlagship Meteor.isFlagship Meteor.set_x Meteor.set_y
         Meteor.set_vx Meteor.on_entity Meteor.with_entity];
    rewrite Hf; rewrite andb_false_r; cbn [andb];
    (split; [exact Hf|]); (do 4 (split; [reflexivity|]));
    unfold meteorSpeedX; simpl; try reflexivity; apply Qabs_neg1.
Qed.

Lemma meteorUpdates_flagship calls m :
  Meteor.isFlagship m = true ->
  let m' := meteorUpdates calls m in
  Meteor.isFlagship m' = true
  /\ Meteor.points m' = Meteor.points m
  /\ meteorRadius m' = meteorRadius m
  /\ Meteor.flashTimer m' = Meteor.flashTimer m
  /\ Meteor.drawable m' = Meteor.drawable m
  /\ meteorSpeedX m' == meteorSpeedX m.
Proof.
  revert m. induction calls as [|[dt scene] calls IH]; intros m Hf; simpl.
  - repeat split; try assumption; reflexivity.
  - destruct (update_flagship dt scene m Hf) as (Hf1 & Hp1 & Hr1 & Ht1 & Hd1 & Hs1).
    destruct (IH _ Hf1) as (Hf2 & Hp2 & Hr2 & Ht2 & Hd2 & Hs2).
    unfold meteorUpdates in *. simpl.
    split; [exact Hf2|]. split; [congruence|]. split; [congruence|].
    split; [congruence|]. split; [congruence|].
    rewrite Hs2. exact Hs1.
Qed.

(** The update in which the flash timer passes the threshold. *)
Lemma update_transforms dt m :
  active (Meteor.entity m) = true ->
  Meteor.willBecomeFlagship m = true ->
  Meteor.isFlagship m = false ->
  Config.FLAGSHIP_FLASH_DURATION < Meteor.flashTimer m + 0.05 ->
  let m' := Meteor.update dt true m in
  Meteor.isFlagship m' = true
  /\ Meteor.points m' = Config.SCORE_FLAGSHIP
  /\ Meteor.drawable m' = Meteor.FlagshipGroup
  /\ meteorRadius m' = 1.2
  /\ meteorSpeedX m' == 2 * meteorSpeedX m
  /\ Meteor.pos m' = Meteor.pos (Meteor.update dt false m).
Proof.
  intros Ha Hw Hf Ht. apply Qltb_lt in Ht.
  unfold Meteor.update. rewrite Ha. simpl negb. cbv iota zeta.
  repeat match goal with
         | |- context [if Qltb ?a ?b then _ else _] =>
             lazymatch a with
             | Config.FLAGSHIP_FLASH_DURATION => fail
             | _ => destruct (Qltb a b)
             end
         | |- context [if ?a || ?b then _ else _] => destruct (a || b)
         end;
    cbn [Meteor.willBecomeFlagship Meteor.isFlagship Meteor.set_x Meteor.set_y
         Meteor.set_vx Meteor.on_entity Meteor.with_entity
         Meteor.with_flashTimer Meteor.flashTimer];
    rewrite Hw, Hf; cbn [andb negb]; rewrite Ht;
    (do 4 (split; [reflexivity|])); (split; [|reflexivity]);
    unfold meteorSpeedX;
    cbn -[Qabs Qmult Qplus Qminus Qdiv Qopp Qeq];
    rewrite !Qabs_Qmult;
    change (Qabs 2) with 2; change (Qabs (-1)) with 1;
    unfold Meteor.vel; ring.
Qed.

(** The radius of a new meteor is its scale, [0.5] plus the third draw. *)
Lemma new_radius r level rnd k :
  meteorRadius (Meteor.new r level rnd k) == 0.5 + rnd (k + 2)%nat.
Proof. unfold meteorRadius. simpl. ring. Qed.

(** C7, as the code has it.  When the flash timer of an eligible,
    untransformed obstacle passes [FLAGSHIP_FLASH_DURATION], the update
    transforms it where it stands: the flag is set, the points are
    [SCORE_FLAGSHIP], the horizontal speed is doubled and the collision
    radius becomes [1.2], which is larger than the radius before exactly when
    that was below [1.2].  On every later sequence of updates the flag, the
    points and the radius stay, and the speed is not doubled again. *)
Theorem flagship_transform dt m calls :
  active (Meteor.entity m) = true ->
  Meteor.willBecomeFlagship m = true ->
  Meteor.isFlagship m = false ->
  Config.FLAGSHIP_FLASH_DURATION < Meteor.flashTimer m + 0.05 ->
  let m' := Meteor.update dt true m in
  let m'' := meteorUpdates calls m' in
  (Meteor.isFlagship m' = true
   /\ Meteor.points m' = Config.SCORE_FLAGSHIP
   /\ meteorSpeedX m' == 2 * meteorSpeedX m
   /\ meteorRadius m' = 1.2
   /\ (meteorRadius m < meteorRadius m' <-> meteorRadius m < 1.2)
   /\ Meteor.pos m' = Meteor.pos (Meteor.update dt false m))
  /\ (Meteor.isFlagship m'' = true
      /\ Meteor.points m'' = Config.SCORE_FLAGSHIP
      /\ meteorRadius m'' = 1.2
      /\ meteorSpeedX m'' == 2 * meteorSpeedX m).
Proof.
  intros Ha Hw Hf Ht m' m''.
  destruct (update_transforms dt m Ha Hw Hf Ht) as (Hf' & Hp' & _ & Hr' & Hs' & Hpos').
  fold m' in Hf', Hp', Hr', Hs', Hpos'.
  destruct (meteorUpdates_flagship calls m' Hf') as (Hf2 & Hp2 & Hr2 & _ & _ & Hs2).
  fold m'' in Hf2, Hp2, Hr2, Hs2.
  split.
  - split; [exact Hf'|]. split; [exact Hp'|]. split; [exact Hs'|].
    split; [exact Hr'|]. split; [rewrite Hr'; reflexivity|exact Hpos'].
  - split; [exact Hf2|]. split; [congruence|]. split; [congruence|].
    rewrite Hs2. exact Hs'.
Qed.

(** Witness of [flagship_transform]: a meteor created with scale [0.7], in
    the frame that takes its flash timer past the threshold, and three frames
    later. *)
Lemma flagship_transform_witness :
  let m := aboutToTransform 0.2 in
  let m' := Meteor.update 0.016 true m in
  Meteor.isFlagship m = false
  /\ meteorRadius m == 0.7
  /\ Meteor.isFlagship m' = true
  /\ meteorRadius m < meteorRadius m'
  /\ Meteor.isFlagship
       (meteorUpdates [(0.016, true); (0.016, true); (0.016, false)] m') = true.
Proof.
  cbv zeta.
  assert (Hf : Meteor.isFlagship (aboutToTransform 0.2) = false)
    by (vm_compute; reflexivity).
  assert (Hr : meteorRadius (aboutToTransform 0.2) == 0.7)
    by (vm_compute; reflexivity).
  destruct (flagship_transform 0.016 (aboutToTransform 0.2)
              [(0.016, true); (0.016, true); (0.016, false)]
              ltac:(vm_compute; reflexivity) ltac:(vm_compute; reflexivity) Hf
              ltac:(vm_compute; reflexivity))
    as ((Hf' & _ & _ & _ & Hlt & _) & (Hf2 & _)).
  split; [exact Hf|]. split; [exact Hr|]. split; [exact Hf'|].
  split; [|exact Hf2].
  apply Hlt. rewrite Hr. reflexivity.
Defined.

(** C7, as stated, fails on the radius: a meteor created with scale [1.3]
    (scale draw [0.8]) is eligible and untransformed after sixty frames, the
    next update transforms it, and its radius goes down from [1.3] to
    [1.2]. *)
Lemma flagship_radius_can_shrink :
  let m := aboutToTransform 0.8 in
  let m' := Meteor.update 0.016 true m in
  active (Meteor.entity m) = true
  /\ Meteor.willBecomeFlagship m = true
  /\ Meteor.isFlagship m = false
  /\ Config.FLAGSHIP_FLASH_DURATION < Meteor.flashTimer m + 0.05
  /\ Meteor.isFlagship m' = true
  /\ meteorRadius m == 1.3
  /\ meteorRadius m' == 1.2
  /\ ~ meteorRadius m < meteorRadius m'.
Proof.
  cbv zeta. do 7 (split; [vm_compute; reflexivity|]).
  intros H. apply Qltb_lt in H. vm_compute in H. discriminate.
Qed.

(** ** The rescue target *)

Lemma update_rank dt p a :
  (rank (Astronaut.state a)
   <= rank (Astronaut.state (snd (Astronaut.update dt p a))))%nat.
Proof.
  unfold Astronaut.update. cbv zeta.
  destruct (negb (active (Astronaut.entity a))); [simpl; lia|].
  destruct (Astronaut.state a) eqn:E;
    repeat match goal with
           | |- context [if ?b then _ else _] => destruct b
           end; simpl; rewrite ?E; simpl; lia.
Qed.

(** An update reports "aboard" only from Boarding, and leaves the astronaut
    Aboard and inactive. *)
Lemma update_true dt p a :
  fst (Astronaut.update dt p a) = true ->
  Astronaut.state a = Astronaut.BOARDING
  /\ astronautActive a = true
  /\ Astronaut.state (snd (Astronaut.update dt p a)) = Astronaut.ABOARD
  /\ astronautActive (snd (Astronaut.update dt p a)) = false.
Proof.
  unfold Astronaut.update, astronautActive. cbv zeta.
  destruct (active (Astronaut.entity a)) eqn:Ea; simpl; [|discriminate].
  destruct (Astronaut.state a) eqn:E;
    repeat match goal with
           | |- context [if ?b then _ else _] => destruct b
           end; simpl; try discriminate.
  intros _. repeat split; reflexivity.
Qed.

(** Once inactive or Aboard, an update returns [false] and changes
    nothing. *)
Lemma update_done dt p a :
  astronautActive a = false \/ Astronaut.state a = Astronaut.ABOARD ->
  Astronaut.update dt p a = (false, a).
Proof.
  unfold Astronaut.update, astronautActive. cbv zeta.
  intros [H|H]; rewrite H; simpl; [reflexivity|].
  destruct (negb _); reflexivity.
Qed.

Lemma astronautUpdates_done calls a :
  astronautActive a = false \/ Astronaut.state a = Astronaut.ABOARD ->
  astronautUpdates calls a = (repeat false (length calls), a).
Proof.
  intros H. induction calls as [|[dt p] calls IH]; simpl; [reflexivity|].
  rewrite (update_done dt p a H), IH. reflexivity.
Qed.

Lemma reports_repeat_false n : reports (repeat false n) = 0%nat.
Proof. induction n; simpl; [reflexivity|exact IHn]. Qed.

Lemma reports_app rs1 rs2 :
  reports (rs1 ++ rs2) = (reports rs1 + reports rs2)%nat.
Proof. apply count_occ_app. Qed.

Lemma astronautUpdates_rank calls a :
  (rank (Astronaut.state a)
   <= rank (Astronaut.state (snd (astronautUpdates calls a))))%nat.
Proof.
  revert a. induction calls as [|[dt p] calls IH]; intros a; simpl; [lia|].
  pose proof (update_rank dt p a) as H1.
  destruct (Astronaut.update dt p a) as [r a1]. simpl in H1.
  pose proof (IH a1) as H2.
  destruct (astronautUpdates calls a1) as [rs a2]. simpl in *. lia.
Qed.

Lemma astronautUpdates_at_most_once calls a :
  (reports (fst (astronautUpdates calls a)) <= 1)%nat.
Proof.
  revert a. induction calls as [|[dt p] calls IH]; intros a; simpl;
    [unfold reports; simpl; lia|].
  pose proof (update_true dt p a) as Ht.
  destruct (Astronaut.update dt p a) as [r a1]. simpl in Ht.
  destruct r.
  - destruct (Ht eq_refl) as (_ & _ & Hs & _).
    rewrite (astronautUpdates_done calls a1) by (right; exact Hs).
    change (S (reports (repeat false (length calls))) <= 1)%nat.
    rewrite reports_repeat_false. lia.
  - pose proof (IH a1) as H2.
    destruct (astronautUpdates calls a1) as [rs a2]. exact H2.
Qed.

Lemma Math_sign_pos q : 0 < q -> Math_sign q = 1.
Proof.
  destruct q as [n d]. unfold Qlt, Math_sign. simpl.
  destruct n; simpl; intros H; try lia; reflexivity.
Qed.

Lemma Math_sign_neg q : q < 0 -> Math_sign q = -1.
Proof.
  destruct q as [n d]. unfold Qlt, Math_sign. simpl.
  destruct n; simpl; intros H; try lia; reflexivity.
Qed.

Lemma Math_sign_zero q : q == 0 -> Math_sign q = 0.
Proof.
  destruct q as [n d]. unfold Qeq, Math_sign. simpl.
  destruct n; simpl; intros H; try lia; reflexivity.
Qed.

Ltac qabs_cases :=
  repeat match goal with
         | |- context [Qabs ?t] =>
             pattern (Qabs t); apply Qabs_case; intros ?
         end.

Lemma approach_step (x lx : Q) :
  0.5 <= Qabs (x + Math_sign (lx - x) * 0.05 - lx) ->
  Qabs (lx - (x + Math_sign (lx - x) * 0.05)) == Qabs (lx - x) - 0.05
  /\ 0.5 <= Qabs (lx - (x + Math_sign (lx - x) * 0.05)).
Proof.
  destruct (Q_dec (lx - x) 0) as [[H|H]|H].
  - rewrite (Math_sign_neg _ H). qabs_cases; intros; split; lra.
  - rewrite (Math_sign_pos _ H). qabs_cases; intros; split; lra.
  - rewrite (Math_sign_zero _ H). qabs_cases; intros; split; lra.
Qed.

(** One update of an approaching astronaut: it returns [false], keeps the
    astronaut active and its scale, and either starts the boarding or leaves
    the astronaut approaching, one step nearer and still half a unit away. *)
Lemma running_step dt p a :
  astronautActive a = true ->
  Astronaut.state a = Astronaut.RUNNING ->
  Astronaut.speed a = 0.05 ->
  let a' := snd (Astronaut.update dt p a) in
  fst (Astronaut.update dt p a) = false
  /\ astronautActive a' = true
  /\ scale (Astronaut.entity a') = scale (Astronaut.entity a)
  /\ Astronaut.speed a' = 0.05
  /\ (Astronaut.state a' = Astronaut.BOARDING
      \/ (Astronaut.state a' = Astronaut.RUNNING
          /\ gap p a' == gap p a - 0.05
          /\ 0.5 <= gap p a')).
Proof.
  intros Ha Hs Hv. unfold astronautActive in Ha.
  unfold Astronaut.update. rewrite Ha, Hs, Hv. simpl negb. cbv iota zeta.
  fold (Astronaut.pos a).
  set (x := vx (Astronaut.pos a)). set (lx := vx p).
  destruct (Qltb _ 0.5) eqn:E; cbn [fst snd].
  - split; [reflexivity|]. split; [exact Ha|]. split; [reflexivity|].
    split; [reflexivity|]. left. reflexivity.
  - split; [reflexivity|]. split; [exact Ha|]. split; [reflexivity|].
    split; [reflexivity|]. right. split; [reflexivity|].
    apply Qltb_ge in E. unfold gap, astronautActive.
    cbn -[Qabs Qmult Qplus Qminus Qdiv Qopp Qeq Qle Math_sign] in E |- *.
    fold (Astronaut.pos a). fold x lx. fold x lx in E.
    apply approach_step. exact E.
Qed.

Lemma astronautUpdates_app calls1 calls2 a :
  astronautUpdates (calls1 ++ calls2) a
  = let '(rs1, a1) := astronautUpdates calls1 a in
    let '(rs2, a2) := astronautUpdates calls2 a1 in
    (rs1 ++ rs2, a2).
Proof.
  revert a. induction calls1 as [|[dt p] calls1 IH]; intros a; simpl.
  - destruct (astronautUpdates calls2 a). reflexivity.
  - destruct (Astronaut.update dt p a) as [r a1]. rewrite IH.
    destruct (astronautUpdates calls1 a1) as [rs1 a2].
    destruct (astronautUpdates calls2 a2). reflexivity.
Qed.

(** An approaching astronaut whose lander stays put starts boarding within
    a number of updates bounded by the distance. *)
Lemma running_reaches dt p n :
  forall a,
    astronautActive a = true ->
    Astronaut.state a = Astronaut.RUNNING ->
    Astronaut.speed a = 0.05 ->
    gap p a < 0.55 + inject_Z (Z.of_nat n) * 0.05 ->
    exists k a',
      astronautUpdates (repeat (dt, p) k) a = (repeat false k, a')
      /\ astronautActive a' = true
      /\ Astronaut.state a' = Astronaut.BOARDING
      /\ scale (Astronaut.entity a') = scale (Astronaut.entity a).
Proof.
  induction n as [|n IH]; intros a Ha Hs Hv Hgap;
    destruct (running_step dt p a Ha Hs Hv) as (Hr & Ha' & Hsc & Hv' & Hcase);
    destruct (Astronaut.update dt p a) as [r a1] eqn:Eu; cbn [fst snd] in *;
    subst r.
  - destruct Hcase as [Hb|(_ & Hg & Hfar)].
    + exists 1%nat, a1. simpl. rewrite Eu. auto.
    + exfalso. rewrite Hg in Hfar. change (inject_Z (Z.of_nat 0)) with 0 in Hgap.
      lra.
  - destruct Hcase as [Hb|(Hrun & Hg & Hfar)].
    + exists 1%nat, a1. simpl. rewrite Eu. auto.
    + assert (Hgap1 : gap p a1 < 0.55 + inject_Z (Z.of_nat n) * 0.05).
      { rewrite Hg. rewrite Nat2Z.inj_succ in Hgap. unfold Z.succ in Hgap.
        rewrite inject_Z_plus in Hgap. change (inject_Z 1) with 1 in Hgap. lra. }
      destruct (IH a1 Ha' Hrun Hv' Hgap1) as (k & a' & Hk & Hact & Hst & Hscale).
      exists (S k), a'. simpl. rewrite Eu, Hk.
      split; [reflexivity|]. split; [exact Hact|]. split; [exact Hst|].
      congruence.
Qed.

(** One update of a boarding astronaut: it shrinks, and reports "aboard"
    exactly when its scale has dropped below one tenth. *)
Lemma boarding_step dt p a :
  astronautActive a = true ->
  Astronaut.state a = Astronaut.BOARDING ->
  let s := scale (Astronaut.entity a) * 0.95 in
  let a' := snd (Astronaut.update dt p a) in
  fst (Astronaut.update dt p a) = Qltb s 0.1
  /\ scale (Astronaut.entity a') = s
  /\ (Qltb s 0.1 = false ->
      astronautActive a' = true /\ Astronaut.state a' = Astronaut.BOARDING)
  /\ (Qltb s 0.1 = true ->
      astronautActive a' = false /\ Astronaut.state a' = Astronaut.ABOARD).
Proof.
  intros Ha Hs. unfold astronautActive in *.
  unfold Astronaut.update. rewrite Ha, Hs. simpl negb. cbv iota zeta.
  cbn [scale EntityOps.with_scale EntityOps.with_position].
  destruct (Qltb (scale (Astronaut.entity a) * 0.95) 0.1); cbn [fst snd];
    (split; [reflexivity|]); (split; [reflexivity|]);
    split; intros H; try discriminate; split; try reflexivity; exact Ha.
Qed.

Lemma boarding_run dt p k :
  forall j a,
    astronautActive a = true ->
    Astronaut.state a = Astronaut.BOARDING ->
    scale (Astronaut.entity a) = shrunk j ->
    (forall i, (j < i <= j + k)%nat -> Qltb (shrunk i) 0.1 = false) ->
    exists a',
      astronautUpdates (repeat (dt, p) k) a = (repeat false k, a')
      /\ astronautActive a' = true
      /\ Astronaut.state a' = Astronaut.BOARDING
      /\ scale (Astronaut.entity a') = shrunk (j + k).
Proof.
  induction k as [|k IH]; intros j a Ha Hs Hsc Hbig.
  - exists a. simpl. rewrite Nat.add_0_r. auto.
  - destruct (boarding_step dt p a Ha Hs) as (Hr & Hsc' & Hcont & _).
    rewrite Hsc in Hr, Hsc', Hcont.
    change (shrunk j * 0.95) with (shrunk (S j)) in Hr, Hsc', Hcont.
    assert (Hj : Qltb (shrunk (S j)) 0.1 = false) by (apply Hbig; lia).
    rewrite Hj in Hr. destruct (Hcont Hj) as [Ha' Hs'].
    destruct (Astronaut.update dt p a) as [r a1] eqn:Eu. cbn [fst snd] in *.
    subst r.
    destruct (IH (S j) a1 Ha' Hs' Hsc') as (a' & Hk & Hact & Hst & Hscale).
    { intros i Hi. apply Hbig. lia. }
    exists a'. simpl. rewrite Eu, Hk.
    split; [reflexivity|]. split; [exact Hact|]. split; [exact Hst|].
    rewrite Hscale. f_equal. lia.
Qed.

Lemma shrunk_above i : (0 < i <= 0 + 44)%nat -> Qltb (shrunk i) 0.1 = false.
Proof.
  intros Hi.
  assert (H : forallb (fun i => negb (Qltb (shrunk i) 0.1)) (seq 1 44) = true)
    by (vm_compute; reflexivity).
  rewrite forallb_forall in H.
  apply negb_true_iff. apply H. apply in_seq. lia.
Qed.

Lemma shrunk_below : Qltb (shrunk 45) 0.1 = true.
Proof. vm_compute. reflexivity. Qed.

(** A new astronaut whose lander stays put reports "aboard" exactly once in
    every sequence of updates that is long enough. *)
Lemma new_astronaut_boards r padX dt p :
  exists n, forall k,
    (n <= k)%nat ->
    reports (fst (astronautUpdates (repeat (dt, p) k) (Astronaut.new r padX)))
    = 1%nat.
Proof.
  set (a := Astronaut.new r padX).
  set (n := Z.to_nat (Qceiling (gap p a * 20))).
  assert (Hgap : gap p a < 0.55 + inject_Z (Z.of_nat n) * 0.05).
  { assert (H0 : 0 <= gap p a) by apply Qabs_nonneg.
    assert (Hc : gap p a * 20 <= inject_Z (Qceiling (gap p a * 20)))
      by apply Qle_ceiling.
    assert (Hz : (0 <= Qceiling (gap p a * 20))%Z).
    { change 0%Z with (Qceiling 0). apply Qceiling_resp_le. lra. }
    subst n. rewrite Z2Nat.id by exact Hz. lra. }
  destruct (running_reaches dt p n a eq_refl eq_refl eq_refl Hgap)
    as (k1 & a1 & Hrun & Ha1 & Hs1 & Hsc1).
  destruct (boarding_run dt p 44 0 a1 Ha1 Hs1 Hsc1 shrunk_above)
    as (a2 & Hboard & Ha2 & Hs2 & Hsc2).
  destruct (boarding_step dt p a2 Ha2 Hs2) as (Hr3 & _ & _ & Hend).
  rewrite Hsc2 in Hr3, Hend.
  change (shrunk (0 + 44) * 0.95) with (shrunk 45) in Hr3, Hend.
  rewrite shrunk_below in Hr3. destruct (Hend shrunk_below) as [_ Hs3].
  destruct (Astronaut.update dt p a2) as [r3 a3] eqn:Eu. cbn [fst snd] in *.
  subst r3.
  exists (k1 + (44 + 1))%nat. intros k Hk.
  replace k with (k1 + (44 + (1 + (k - (k1 + (44 + 1))))))%nat by lia.
  rewrite repeat_app, astronautUpdates_app, Hrun. cbv beta iota.
  rewrite repeat_app, astronautUpdates_app, Hboard. cbv beta iota.
  rewrite repeat_app, astronautUpdates_app.
  change (astronautUpdates (repeat (dt, p) 1) a2)
    with (let '(r, a) := Astronaut.update dt p a2 in ([r], a)).
  rewrite Eu. cbv beta iota.
  rewrite (astronautUpdates_done _ a3) by (right; exact Hs3).
  cbn [fst]. rewrite !reports_app, !reports_repeat_false.
  reflexivity.
Qed.

(** C6. Over every sequence of updates, with any lander positions, the state
    of an astronaut only moves forward along Approaching, Boarding, Aboard,
    and [update] returns [true] at most once; the update that returns [true]
    takes the astronaut from Boarding to Aboard and makes it inactive, and
    every later update returns [false] and changes nothing.  For a new
    astronaut whose lander stays where it is, as it does in the Landed phase,
    the report does come: every long enough sequence of updates contains it
    exactly once. *)
Theorem astronaut_reports_aboard_once :
  (forall calls a,
      (rank (Astronaut.state a)
       <= rank (Astronaut.state (snd (astronautUpdates calls a))))%nat)
  /\ (forall calls a, (reports (fst (astronautUpdates calls a)) <= 1)%nat)
  /\ (forall dt p a later,
        fst (Astronaut.update dt p a) = true ->
        let a' := snd (Astronaut.update dt p a) in
        Astronaut.state a = Astronaut.BOARDING
        /\ Astronaut.state a' = Astronaut.ABOARD
        /\ astronautActive a' = false
        /\ astronautUpdates later a' = (repeat false (length later), a'))
  /\ (forall r padX dt p,
        exists n, forall k,
          (n <= k)%nat ->
          reports (fst (astronautUpdates (repeat (dt, p) k)
                                         (Astronaut.new r padX)))
          = 1%nat).
Proof.
  split; [exact astronautUpdates_rank|].
  split; [exact astronautUpdates_at_most_once|].
  split; [|exact new_astronaut_boards].
  intros dt p a later Ht a'.
  destruct (update_true dt p a Ht) as (Hb & _ & Hs & Hi).
  split; [exact Hb|]. split; [exact Hs|]. split; [exact Hi|].
  apply astronautUpdates_done. right. exact Hs.
Qed.

(** Witness of [astronaut_reports_aboard_once]: an astronaut of the middle
    pad and a lander at rest on it.  The 96th update is the one that reports
    "aboard"; a hundred updates report it once. *)
Lemma astronaut_reports_aboard_once_witness :
  let call := (0.016, mkVec3 0 (-26.5) 0) in
  let a95 := snd (astronautUpdates (repeat call 95) (Astronaut.new 7 0)) in
  fst (Astronaut.update (fst call) (snd call) a95) = true
  /\ Astronaut.state a95 = Astronaut.BOARDING
  /\ Astronaut.state (snd (Astronaut.update (fst call) (snd call) a95))
     = Astronaut.ABOARD
  /\ reports (fst (astronautUpdates (repeat call 100) (Astronaut.new 7 0)))
     = 1%nat.
Proof.
  cbv zeta.
  set (call := (0.016, mkVec3 0 (-26.5) 0)).
  set (a95 := snd (astronautUpdates (repeat call 95) (Astronaut.new 7 0))).
  assert (Ht : fst (Astronaut.update (fst call) (snd call) a95) = true)
    by (vm_compute; reflexivity).
  destruct astronaut_reports_aboard_once as (_ & _ & H & _).
  destruct (H (fst call) (snd call) a95 [] Ht) as (Hb & Hs & _).
  split; [exact Ht|]. split; [exact Hb|]. split; [exact Hs|].
  vm_compute. reflexivity.
Defined.

(** * Further properties of the code *)

(** ** Lander kinematics *)

(** X1. [Lander.update] moves an active lander by its velocity and
    then clamps the horizontal position to the play extent: the altitude is
    the old one plus the vertical velocity, the horizontal position is
    inside [[-19, 19]] and is the moved one whenever that is inside; the
    velocity is untouched. *)
Theorem lander_update_moves_then_clamps dt l :
  active (Lander.entity l) = true ->
  let l' := Lander.update dt l in
  let moved := vx (Lander.pos l) + vx (Lander.vel l) in
  vy (Lander.pos l') = vy (Lander.pos l) + vy (Lander.vel l)
  /\ - landerHalfWidth <= vx (Lander.pos l') <= landerHalfWidth
  /\ (- landerHalfWidth <= moved <= landerHalfWidth ->
      vx (Lander.pos l') == moved)
  /\ (landerHalfWidth <= moved -> vx (Lander.pos l') == landerHalfWidth)
  /\ (moved <= - landerHalfWidth -> vx (Lander.pos l') == - landerHalfWidth)
  /\ Lander.vel l' = Lander.vel l.
Proof.
  intros Ha. unfold Lander.update. rewrite Ha. simpl negb. cbv iota zeta.
  unfold Lander.clampPosition. cbv zeta.
  fold landerHalfWidth.
  change (vy (Lander.pos (Lander.set_x ?x ?l))) with (vy (Lander.pos l)).
  change (vx (Lander.pos (Lander.set_x ?x ?l))) with x.
  change (vy (Lander.pos (Lander.set_y ?y ?l))) with y.
  change (vx (Lander.pos (Lander.set_y ?y ?l))) with (vx (Lander.pos l)).
  change (vx (Lander.pos (Lander.set_x ?x ?l))) with x.
  change (vx (Lander.vel (Lander.set_x ?x ?l))) with (vx (Lander.vel l)).
  change (vy (Lander.vel (Lander.set_x ?x ?l))) with (vy (Lander.vel l)).
  set (m := vx (Lander.pos l) + vx (Lander.vel l)).
  assert (Hhw : landerHalfWidth == 19) by reflexivity.
  revert Hhw. generalize landerHalfWidth. intros hw Hhw.
  split; [reflexivity|].
  pose proof (Q.max_spec (- hw) (Qmin hw m)) as Hmax.
  pose proof (Q.min_spec hw m) as Hmin.
  revert Hmax Hmin.
  generalize (Qmax (- hw) (Qmin hw m)). generalize (Qmin hw m).
  clearbody m. intros d c Hmax Hmin.
  split; [|split; [|split; [|split; [|reflexivity]]]];
    destruct Hmax as [[? ?]|[? ?]]; destruct Hmin as [[? ?]|[? ?]];
    try split; intros; lra.
Qed.

(** [lander_update_moves_then_clamps] on a lander one step from the right
    edge. *)
Lemma lander_update_moves_then_clamps_witness :
  let l := Lander.on_entity (EntityOps.with_velocity (mkVec3 0.5 (-0.1) 0))
             (Lander.set_x 18.8 (Lander.reset (Lander.new 0))) in
  vx (Lander.pos (Lander.update 0.016 l)) == 19
  /\ vy (Lander.pos (Lander.update 0.016 l)) == 23.9.
Proof.
  cbv zeta.
  set (l := Lander.on_entity (EntityOps.with_velocity (mkVec3 0.5 (-0.1) 0))
              (Lander.set_x 18.8 (Lander.reset (Lander.new 0)))).
  destruct (lander_update_moves_then_clamps 0.016 l eq_refl)
    as (Hy & _ & _ & Hr & _).
  split.
  - rewrite Hr; [reflexivity|]. apply Qle_bool_iff. reflexivity.
  - rewrite Hy. reflexivity.
Defined.
(** ** Fuel and ascent per frame *)

(** The state after [consumeFuel] is a function of the state before. *)
Lemma state_consumeFuel amount g :
  Game.state (snd (Game.GameStateManager.consumeFuel amount g))
  = let s := Game.state g in
    let v := Qmax 0 (GameState.fuel s - amount) in
    if Qle_bool (GameState.fuel s) 0 then s
    else if Qeq_bool (GameState.fuel s) v then s
    else GameState.write GameState.k_fuel v s.
Proof.
  unfold Game.GameStateManager.consumeFuel. cbv zeta.
  destruct (Qle_bool _ 0); [reflexivity|].
  cbn [snd]. rewrite state_set. reflexivity.
Qed.

Lemma state_consumeFuel_ext amount g1 g2 :
  Game.state g1 = Game.state g2 ->
  Game.state (snd (Game.GameStateManager.consumeFuel amount g1))
  = Game.state (snd (Game.GameStateManager.consumeFuel amount g2)).
Proof. intros H. rewrite !state_consumeFuel, H. reflexivity. Qed.

Ltac split_fuel_state g :=
  match goal with
  | |- context [Game.GameStateManager.consumeFuel ?a ?g0] =>
      let H := fresh "H" in
      pose proof (state_consumeFuel_ext a g0 g eq_refl) as H;
      destruct (Game.GameStateManager.consumeFuel a g0); cbn [snd] in H
  end.

Lemma state_updateDescentPhase dt g :
  Game.state (Game.updateDescentPhase dt g)
  = if thrustApplied g
    then Game.state (snd (Game.GameStateManager.consumeFuel
                            (Config.FUEL_CONSUMPTION_RATE * dt) g))
    else Game.state g.
Proof.
  unfold Game.updateDescentPhase, thrustApplied, Game.Math_random. cbv zeta.
  rewrite !isPressed_on_lander.
  destruct (Game.isPressed left g), (Game.isPressed right g);
    rewrite ?isPressed_on_lander, ?get_on_lander;
    destruct (Game.isPressed up g && Qltb 0 (Game.get GameState.k_fuel g));
    try reflexivity;
    split_fuel_state g; case_if; exact H.
Qed.

Lemma state_updateAscentPhase dt g :
  Game.state (Game.updateAscentPhase dt g)
  = if Game.isPressed space g then Game.state g
    else if thrustApplied g
    then Game.state (snd (Game.GameStateManager.consumeFuel
                            (Config.FUEL_CONSUMPTION_RATE * dt * 0.5) g))
    else Game.state g.
Proof.
  unfold Game.updateAscentPhase, thrustApplied. cbv zeta.
  rewrite !isPressed_on_lander.
  destruct (Game.isPressed left g), (Game.isPressed right g);
    rewrite ?isPressed_on_lander, ?get_on_lander;
    destruct (Game.isPressed space g); try reflexivity;
    destruct (Game.isPressed up g && Qltb 0 (Game.get GameState.k_fuel g));
    try reflexivity;
    split_fuel_state g; exact H.
Qed.

Lemma update_pos_y dt l :
  active (Lander.entity l) = true ->
  vy (Lander.pos (Lander.update dt l)) = vy (Lander.pos l) + vy (Lander.vel l).
Proof.
  intros Ha. unfold Lander.update. rewrite Ha. reflexivity.
Qed.

Lemma landerActive_spec g :
  landerActive g = true <->
  exists l, Game.lander g = Some l /\ active (Lander.entity l) = true.
Proof.
  unfold landerActive. destruct (Game.lander g) as [l|]; split.
  - intros H. exists l. auto.
  - intros (l' & [= <-] & H). exact H.
  - discriminate.
  - intros (l' & [=] & _).
Qed.

Lemma updateLander_unfold dt g :
  landerActive g = true ->
  Game.updateLander dt g
  = Game.on_lander (Lander.update dt)
      match Game.get GameState.k_phase g with
      | Config.DESCENT => Game.updateDescentPhase dt g
      | Config.ASCENT => Game.updateAscentPhase dt g
      | _ => g
      end.
Proof.
  intros Ha. apply landerActive_spec in Ha. destruct Ha as (l & Hl & Ha).
  unfold Game.updateLander. rewrite Hl, Ha. reflexivity.
Qed.

(** X2. The fuel a frame burns.  In a frame that moves the lander,
    thrust in the Descent phase (up held, fuel left) takes
    [FUEL_CONSUMPTION_RATE * deltaTime] from the fuel, stopping at zero; in
    the Ascent phase thrust takes half of that and the boost of the fire key
    takes nothing; in every other case the fuel stays.  No other key of the
    state changes. *)
Theorem updateLander_fuel dt g :
  landerActive g = true ->
  let g' := Game.updateLander dt g in
  let rate := Config.FUEL_CONSUMPTION_RATE in
  fuelOf g'
  == match phaseOf g with
     | Config.DESCENT =>
         if thrustApplied g then Qmax 0 (fuelOf g - rate * dt) else fuelOf g
     | Config.ASCENT =>
         if Game.isPressed space g then fuelOf g
         else if thrustApplied g then Qmax 0 (fuelOf g - rate * dt * 0.5)
         else fuelOf g
     | _ => fuelOf g
     end
  /\ Game.state g' = GameState.write GameState.k_fuel (fuelOf g') (Game.state g).
Proof.
  intros Ha g' rate. subst g'. rewrite (updateLander_unfold dt g Ha).
  unfold fuelOf, phaseOf.
  change (Game.state (Game.on_lander ?f ?g0)) with (Game.state g0).
  change (Game.get GameState.k_phase g) with (GameState.phase (Game.state g)).
  assert (Hid : forall s, s = GameState.write GameState.k_fuel (GameState.fuel s) s)
    by (intros []; reflexivity).
  assert (Hburn : forall a,
             thrustApplied g = true ->
             let s' := Game.state (snd (Game.GameStateManager.consumeFuel a g)) in
             GameState.fuel s' == Qmax 0 (GameState.fuel (Game.state g) - a)
             /\ s' = GameState.write GameState.k_fuel (GameState.fuel s')
                       (Game.state g)).
  { intros a Ht. unfold thrustApplied in Ht. apply andb_true_iff in Ht.
    destruct Ht as [_ Ht]. apply Qltb_lt in Ht.
    change (Game.get GameState.k_fuel g) with (GameState.fuel (Game.state g)) in Ht.
    cbv zeta. rewrite state_consumeFuel. cbv zeta.
    destruct (Qle_bool (GameState.fuel (Game.state g)) 0) eqn:E0.
    { apply Qle_bool_iff in E0. lra. }
    destruct (Qeq_bool _ _) eqn:E1.
    - split; [apply Qeq_bool_eq; exact E1|apply Hid].
    - split; [reflexivity|]. destruct (Game.state g); reflexivity. }
  destruct (GameState.phase (Game.state g)); try (split; [reflexivity|apply Hid]).
  - rewrite state_updateDescentPhase.
    destruct (thrustApplied g) eqn:Et; [apply Hburn; reflexivity|].
    split; [reflexivity|apply Hid].
  - rewrite state_updateAscentPhase.
    destruct (Game.isPressed space g); [split; [reflexivity|apply Hid]|].
    destruct (thrustApplied g) eqn:Et; [apply Hburn; reflexivity|].
    split; [reflexivity|apply Hid].
Qed.






Lemma ascent_phase_lander dt g l :
  Game.lander g = Some l ->
  exists l1,
    Game.lander (Game.updateAscentPhase dt g) = Some l1
    /\ active (Lander.entity l1) = active (Lander.entity l)
    /\ vy (Lander.pos l1) = vy (Lander.pos l)
    /\ vy (Lander.vel l1) == Config.ASCENT_SPEED * ascentFactor g.
Proof.
  intros Hl. unfold Game.updateAscentPhase, ascentFactor, thrustApplied.
  cbv zeta. rewrite !isPressed_on_lander.
  destruct (Game.isPressed left g), (Game.isPressed right g);
    rewrite ?isPressed_on_lander, ?get_on_lander;
    destruct (Game.isPressed space g);
    try destruct (Game.isPressed up g && Qltb 0 (Game.get GameState.k_fuel g));
    try split_fuel_lander;
    rewrite ?lander_on_lander; rewrite ?H; rewrite ?lander_on_lander, ?Hl;
    (eexists; split; [reflexivity|]);
    (split; [reflexivity|]); (split; [reflexivity|]);
    cbn -[Qmult Qplus Qeq]; unfold Config.ASCENT_SPEED; ring.
Qed.

Lemma phase_updateAscentPhase dt g :
  phaseOf (Game.updateAscentPhase dt g) = phaseOf g.
Proof.
  unfold phaseOf. rewrite state_updateAscentPhase.
  destruct (Game.isPressed space g); [reflexivity|].
  destruct (thrustApplied g); [|reflexivity].
  rewrite state_consumeFuel. cbv zeta.
  destruct (Qle_bool _ 0); [reflexivity|].
  destruct (Qeq_bool _ _); reflexivity.
Qed.

Lemma inAscent_spec g :
  inAscent g = true <-> phaseOf g = Config.ASCENT /\ landerActive g = true.
Proof.
  unfold inAscent, phaseOf. rewrite andb_true_iff, phase_eqb_eq. reflexivity.
Qed.

(** X4. An Ascent frame overrides whatever vertical velocity the
    lander had: afterwards it is [ASCENT_SPEED] times 1.5 with the fire key
    held, times 1.3 with thrust (up held, fuel left), times 1 otherwise; the
    lander rises by that much, at least [ASCENT_SPEED], and the game stays in
    the Ascent phase. *)
Theorem ascent_tick_rises dt g :
  inAscent g = true ->
  let g' := Game.updateLander dt g in
  inAscent g' = true
  /\ landerVy g' == Config.ASCENT_SPEED * ascentFactor g
  /\ Config.ASCENT_SPEED <= landerVy g'
  /\ landerY g' == landerY g + landerVy g'.
Proof.
  intros Hin. apply inAscent_spec in Hin. destruct Hin as [Hp Ha].
  cbv zeta. rewrite (updateLander_unfold dt g Ha).
  unfold phaseOf in Hp.
  change (Game.get GameState.k_phase g) with (GameState.phase (Game.state g)).
  rewrite Hp.
  apply landerActive_spec in Ha. destruct Ha as (l & Hl & Hact).
  destruct (ascent_phase_lander dt g l Hl) as (l1 & Hl1 & Ha1 & Hy1 & Hv1).
  rewrite Hact in Ha1.
  assert (Hfac : 1 <= ascentFactor g).
  { unfold ascentFactor. destruct (Game.isPressed space g); [lra|].
    destruct (thrustApplied g); lra. }
  split.
  - apply inAscent_spec. split.
    + change (phaseOf (Game.updateAscentPhase dt g) = Config.ASCENT).
      rewrite phase_updateAscentPhase. exact Hp.
    + unfold landerActive. rewrite lander_on_lander, Hl1. simpl.
      rewrite update_active. exact Ha1.
  - unfold landerVy, landerY. rewrite lander_on_lander, Hl1, Hl.
    cbn [fmap option_fmap option_map].
    rewrite update_vel, (update_pos_y dt l1 Ha1), Hy1, Hv1.
    unfold Config.ASCENT_SPEED in *.
    split; [reflexivity|]. split; [nra|reflexivity].
Qed.

(** [updateLander_fuel] on one Descent frame of a quarter second with thrust
    held and a full tank. *)
Lemma updateLander_fuel_witness :
  fuelOf (Game.updateLander 0.25 (startedWith (mkKeys false false true false)))
  == 96.25.
Proof.
  destruct (updateLander_fuel 0.25 (startedWith (mkKeys false false true false))
              ltac:(vm_compute; reflexivity)) as [H _].
  rewrite H. vm_compute. reflexivity.
Defined.


(** [ascent_tick_rises] on a lander that was falling when the Ascent frame
    begins, with the fire key held. *)
Lemma ascent_tick_rises_witness :
  let g := inPhase Config.ASCENT (startedWith (mkKeys false false false true)) in
  landerVy g == -0.08
  /\ landerVy (Game.updateLander 0.016 g) == 0.15
  /\ landerY (Game.updateLander 0.016 g) == 24.15.
Proof.
  cbv zeta.
  set (g := inPhase Config.ASCENT (startedWith (mkKeys false false false true))).
  destruct (ascent_tick_rises 0.016 g ltac:(vm_compute; reflexivity))
    as (_ & Hv & _ & Hy).
  split; [vm_compute; reflexivity|].
  split; [rewrite Hv; vm_compute; reflexivity|].
  rewrite Hy, Hv. vm_compute. reflexivity.
Defined.
(** ** Collision geometry *)

Lemma Qltb_comp x x' y y' : x == x' -> y == y' -> Qltb x y = Qltb x' y'.
Proof.
  intros Hx Hy. destruct (Qltb x' y') eqn:E.
  - apply Qltb_lt. apply Qltb_lt in E. lra.
  - apply Qltb_ge. apply Qltb_ge in E. lra.
Qed.

Lemma distanceToSquared_sym p q : distanceToSquared p q == distanceToSquared q p.
Proof. unfold distanceToSquared. cbv zeta. ring. Qed.

(** X5. The sphere test of [Entity.collidesWith] does not depend on
    which of the two entities asks, and it holds only between two active
    entities whose radii sum to more than zero and whose centres are closer
    than that sum (in squares). *)
Theorem collidesWith_symmetric a b :
  EntityOps.collidesWith a b = EntityOps.collidesWith b a
  /\ (EntityOps.collidesWith a b = true ->
      active a = true /\ active b = true
      /\ 0 < radius a + radius b
      /\ distanceToSquared (position a) (position b)
         < (radius a + radius b) * (radius a + radius b)).
Proof.
  unfold EntityOps.collidesWith, distance_lt. split.
  - destruct (active a), (active b); simpl; try reflexivity.
    f_equal; apply Qltb_comp; try reflexivity.
    + ring.
    + apply distanceToSquared_sym.
    + ring.
  - destruct (active a), (active b); simpl; try discriminate.
    intros H. apply andb_true_iff in H. destruct H as [H1 H2].
    apply Qltb_lt in H1. apply Qltb_lt in H2. auto.
Qed.

(** [collidesWith_symmetric] on a unit lander and a bullet one unit away. *)
Lemma collidesWith_symmetric_witness :
  let a := EntityOps.new 0 in
  let b := EntityOps.with_radius 0.2 (EntityOps.setPosition 1 0 0 (EntityOps.new 1)) in
  EntityOps.collidesWith b a = true
  /\ distanceToSquared (position a) (position b) < 1.2 * 1.2.
Proof.
  cbv zeta.
  set (a := EntityOps.new 0).
  set (b := EntityOps.with_radius 0.2 (EntityOps.setPosition 1 0 0 (EntityOps.new 1))).
  destruct (collidesWith_symmetric a b) as [Hs Hc].
  split; [rewrite <- Hs; reflexivity|].
  destruct (Hc eq_refl) as (_ & _ & _ & Hd).
  exact Hd.
Defined.

Lemma firstPadUnder_Some x pads p :
  CollisionSystem.firstPadUnder x pads = Some p ->
  exists before after,
    pads = before ++ p :: after
    /\ LandingPad.isPositionOverPad x p = true
    /\ Forall (fun q => LandingPad.isPositionOverPad x q = false) before.
Proof.
  induction pads as [|q pads IH]; simpl; [discriminate|].
  destruct (LandingPad.isPositionOverPad x q) eqn:E.
  - intros [= <-]. exists [], pads. auto.
  - intros H. destruct (IH H) as (before & after & -> & Hp & Hb).
    exists (q :: before), after. auto.
Qed.

Lemma firstPadUnder_None x pads :
  CollisionSystem.firstPadUnder x pads = None <->
  Forall (fun q => LandingPad.isPositionOverPad x q = false) pads.
Proof.
  induction pads as [|q pads IH]; simpl.
  - split; [constructor|reflexivity].
  - destruct (LandingPad.isPositionOverPad x q) eqn:E; split.
    + discriminate.
    + intros H. inversion H; subst. congruence.
    + intros H. constructor; [exact E|apply IH; exact H].
    + intros H. inversion H; subst. apply IH. assumption.
Qed.

(** X6. Ground contact is a landing or a crash, never both and never
    neither.  Above the ground threshold neither query reports.  At or below
    it [checkLandingPadCollision] returns the first pad of the list whose
    window holds the lander's horizontal position, and
    [checkGroundCollision] reports exactly when there is no such pad. *)
Theorem ground_contact_lands_or_crashes l pads :
  let x := vx (Lander.pos l) in
  let pad := fst (CollisionSystem.checkLandingPadCollision l pads) in
  let crash := fst (CollisionSystem.checkGroundCollision l pads) in
  (if Lander.isAtGroundLevel l
   then (crash = true <-> pad = None)
        /\ (crash = true <->
            Forall (fun q => LandingPad.isPositionOverPad x q = false) pads)
   else pad = None /\ crash = false)
  /\ (forall p,
        pad = Some p ->
        Lander.isAtGroundLevel l = true
        /\ exists before after,
             pads = before ++ p :: after
             /\ LandingPad.isPositionOverPad x p = true
             /\ Forall (fun q => LandingPad.isPositionOverPad x q = false)
                       before).
Proof.
  cbv zeta.
  unfold CollisionSystem.checkLandingPadCollision,
    CollisionSystem.checkGroundCollision.
  destruct (Lander.isAtGroundLevel l); simpl.
  - pose proof (firstPadUnder_None (vx (Lander.pos l)) pads) as Hn.
    pose proof (firstPadUnder_Some (vx (Lander.pos l)) pads) as Hs.
    destruct (CollisionSystem.firstPadUnder (vx (Lander.pos l)) pads) as [p|];
      simpl.
    + split.
      * split; split; try discriminate. intros H. apply Hn in H. discriminate.
      * intros q [= <-]. split; [reflexivity|]. apply Hs. reflexivity.
    + split.
      * split; split; try reflexivity. intros _. apply Hn. reflexivity.
      * intros q H. discriminate.
  - split; [split; reflexivity|]. intros p H. discriminate.
Qed.

(** [ground_contact_lands_or_crashes] on the pads of the game: on the ground
    at [x = 0.5] the lander is on the middle pad, the second of the list
    (scenario E is the same lander at [x = 5], between two pads, where
    [checkGroundCollision] reports and no pad is returned). *)
Lemma ground_contact_lands_or_crashes_witness :
  let pads := Game.landingPads (Game.new (fun _ => 0)) in
  let l := Lander.set_y (-28) (Lander.set_x 0.5 (Lander.new 0)) in
  fst (CollisionSystem.checkGroundCollision
         (Lander.set_y (-28) (Lander.set_x 5 (Lander.new 0))) pads) = true
  /\ exists p,
       fst (CollisionSystem.checkLandingPadCollision l pads) = Some p
       /\ LandingPad.padIndex p = 1%nat
       /\ LandingPad.isPositionOverPad 0.5 p = true.
Proof.
  cbv zeta. split; [vm_compute; reflexivity|].
  set (pads := Game.landingPads (Game.new (fun _ => 0))).
  set (l := Lander.set_y (-28) (Lander.set_x 0.5 (Lander.new 0))).
  destruct (fst (CollisionSystem.checkLandingPadCollision l pads)) as [p|] eqn:E;
    [|vm_compute in E; discriminate].
  destruct (ground_contact_lands_or_crashes l pads) as [_ H].
  destruct (H p E) as (_ & before & after & _ & Hover & _).
  exists p. split; [reflexivity|]. split; [|exact Hover].
  vm_compute in E. injection E as <-. reflexivity.
Defined.

(** X7. The windows of the pads that [createLandingPads] builds do not
    overlap: over any horizontal position there is at most one pad of the
    game, so the order of the pad list never decides a landing. *)
Theorem landing_pad_windows_disjoint rnd x p q :
  p ∈ Game.landingPads (Game.new rnd) ->
  q ∈ Game.landingPads (Game.new rnd) ->
  LandingPad.isPositionOverPad x p = true ->
  LandingPad.isPositionOverPad x q = true ->
  p = q.
Proof.
  set (padx := fun i : nat =>
                 - Config.GAME_WIDTH / 2
                 + Config.GAME_WIDTH / (inject_Z (Z.of_nat Config.LANDING_PADS) + 1)
                   * (inject_Z (Z.of_nat i) + 1)).
  assert (Hpads : Game.landingPads (Game.new rnd)
                  = [LandingPad.new 1 (padx 0%nat) 0;
                     LandingPad.new 2 (padx 1%nat) 1;
                     LandingPad.new 3 (padx 2%nat) 2]) by reflexivity.
  rewrite Hpads. clear Hpads.
  assert (E0 : padx 0%nat == -10) by reflexivity.
  assert (E1 : padx 1%nat == 0) by reflexivity.
  assert (E2 : padx 2%nat == 10) by reflexivity.
  assert (Ew : (4 : Q) / 2 - 0.5 == 1.5) by reflexivity.
  revert E0 E1 E2. generalize (padx 0%nat) (padx 1%nat) (padx 2%nat).
  clear padx. intros c0 c1 c2 E0 E1 E2 Hp Hq.
  repeat (apply elem_of_cons in Hp; destruct Hp as [->|Hp]);
    try (inversion Hp);
    repeat (apply elem_of_cons in Hq; destruct Hq as [->|Hq]);
    try (inversion Hq); try reflexivity;
    unfold LandingPad.isPositionOverPad; simpl LandingPad.padX;
    simpl LandingPad.width;
    intros H1 H2; apply Qltb_lt in H1; apply Qltb_lt in H2; exfalso;
    revert H1 H2; revert Ew; generalize ((4 : Q) / 2 - 0.5); intros w Ew;
    qabs_cases; intros; lra.
Qed.

(** [landing_pad_windows_disjoint] at [x = 0.5]: the pad that the scan finds
    is the middle pad. *)
Lemma landing_pad_windows_disjoint_witness :
  let pads := Game.landingPads (Game.new (fun _ => 0)) in
  CollisionSystem.firstPadUnder 0.5 pads = pads !! 1%nat.
Proof.
  cbv zeta. set (pads := Game.landingPads (Game.new (fun _ => 0))).
  destruct (CollisionSystem.firstPadUnder 0.5 pads) as [p|] eqn:Ep;
    [|vm_compute in Ep; discriminate].
  destruct (pads !! 1%nat) as [q|] eqn:Eq; [|vm_compute in Eq; discriminate].
  f_equal.
  destruct (firstPadUnder_Some _ _ _ Ep) as (before & after & Hpads & Hover & _).
  apply (landing_pad_windows_disjoint (fun _ => 0) 0.5 p q).
  - fold pads. rewrite Hpads. apply elem_of_app. right. left.
  - fold pads. apply (list_elem_of_lookup_2 _ _ _ Eq).
  - exact Hover.
  - vm_compute in Eq. injection Eq as <-. vm_compute. reflexivity.
Defined.
(** ** Meteors *)



(** The position and the velocity of an active meteor after an update. *)
Lemma meteor_update_components dt scene m :
  active (Meteor.entity m) = true ->
  let m' := Meteor.update dt scene m in
  let x1 := vx (Meteor.pos m) + vx (Meteor.vel m) in
  let y1 := vy (Meteor.pos m) + vy (Meteor.vel m) in
  let bounced :=
    if Qltb x1 (- meteorHalfWidth) || Qltb meteorHalfWidth x1
    then vx (Meteor.vel m) * -1 else vx (Meteor.vel m) in
  vx (Meteor.pos m') = x1
  /\ vy (Meteor.pos m')
     = (if Qltb y1 meteorBottomBound then meteorTopBound - 3
        else if Qltb meteorTopBound y1 then meteorBottomBound + 3
        else y1)
  /\ vy (Meteor.vel m') = vy (Meteor.vel m)
  /\ (vx (Meteor.vel m') = bounced \/ vx (Meteor.vel m') = bounced * 2)
  /\ active (Meteor.entity m') = true.
Proof.
  intros Ha. cbv zeta. unfold Meteor.update. rewrite Ha. simpl negb.
  cbv iota zeta.
  unfold meteorHalfWidth, meteorTopBound, meteorBottomBound.
  set (hw := Config.GAME_WIDTH / 2 - 2).
  set (top := Config.GAME_HEIGHT / 2 - 15).
  set (bottom := - Config.GAME_HEIGHT / 2 + 5).
  unfold Meteor.pos, Meteor.vel.
  cbn -[Qmult Qplus Qminus Qdiv Qopp Qltb hw top bottom].
  set (x1 := vx (position (Meteor.entity m)) + vx (velocity (Meteor.entity m))).
  set (y1 := vy (position (Meteor.entity m)) + vy (velocity (Meteor.entity m))).
  destruct (Qltb x1 (- hw) || Qltb hw x1);
    cbn -[Qmult Qplus Qminus Qdiv Qopp Qltb hw top bottom];
    destruct (Qltb y1 bottom);
    cbn -[Qmult Qplus Qminus Qdiv Qopp Qltb hw top bottom];
    try (destruct (Qltb top y1);
         cbn -[Qmult Qplus Qminus Qdiv Qopp Qltb hw top bottom]);
    repeat match goal with
           | |- context [if ?b then _ else _] => destruct b
           end;
    cbn -[Qmult Qplus Qminus Qdiv Qopp Qltb hw top bottom];
    rewrite ?Ha; auto 10.
Qed.

(** X9. After every update an active meteor lies in the band between
    the bottom margin and the safe zone under the mothership, whatever its
    vertical speed: a move that stays in the band is kept, one below it
    resumes three units under the top, one above it three units over the
    bottom; the vertical velocity never changes. *)
Theorem meteor_update_wraps_into_band dt scene m :
  active (Meteor.entity m) = true ->
  let m' := Meteor.update dt scene m in
  let y1 := vy (Meteor.pos m) + vy (Meteor.vel m) in
  meteorBottomBound <= vy (Meteor.pos m') <= meteorTopBound
  /\ (meteorBottomBound <= y1 <= meteorTopBound -> vy (Meteor.pos m') = y1)
  /\ (y1 < meteorBottomBound -> vy (Meteor.pos m') = meteorTopBound - 3)
  /\ (meteorTopBound < y1 -> vy (Meteor.pos m') = meteorBottomBound + 3)
  /\ vy (Meteor.vel m') = vy (Meteor.vel m).
Proof.
  intros Ha. cbv zeta.
  destruct (meteor_update_components dt scene m Ha) as (_ & Hy & Hv & _).
  cbv zeta in Hy. rewrite Hy. clear Hy.
  set (y1 := vy (Meteor.pos m) + vy (Meteor.vel m)). clearbody y1.
  assert (Ht : meteorTopBound == 15) by reflexivity.
  assert (Hb : meteorBottomBound == -25) by reflexivity.
  revert Ht Hb. generalize meteorTopBound meteorBottomBound.
  intros top bottom Ht Hb.
  split; [|split; [|split; [|split; [|exact Hv]]]];
    destruct (Qltb y1 bottom) eqn:E1;
    [apply Qltb_lt in E1|apply Qltb_ge in E1| apply Qltb_lt in E1
    |apply Qltb_ge in E1|apply Qltb_lt in E1|apply Qltb_ge in E1
    |apply Qltb_lt in E1|apply Qltb_ge in E1];
    try (destruct (Qltb top y1) eqn:E2;
         [apply Qltb_lt in E2|apply Qltb_ge in E2]);
    try split; intros; try reflexivity; lra.
Qed.

(** [meteor_update_wraps_into_band] on a meteor that falls below the band. *)
Lemma meteor_update_wraps_into_band_witness :
  let m := Meteor.on_entity (EntityOps.with_velocity (mkVec3 0 (-0.5) 0))
             (meteorAt 0 3 (-24.8)) in
  vy (Meteor.pos (Meteor.update 0.016 true m)) == 12.
Proof.
  cbv zeta.
  set (m := Meteor.on_entity (EntityOps.with_velocity (mkVec3 0 (-0.5) 0))
              (meteorAt 0 3 (-24.8))).
  destruct (meteor_update_wraps_into_band 0.016 true m eq_refl)
    as (_ & _ & H & _).
  rewrite H; [reflexivity|]. apply Qltb_lt. reflexivity.
Defined.

(** X10. The bounce keeps a meteor within reach of the band: if a
    meteor is at most one step beyond the bounce band, and beyond an edge
    only while moving back towards it, the same holds after every update,
    transform included. *)
Theorem meteor_update_bounces_back dt scene m :
  withinReach m -> withinReach (Meteor.update dt scene m).
Proof.
  intros Hin.
  destruct (active (Meteor.entity m)) eqn:Ha;
    [|unfold Meteor.update; rewrite Ha; exact Hin].
  destruct (meteor_update_components dt scene m Ha) as (Hx & _ & _ & Hv & _).
  cbv zeta in Hx, Hv. unfold withinReach in *. cbv zeta in *.
  rewrite Hx. clear Hx.
  assert (Hw : meteorHalfWidth == 18) by reflexivity.
  revert Hw Hin Hv. generalize meteorHalfWidth.
  generalize (vx (Meteor.vel (Meteor.update dt scene m))).
  generalize (vx (Meteor.pos m)) (vx (Meteor.vel m)).
  intros x v v' hw Hw (Hreach & Hright & Hleft) Hv.
  destruct (Qltb (x + v) (- hw) || Qltb hw (x + v)) eqn:E.
  - apply orb_true_iff in E.
    destruct E as [E|E]; apply Qltb_lt in E;
      destruct Hv as [-> | ->]; revert Hreach; qabs_cases; intros;
      (split; [|split]); intros; try lra;
      destruct (Qlt_le_dec hw x); destruct (Qlt_le_dec x (- hw)); lra.
  - apply orb_false_iff in E. destruct E as [E1 E2].
    apply Qltb_ge in E1. apply Qltb_ge in E2.
    destruct Hv as [-> | ->]; revert Hreach; qabs_cases; intros;
      (split; [|split]); intros; lra.
Qed.

(** [meteor_update_bounces_back] on a meteor that crosses the right edge of
    the band: it is beyond the edge after the update, and heading back. *)
Lemma meteor_update_bounces_back_witness :
  let m := Meteor.on_entity (EntityOps.with_velocity (mkVec3 0.05 0 0))
             (meteorAt 0 17.99 0) in
  withinReach (Meteor.update 0.016 true m)
  /\ meteorHalfWidth < vx (Meteor.pos (Meteor.update 0.016 true m))
  /\ vx (Meteor.vel (Meteor.update 0.016 true m)) < 0.
Proof.
  cbv zeta. split; [|split; apply Qltb_lt; vm_compute; reflexivity].
  apply meteor_update_bounces_back.
  unfold withinReach. cbv zeta. split; [|split].
  - apply Qle_bool_iff. vm_compute. reflexivity.
  - intros H. apply Qltb_lt in H. vm_compute in H. discriminate.
  - intros H. apply Qltb_lt in H. vm_compute in H. discriminate.
Defined.

(** An update of a meteor that is not eligible, is already a flagship, or is
    given no scene leaves the flag, the timer, the points and the radius. *)
Lemma update_no_transform dt scene m :
  Meteor.willBecomeFlagship m && negb (Meteor.isFlagship m) && scene = false ->
  let m' := Meteor.update dt scene m in
  Meteor.isFlagship m' = Meteor.isFlagship m
  /\ Meteor.willBecomeFlagship m' = Meteor.willBecomeFlagship m
  /\ Meteor.flashTimer m' = Meteor.flashTimer m
  /\ Meteor.points m' = Meteor.points m
  /\ meteorRadius m' = meteorRadius m
  /\ active (Meteor.entity m') = active (Meteor.entity m).
Proof.
  intros Hc. unfold Meteor.update.
  destruct (negb (active (Meteor.entity m))); [cbv zeta; auto 10|].
  cbv zeta.
  repeat match goal with
         | |- context [if Qltb ?a ?b then _ else _] => destruct (Qltb a b)
         | |- context [if ?a || ?b then _ else _] => destruct (a || b)
         end;
    cbn [Meteor.willBecomeFlagship Meteor.isFlagship Meteor.set_x Meteor.set_y
         Meteor.set_vx Meteor.on_entity Meteor.with_entity];
    rewrite Hc; auto 10.
Qed.

(** An update with a scene of an eligible, untransformed, active meteor
    advances the timer, and transforms exactly when the timer passes the
    threshold. *)
Lemma update_flash dt m :
  active (Meteor.entity m) = true ->
  Meteor.willBecomeFlagship m = true ->
  Meteor.isFlagship m = false ->
  let m' := Meteor.update dt true m in
  Meteor.flashTimer m' = Meteor.flashTimer m + 0.05
  /\ Meteor.isFlagship m'
     = Qltb Config.FLAGSHIP_FLASH_DURATION (Meteor.flashTimer m + 0.05)
  /\ Meteor.willBecomeFlagship m' = true
  /\ active (Meteor.entity m') = true
  /\ Meteor.points m'
     = (if Qltb Config.FLAGSHIP_FLASH_DURATION (Meteor.flashTimer m + 0.05)
        then Config.SCORE_FLAGSHIP else Meteor.points m).
Proof.
  intros Ha Hw Hf. unfold Meteor.update. rewrite Ha. simpl negb.
  cbv iota zeta.
  repeat match goal with
         | |- context [if Qltb ?a ?b then _ else _] =>
             lazymatch a with
             | Config.FLAGSHIP_FLASH_DURATION => fail
             | _ => destruct (Qltb a b)
             end
         | |- context [if ?a || ?b then _ else _] => destruct (a || b)
         end;
    cbn [Meteor.willBecomeFlagship Meteor.isFlagship Meteor.set_x Meteor.set_y
         Meteor.set_vx Meteor.on_entity Meteor.with_entity
         Meteor.with_flashTimer Meteor.flashTimer];
    rewrite Hw, Hf; cbn [andb negb];
    destruct (Qltb Config.FLAGSHIP_FLASH_DURATION (Meteor.flashTimer m + 0.05));
    cbn; rewrite ?Ha, ?Hw, ?Hf; auto 10.
Qed.

(** X11. Only eligible meteors that are shown a scene transform: a
    meteor that was not marked eligible at creation, or whose updates are all
    given no scene, keeps its flag, its points and its radius over every
    sequence of updates. *)
Theorem only_eligible_meteors_transform calls m :
  Meteor.willBecomeFlagship m = false
  \/ Forall (fun call => snd call = false) calls ->
  let m' := meteorUpdates calls m in
  Meteor.isFlagship m' = Meteor.isFlagship m
  /\ Meteor.points m' = Meteor.points m
  /\ meteorRadius m' = meteorRadius m
  /\ Meteor.willBecomeFlagship m' = Meteor.willBecomeFlagship m.
Proof.
  revert m. induction calls as [|[dt scene] calls IH]; intros m H; cbv zeta.
  - simpl. auto.
  - assert (Hc : Meteor.willBecomeFlagship m && negb (Meteor.isFlagship m)
                 && scene = false).
    { destruct H as [H|H].
      - rewrite H. reflexivity.
      - inversion H as [|? ? Hs _]; subst. simpl in Hs. rewrite Hs.
        apply andb_false_r. }
    destruct (update_no_transform dt scene m Hc) as (Hf & Hw & _ & Hp & Hr & _).
    destruct (IH (Meteor.update dt scene m)) as (Hf' & Hp' & Hr' & Hw').
    { destruct H as [H|H]; [left; congruence|right].
      inversion H; subst; assumption. }
    unfold meteorUpdates in *. simpl.
    split; [congruence|]. split; [congruence|]. split; congruence.
Qed.

(** [only_eligible_meteors_transform] on a meteor of a batch whose draws
    never fall below [FLAGSHIP_CHANCE], after a hundred frames. *)
Lemma only_eligible_meteors_transform_witness :
  Meteor.isFlagship
    (meteorUpdates (withScene (repeat 0.016 100)) (Meteor.new 0 1 (fun _ => 0.5) 0))
  = false.
Proof.
  destruct (only_eligible_meteors_transform
              (withScene (repeat 0.016 100)) (Meteor.new 0 1 (fun _ => 0.5) 0)
              (or_introl eq_refl)) as (H & _).
  rewrite H. reflexivity.
Defined.

Lemma meteorUpdates_app calls1 calls2 m :
  meteorUpdates (calls1 ++ calls2) m
  = meteorUpdates calls2 (meteorUpdates calls1 m).
Proof. unfold meteorUpdates. apply foldl_app. Qed.

Lemma flashed_below i : (i <= 60)%nat -> Qltb Config.FLAGSHIP_FLASH_DURATION (flashed i) = false.
Proof.
  intros Hi.
  assert (H : forallb (fun i => negb (Qltb Config.FLAGSHIP_FLASH_DURATION (flashed i)))
                      (seq 0 61) = true) by (vm_compute; reflexivity).
  rewrite forallb_forall in H. apply negb_true_iff. apply H. apply in_seq. lia.
Qed.

Lemma flashed_above : Qltb Config.FLAGSHIP_FLASH_DURATION (flashed 61) = true.
Proof. vm_compute. reflexivity. Qed.

Lemma flash_run steps :
  forall j m,
    active (Meteor.entity m) = true ->
    Meteor.willBecomeFlagship m = true ->
    Meteor.isFlagship m = false ->
    Meteor.flashTimer m = flashed j ->
    (j + length steps <= 60)%nat ->
    let m' := meteorUpdates (withScene steps) m in
    active (Meteor.entity m') = true
    /\ Meteor.willBecomeFlagship m' = true
    /\ Meteor.isFlagship m' = false
    /\ Meteor.flashTimer m' = flashed (j + length steps)
    /\ Meteor.points m' = Meteor.points m.
Proof.
  induction steps as [|dt steps IH]; intros j m Ha Hw Hf Ht Hlen; cbv zeta.
  - simpl. rewrite Nat.add_0_r. auto 10.
  - simpl in Hlen.
    destruct (update_flash dt m Ha Hw Hf) as (Ht1 & Hf1 & Hw1 & Ha1 & Hp1).
    rewrite Ht in Ht1, Hf1, Hp1.
    change (flashed j + 0.05) with (flashed (S j)) in Ht1, Hf1, Hp1.
    rewrite flashed_below in Hf1, Hp1 by lia.
    destruct (IH (S j) _ Ha1 Hw1 Hf1 Ht1) as (Ha2 & Hw2 & Hf2 & Ht2 & Hp2);
      [lia|].
    unfold meteorUpdates in *. simpl.
    split; [exact Ha2|]. split; [exact Hw2|]. split; [exact Hf2|].
    split; [|congruence].
    rewrite Ht2. f_equal. simpl. lia.
Qed.

(** X12. An eligible meteor turns into the flagship on its 61st update
    with a scene, not before: starting from a flash timer of zero, after any
    sequence of such updates it is a flagship, worth [SCORE_FLAGSHIP],
    exactly when the sequence has more than sixty of them; the time steps
    play no part. *)
Theorem eligible_meteor_transforms_on_61st_update steps m :
  active (Meteor.entity m) = true ->
  Meteor.willBecomeFlagship m = true ->
  Meteor.isFlagship m = false ->
  Meteor.flashTimer m = 0 ->
  let m' := meteorUpdates (withScene steps) m in
  Meteor.isFlagship m' = (60 <? length steps)%nat
  /\ Meteor.points m'
     = (if (60 <? length steps)%nat then Config.SCORE_FLAGSHIP
        else Meteor.points m).
Proof.
  intros Ha Hw Hf Ht. cbv zeta.
  destruct (60 <? length steps)%nat eqn:E.
  - apply Nat.ltb_lt in E.
    rewrite <- (firstn_skipn 60 steps).
    unfold withScene. rewrite map_app. fold (withScene (firstn 60 steps)).
    rewrite meteorUpdates_app.
    assert (Hlen : length (firstn 60 steps) = 60%nat)
      by (rewrite length_firstn; lia).
    destruct (flash_run (firstn 60 steps) 0 m Ha Hw Hf Ht)
      as (Ha1 & Hw1 & Hf1 & Ht1 & _);
      [rewrite Hlen; lia|].
    rewrite Hlen in Ht1. simpl Nat.add in Ht1.
    set (m60 := meteorUpdates (withScene (firstn 60 steps)) m) in *.
    destruct (skipn 60 steps) as [|dt rest] eqn:Es.
    { exfalso. apply (f_equal (@length Q)) in Es. rewrite length_skipn in Es.
      simpl in Es. lia. }
    simpl map.
    change (meteorUpdates ((dt, true) :: map (fun dt0 => (dt0, true)) rest) m60)
      with (meteorUpdates (map (fun dt0 => (dt0, true)) rest)
              (Meteor.update dt true m60)).
    assert (Hlt : Config.FLAGSHIP_FLASH_DURATION < Meteor.flashTimer m60 + 0.05).
    { rewrite Ht1. apply Qltb_lt.
      change (flashed 60 + 0.05) with (flashed 61). exact flashed_above. }
    destruct (update_transforms dt m60 Ha1 Hw1 Hf1 Hlt) as (Hf2 & Hp2 & _).
    destruct (meteorUpdates_flagship (map (fun dt0 => (dt0, true)) rest) _ Hf2)
      as (Hf3 & Hp3 & _).
    split; [exact Hf3|congruence].
  - apply Nat.ltb_ge in E.
    destruct (flash_run steps 0 m Ha Hw Hf Ht) as (_ & _ & Hf1 & _ & Hp1);
      [lia|].
    split; assumption.
Qed.

(** [eligible_meteor_transforms_on_61st_update] on an eligible meteor of a
    new batch: a rock worth 50 after sixty frames, the flagship worth 500
    after sixty-one. *)
Lemma eligible_meteor_transforms_on_61st_update_witness :
  let m := Meteor.new 0 1 (eligibleOracle 0.2) 0 in
  Meteor.points (meteorUpdates (withScene (repeat 0.016 60)) m) = 50%Z
  /\ Meteor.points (meteorUpdates (withScene (repeat 0.016 61)) m) = 500%Z.
Proof.
  cbv zeta. split.
  - destruct (eligible_meteor_transforms_on_61st_update (repeat 0.016 60)
                (Meteor.new 0 1 (eligibleOracle 0.2) 0)
                eq_refl eq_refl eq_refl eq_refl) as [_ H].
    rewrite H. reflexivity.
  - destruct (eligible_meteor_transforms_on_61st_update (repeat 0.016 61)
                (Meteor.new 0 1 (eligibleOracle 0.2) 0)
                eq_refl eq_refl eq_refl eq_refl) as [_ H].
    rewrite H. reflexivity.
Defined.
(** ** Bullets *)

Lemma bullet_update_active dt b :
  active (Bullet.entity b) = true ->
  let y1 := vy (position (Bullet.entity b)) + Bullet.speed b in
  fst (Bullet.update dt b) = negb (Qltb (Config.GAME_HEIGHT / 2) y1)
  /\ active (Bullet.entity (snd (Bullet.update dt b)))
     = negb (Qltb (Config.GAME_HEIGHT / 2) y1)
  /\ vy (position (Bullet.entity (snd (Bullet.update dt b)))) = y1
  /\ Bullet.speed (snd (Bullet.update dt b)) = Bullet.speed b
  /\ ref (Bullet.entity (snd (Bullet.update dt b))) = ref (Bullet.entity b).
Proof.
  intros Ha. unfold Bullet.update. rewrite Ha. simpl negb. cbv iota zeta.
  cbn [position EntityOps.with_position with_y vy].
  destruct (Qltb _ _); cbn; auto.
Qed.

Lemma bullet_update_inactive dt b :
  active (Bullet.entity b) = false -> Bullet.update dt b = (false, b).
Proof. intros Ha. unfold Bullet.update. rewrite Ha. reflexivity. Qed.

Lemma bulletUpdates_inactive n dt b :
  active (Bullet.entity b) = false -> bulletUpdates n dt b = b.
Proof.
  intros Ha. induction n as [|n IH]; [reflexivity|].
  unfold bulletUpdates in *. simpl. rewrite IH.
  rewrite bullet_update_inactive by exact Ha. reflexivity.
Qed.

Lemma bulletUpdates_S n dt b :
  bulletUpdates (S n) dt b = bulletUpdates n dt (snd (Bullet.update dt b)).
Proof.
  unfold bulletUpdates. induction n as [|n IH]; [reflexivity|].
  simpl in *. rewrite IH. reflexivity.
Qed.

Lemma bullet_leaves n :
  forall dt b,
    Bullet.speed b = Config.BULLET_SPEED ->
    Config.GAME_HEIGHT / 2 - vy (position (Bullet.entity b))
    < inject_Z (Z.of_nat (S n)) * Config.BULLET_SPEED ->
    active (Bullet.entity (bulletUpdates (S n) dt b)) = false.
Proof.
  induction n as [|n IH]; intros dt b Hs Hy;
    (destruct (active (Bullet.entity b)) eqn:Ha;
     [|rewrite bulletUpdates_inactive by exact Ha; exact Ha]);
    destruct (bullet_update_active dt b Ha) as (_ & Ha1 & Hy1 & Hs1 & _);
    cbv zeta in *; rewrite bulletUpdates_S.
  - simpl. rewrite Ha1. apply negb_false_iff. apply Qltb_lt.
    rewrite Hs. change (inject_Z (Z.of_nat 1)) with 1 in Hy. lra.
  - destruct (Qltb (Config.GAME_HEIGHT / 2)
                (vy (position (Bullet.entity b)) + Bullet.speed b)) eqn:E.
    + simpl negb in Ha1. rewrite bulletUpdates_inactive by exact Ha1. exact Ha1.
    + apply IH; [congruence|]. rewrite Hy1, Hs.
      rewrite Nat2Z.inj_succ in Hy. unfold Z.succ in Hy.
      rewrite inject_Z_plus in Hy. change (inject_Z 1) with 1 in Hy.
      revert Hy. generalize (inject_Z (Z.of_nat (S n))).
      generalize (vy (position (Bullet.entity b))).
      generalize (Config.GAME_HEIGHT / 2). unfold Config.BULLET_SPEED.
      intros. lra.
Qed.

(** X13. A bullet fired from inside the playfield is gone within
    [GAME_HEIGHT / BULLET_SPEED = 75] frames: it climbs by [BULLET_SPEED] per
    update, is deactivated by the update that takes it above the top of the
    playfield, and stays inactive. *)
Theorem bullet_leaves_the_playfield r start dt k :
  - Config.GAME_HEIGHT / 2 <= vy start ->
  (75 <= k)%nat ->
  let b := bulletUpdates k dt (Bullet.new r start) in
  active (Bullet.entity b) = false
  /\ Bullet.update dt b = (false, b).
Proof.
  intros Hy Hk. cbv zeta.
  assert (Ha : active (Bullet.entity (bulletUpdates k dt (Bullet.new r start)))
               = false).
  { destruct k as [|k]; [lia|]. apply bullet_leaves; [reflexivity|].
    simpl position. cbn [vy].
    assert (Hk' : 74 <= inject_Z (Z.of_nat k)).
    { change 74 with (inject_Z 74). rewrite <- Zle_Qle. lia. }
    rewrite Nat2Z.inj_succ. unfold Z.succ. rewrite inject_Z_plus.
    change (inject_Z 1) with 1.
    revert Hk' Hy. generalize (inject_Z (Z.of_nat k)). generalize (vy start).
    assert (E1 : - Config.GAME_HEIGHT / 2 == -30) by reflexivity.
    assert (E2 : Config.GAME_HEIGHT / 2 == 30) by reflexivity.
    revert E1 E2.
    generalize (- Config.GAME_HEIGHT / 2) (Config.GAME_HEIGHT / 2).
    unfold Config.BULLET_SPEED. intros. nra. }
  split; [exact Ha|]. apply bullet_update_inactive. exact Ha.
Qed.

(** [bullet_leaves_the_playfield] on a bullet fired from the ground. *)
Lemma bullet_leaves_the_playfield_witness :
  active (Bullet.entity
            (bulletUpdates 75 0.016 (Bullet.new 0 (mkVec3 0 (-26.5) 0))))
  = false.
Proof.
  apply (bullet_leaves_the_playfield 0 (mkVec3 0 (-26.5) 0) 0.016 75).
  - apply Qle_bool_iff. reflexivity.
  - lia.
Defined.
(** ** What the collision phase leaves alone *)

Section CollisionFrame.
Context {A : Type} (proj : Game.t -> A).
Hypothesis Hcb :
  forall cb g, proj (Game.GameStateManager.run_callback cb g) = proj g.
Hypothesis Hrec :
  forall n g, proj (Game.GameStateManager.record n g) = proj g.
Hypothesis Hst :
  forall s g, proj (Game.GameStateManager.with_state s g) = proj g.
Hypothesis Hlander : forall x g, proj (Game.with_lander x g) = proj g.
Hypothesis Hcursor : forall x g, proj (Game.with_cursor x g) = proj g.
Hypothesis Haudio : forall x g, proj (Game.with_audio x g) = proj g.
Hypothesis Hastronaut : forall x g, proj (Game.with_astronaut x g) = proj g.
Hypothesis Hexplosions : forall x g, proj (Game.with_explosions x g) = proj g.
Hypothesis Htimers : forall x g, proj (Game.with_timers x g) = proj g.
Hypothesis Hui : forall x g, proj (Game.with_ui x g) = proj g.
Hypothesis HnextRef : forall x g, proj (Game.with_nextRef x g) = proj g.
Hypothesis Hevents :
  forall x g, proj (Game.with_collisionEvents x g) = proj g.

Local Ltac frame :=
  repeat first
    [ rewrite Hlander | rewrite Hcursor | rewrite Haudio | rewrite Hastronaut
    | rewrite Hexplosions | rewrite Htimers | rewrite Hui | rewrite HnextRef
    | rewrite Hevents
    | rewrite (addScore_frame proj Hcb Hrec Hst)
    | rewrite (refillFuel_frame proj Hcb Hrec Hst)
    | rewrite (notify_frame proj Hcb Hrec)
    | rewrite (set_frame proj Hcb Hrec Hst) ].

Lemma createExplosion_frame p g : proj (Game.createExplosion p g) = proj g.
Proof. unfold Game.createExplosion. cbv zeta. frame. reflexivity. Qed.

Lemma dispatch_frame events g : proj (Game.dispatch events g) = proj g.
Proof. unfold Game.dispatch. frame. reflexivity. Qed.

Lemma game_loseLife_frame g : proj (Game.loseLife g) = proj g.
Proof.
  unfold Game.loseLife, Game.gameOver, Game.setTimeout, Game.uiCall,
    Game.GameStateManager.loseLife, Game.play.
  cbv zeta.
  destruct (negb _); frame;
    (destruct (Game.lander _);
     [rewrite createExplosion_frame|]; frame; reflexivity).
Qed.

Lemma land_frame pad g : proj (Game.land pad g) = proj g.
Proof.
  unfold Game.land, Game.createAstronaut, Game.on_lander, Game.play.
  cbv zeta. frame. reflexivity.
Qed.

Lemma rescueAstronaut_frame g :
  proj (Game.GameStateManager.rescueAstronaut g) = proj g.
Proof.
  unfold Game.GameStateManager.rescueAstronaut. cbv zeta.
  destruct (_ =? _)%Z; frame; reflexivity.
Qed.

Lemma dock_frame g : proj (Game.dock g) = proj g.
Proof.
  unfold Game.dock, Game.on_lander, Game.play. cbv zeta. frame.
  destruct (Game.get GameState.k_hasAstronaut _); frame;
    [rewrite rescueAstronaut_frame|]; frame; reflexivity.
Qed.
End CollisionFrame.

(** ** The bullet pool *)

Lemma bullets_run_callback cb g :
  Game.bullets (Game.GameStateManager.run_callback cb g) = Game.bullets g.
Proof. destruct cb; reflexivity. Qed.

Lemma spliceRef_sublist {A : Type} (refOf : A -> nat) r (l : list A) :
  sublist (Game.spliceRef refOf r l) l.
Proof.
  induction l as [|x l IH]; simpl; [constructor|].
  destruct (_ =? _)%nat; [apply sublist_cons|apply sublist_skip]; auto.
Qed.

Lemma Forall_sublist_of {A : Type} (P : A -> Prop) (l1 l2 : list A) :
  sublist l1 l2 -> Forall P l2 -> Forall P l1.
Proof.
  induction 1 as [|x l1 l2 _ IH|x l1 l2 _ IH]; intros HP;
    [constructor| |]; inversion HP; subst; [constructor|]; auto.
Qed.

Lemma bullets_resolveBulletHit hit g :
  sublist (Game.bullets (Game.resolveBulletHit hit g)) (Game.bullets g).
Proof.
  destruct hit as [b m]. unfold Game.resolveBulletHit. cbv zeta.
  change (Game.bullets (Game.with_meteors ?x ?g)) with (Game.bullets g).
  change (Game.bullets (Game.with_bullets ?x ?g)) with x.
  rewrite (addScore_frame Game.bullets); try reflexivity;
    [|apply bullets_run_callback].
  apply spliceRef_sublist.
Qed.

Lemma bullets_resolve_all hits :
  forall g,
    sublist (Game.bullets
               (foldl (fun g hit => Game.resolveBulletHit hit g) g hits))
            (Game.bullets g).
Proof.
  induction hits as [|hit hits IH]; intros g; simpl; [reflexivity|].
  etransitivity; [apply IH|apply bullets_resolveBulletHit].
Qed.

Local Ltac bullets_frame L :=
  rewrite (L _ Game.bullets) by
    first [ apply bullets_run_callback | reflexivity ].

Lemma bullets_checkCollisions g :
  sublist (Game.bullets (Game.checkCollisions g)) (Game.bullets g).
Proof.
  unfold Game.checkCollisions. cbv zeta.
  destruct (Game.get GameState.k_phase g); try reflexivity;
    (destruct (Game.lander g) as [l|]; [|reflexivity]);
    (destruct (CollisionSystem.checkLanderMeteorCollision l (Game.meteors g))
       as [[m|] ev1];
     [bullets_frame @game_loseLife_frame; reflexivity|]);
    (destruct (CollisionSystem.checkBoundaryCollision l) as [[|] ev2];
     [bullets_frame @game_loseLife_frame; reflexivity|]);
    destruct (CollisionSystem.checkBulletMeteorCollisions _ _) as [hits ev3].
  - destruct (CollisionSystem.checkLandingPadCollision _ _) as [[pad|] ev4].
    + bullets_frame @land_frame.
      etransitivity; [apply bullets_resolve_all|reflexivity].
    + destruct (CollisionSystem.checkGroundCollision _ _) as [[|] ev5];
        [bullets_frame @game_loseLife_frame|];
        (etransitivity; [apply bullets_resolve_all|reflexivity]).
  - destruct (CollisionSystem.checkDockingCollision _ _) as [[|] ev4];
      [bullets_frame @dock_frame|];
      (etransitivity; [apply bullets_resolve_all|reflexivity]).
Qed.

Lemma bullet_update_alive dt b :
  fst (Bullet.update dt b) = true ->
  bulletActive (snd (Bullet.update dt b)) = true.
Proof.
  unfold Bullet.update, bulletActive.
  destruct (active (Bullet.entity b)) eqn:Ha; simpl; [|discriminate].
  destruct (Qltb _ _); simpl; [discriminate|]. intros _. exact Ha.
Qed.

Lemma updateBullets_spec dt g :
  Game.bullets (Game.updateBullets dt g)
  = omap (fun b => if fst (Bullet.update dt b)
                   then Some (snd (Bullet.update dt b)) else None)
         (Game.bullets g).
Proof.
  unfold Game.updateBullets.
  change (Game.bullets (Game.with_bullets ?x ?g)) with x.
  induction (Game.bullets g) as [|b l IH]; [reflexivity|].
  simpl. rewrite IH. destruct (Bullet.update dt b) as [[|] b']; reflexivity.
Qed.

Lemma updateBullets_active dt g :
  Forall (fun b => bulletActive b = true)
         (Game.bullets (Game.updateBullets dt g)).
Proof.
  rewrite updateBullets_spec.
  induction (Game.bullets g) as [|b l IH]; simpl; [constructor|].
  destruct (fst (Bullet.update dt b)) eqn:E; [|exact IH].
  constructor; [apply bullet_update_alive; exact E|exact IH].
Qed.

Lemma updateBullets_length dt g :
  (length (Game.bullets (Game.updateBullets dt g))
   <= length (Game.bullets g))%nat.
Proof.
  rewrite updateBullets_spec.
  induction (Game.bullets g) as [|b l IH]; [reflexivity|].
  cbn [omap list_omap]. destruct (fst (Bullet.update dt b));
    cbn [length]; cbn [omap list_omap] in IH; lia.
Qed.

Lemma bullets_before_updateBullets dt1 dt2 dt3 g :
  Game.bullets
    (Game.updateAstronaut dt3 (Game.updateMeteors dt2 (Game.updateLander dt1 g)))
  = Game.bullets g.
Proof.
  rewrite (updateAstronaut_frame Game.bullets) by
    first [ apply bullets_run_callback | reflexivity ].
  unfold Game.updateMeteors.
  change (Game.bullets (Game.with_meteors ?x ?g)) with (Game.bullets g).
  apply (updateLander_frame Game.bullets);
    first [ apply bullets_run_callback | reflexivity ].
Qed.

(** X14. A frame of a running game never adds a bullet, and every bullet
    it leaves in the pool is active: the ones that left the playfield are
    spliced out by [updateBullets] and the ones that hit a meteor by
    [checkCollisions]. *)
Theorem frame_prunes_bullets t g :
  simulated (phaseOf g) = true ->
  let g' := Game.gameLoop t g in
  Forall (fun b => bulletActive b = true) (Game.bullets g')
  /\ (length (Game.bullets g') <= length (Game.bullets g))%nat.
Proof.
  intros Hsim g'. subst g'. rewrite gameLoop_checks by exact Hsim.
  pose proof (bullets_checkCollisions (beforeChecks t g)) as Hsub.
  unfold beforeChecks in *. cbv zeta in *.
  set (dt := if Qeq_bool _ _ then _ else _) in *.
  set (g1 := Game.updateAstronaut dt _) in *.
  change (Game.bullets (Game.updateExplosions dt (Game.updateBullets dt g1)))
    with (Game.bullets (Game.updateBullets dt g1)) in Hsub.
  split.
  - eapply Forall_sublist_of; [exact Hsub|]. apply updateBullets_active.
  - apply sublist_length in Hsub. etransitivity; [exact Hsub|].
    etransitivity; [apply updateBullets_length|].
    subst g1. rewrite bullets_before_updateBullets. reflexivity.
Qed.
(** [frame_prunes_bullets] on a frame in which one of two bullets leaves the
    playfield. *)
Lemma frame_prunes_bullets_witness :
  Forall (fun b => bulletActive b = true)
         (Game.bullets (Game.gameLoop 16 twoBullets))
  /\ (length (Game.bullets (Game.gameLoop 16 twoBullets)) <= 2)%nat.
Proof.
  apply (frame_prunes_bullets 16 twoBullets). vm_compute. reflexivity.
Defined.

(** X15. The fire key adds at most one bullet, behind those in flight, never
    takes the pool above [MAX_BULLETS], and does nothing at all outside the
    Ascent phase or on release. *)
Theorem fire_respects_pool pressed g :
  (length (Game.bullets g) <= Config.MAX_BULLETS)%nat ->
  let g' := Game.handleSpacePress pressed g in
  (length (Game.bullets g') <= Config.MAX_BULLETS)%nat
  /\ (length (Game.bullets g') <= S (length (Game.bullets g)))%nat
  /\ Game.bullets g `prefix_of` Game.bullets g'
  /\ (pressed = false \/ phaseOf g <> Config.ASCENT -> g' = g).
Proof.
  intros Hlen g'. subst g'. unfold Game.handleSpacePress.
  destruct (pressed && _) eqn:E.
  - apply andb_true_iff in E. destruct E as [-> E]. apply phase_eqb_eq in E.
    unfold Game.createBullet.
    destruct (_ <=? _)%nat eqn:Efull.
    + repeat split; auto.
    + apply Nat.leb_gt in Efull.
      destruct (Game.lander g) as [l|].
      * cbv zeta. unfold Game.play.
        change (Game.bullets (Game.with_audio ?a ?g)) with (Game.bullets g).
        change (Game.bullets (Game.with_bullets ?x ?g)) with x.
        change (Game.bullets (Game.with_nextRef ?a ?g)) with (Game.bullets g).
        rewrite length_app. simpl length.
        split; [lia|]. split; [lia|]. split; [apply prefix_app_r; reflexivity|].
        intros [|H]; [discriminate|]. exfalso. apply H. exact E.
      * repeat split; auto.
  - repeat split; auto.
Qed.

(** [fire_respects_pool] on a pool that is already full. *)
Lemma fire_respects_pool_witness :
  let g :=
    Game.with_bullets
      (map (fun i => Bullet.new i (mkVec3 0 0 0)) (seq 0 Config.MAX_BULLETS))
      twoBullets in
  (length (Game.bullets (Game.handleSpacePress true g))
   <= Config.MAX_BULLETS)%nat.
Proof.
  intros g. apply (fire_respects_pool true g). vm_compute. lia.
Defined.

(** ** Explosions *)

Lemma updateParticle_life p c :
  Explosion.life p == c -> 0 < c ->
  Explosion.life (Explosion.updateParticle p) == c - 0.02.
Proof.
  intros Hc Hpos. unfold Explosion.updateParticle.
  destruct (Qle_bool (Explosion.life p) 0) eqn:E.
  - apply Qle_bool_iff in E. lra.
  - simpl. lra.
Qed.

Lemma explosion_update_live dt x c :
  Explosion.active x = true ->
  Explosion.particles x <> [] ->
  Forall (fun p => Explosion.life p == c) (Explosion.particles x) ->
  0 < c ->
  let x' := snd (Explosion.update dt x) in
  fst (Explosion.update dt x) = true
  /\ Explosion.active x' = true
  /\ Explosion.particles x' <> []
  /\ Forall (fun p => Explosion.life p == c - 0.02) (Explosion.particles x').
Proof.
  intros Ha Hne Hall Hc. unfold Explosion.update. rewrite Ha. simpl negb.
  cbv iota zeta.
  assert (Hd : forallb (fun p => Qle_bool (Explosion.life p) 0)
                       (Explosion.particles x) = false).
  { destruct (Explosion.particles x) as [|p ps]; [congruence|].
    inversion Hall; subst. simpl.
    assert (E : Qle_bool (Explosion.life p) 0 = false)
      by (apply Qle_bool_gt; lra).
    rewrite E. reflexivity. }
  rewrite Hd. simpl. repeat split; auto.
  - destruct (Explosion.particles x); [congruence|discriminate].
  - apply Forall_map. eapply Forall_impl; [exact Hall|].
    intros p Hp. simpl. apply updateParticle_life; assumption.
Qed.

Lemma explosion_update_dead dt x :
  Explosion.active x = true ->
  Forall (fun p => Explosion.life p <= 0) (Explosion.particles x) ->
  fst (Explosion.update dt x) = false
  /\ Explosion.active (snd (Explosion.update dt x)) = false.
Proof.
  intros Ha Hall. unfold Explosion.update. rewrite Ha. simpl negb.
  cbv iota zeta.
  assert (Hd : forallb (fun p => Qle_bool (Explosion.life p) 0)
                       (Explosion.particles x) = true).
  { induction Hall as [|p ps Hp _ IH]; [reflexivity|]. simpl.
    apply Qle_bool_iff in Hp. rewrite Hp. exact IH. }
  rewrite Hd. split; reflexivity.
Qed.

Lemma explosion_update_inactive dt x :
  Explosion.active x = false -> Explosion.update dt x = (false, x).
Proof. intros Ha. unfold Explosion.update. rewrite Ha. reflexivity. Qed.

Lemma explosionUpdates_S n dt x :
  explosionUpdates (S n) dt x
  = snd (Explosion.update dt (explosionUpdates n dt x)).
Proof. reflexivity. Qed.

Lemma explosion_alive position count rnd k dt n :
  (0 < count)%nat -> (n <= 50)%nat ->
  let x := explosionUpdates n dt (Explosion.new position count rnd k) in
  Explosion.active x = true
  /\ Explosion.particles x <> []
  /\ Forall (fun p => Explosion.life p == 1 - inject_Z (Z.of_nat n) * 0.02)
            (Explosion.particles x).
Proof.
  intros Hcount. induction n as [|n IH]; intros Hn; cbv zeta.
  - split; [reflexivity|]. split.
    + simpl. unfold Explosion.createParticles.
      destruct count; [lia|]. discriminate.
    + simpl. unfold Explosion.createParticles. apply Forall_map.
      apply Forall_forall. intros i _. reflexivity.
  - destruct IH as (Ha & Hne & Hall); [lia|].
    rewrite explosionUpdates_S.
    assert (Hpos : 0 < 1 - inject_Z (Z.of_nat n) * 0.02).
    { assert (Hq : inject_Z (Z.of_nat n) <= 49).
      { change 49 with (inject_Z 49). rewrite <- Zle_Qle. lia. }
      revert Hq. generalize (inject_Z (Z.of_nat n)). intros. lra. }
    destruct (explosion_update_live dt _ _ Ha Hne Hall Hpos)
      as (_ & Ha' & Hne' & Hall').
    split; [exact Ha'|]. split; [exact Hne'|].
    eapply Forall_impl; [exact Hall'|]. intros p Hp. cbv beta in *.
    rewrite Hp. rewrite Nat2Z.inj_succ. unfold Z.succ.
    rewrite inject_Z_plus. change (inject_Z 1) with 1.
    generalize (inject_Z (Z.of_nat n)). intros. ring.
Qed.

Lemma explosion_spent position count rnd k dt n :
  (0 < count)%nat -> n = 50%nat ->
  let x := explosionUpdates n dt (Explosion.new position count rnd k) in
  fst (Explosion.update dt x) = false
  /\ Explosion.active (snd (Explosion.update dt x)) = false.
Proof.
  intros Hcount Hn.
  destruct (explosion_alive position count rnd k dt n Hcount
              ltac:(lia)) as (Ha & _ & Hall).
  cbv zeta. apply explosion_update_dead; [exact Ha|].
  eapply Forall_impl; [exact Hall|]. intros p Hp. cbv beta in Hp.
  rewrite Hp. subst n. apply Qle_bool_iff. reflexivity.
Qed.

Lemma explosion_gone position count rnd k dt m :
  (0 < count)%nat ->
  forall n, n = (51 + m)%nat ->
  Explosion.active
    (explosionUpdates n dt (Explosion.new position count rnd k)) = false.
Proof.
  intros Hcount. induction m as [|m IH]; intros n Hn.
  - destruct n as [|n]; [lia|]. rewrite explosionUpdates_S.
    apply explosion_spent; [exact Hcount|lia].
  - destruct n as [|n]; [lia|].
    rewrite explosionUpdates_S, explosion_update_inactive;
      apply IH; lia.
Qed.

(** X16. An explosion with at least one particle lives for exactly
    fifty updates, wherever it is and whatever its particles drew: each of
    the first fifty returns [true], the fifty-first finds every particle
    spent, returns [false] and deactivates it, and every later update
    returns [false] and changes nothing. *)
Theorem explosion_lasts_fifty_updates position count rnd k dt n :
  (0 < count)%nat ->
  let x := explosionUpdates n dt (Explosion.new position count rnd k) in
  fst (Explosion.update dt x) = (n <? 50)%nat
  /\ ((50 < n)%nat -> Explosion.update dt x = (false, x)).
Proof.
  intros Hcount x. subst x.
  destruct (Nat.ltb_spec n 50) as [Hn|Hn].
  - split; [|lia].
    destruct (explosion_alive position count rnd k dt n Hcount
                ltac:(lia)) as (Ha & Hne & Hall).
    assert (Hpos : 0 < 1 - inject_Z (Z.of_nat n) * 0.02).
    { assert (Hq : inject_Z (Z.of_nat n) <= 49).
      { change 49 with (inject_Z 49). rewrite <- Zle_Qle. lia. }
      revert Hq. generalize (inject_Z (Z.of_nat n)). intros. lra. }
    apply (explosion_update_live dt _ _ Ha Hne Hall Hpos).
  - destruct (Nat.eq_dec n 50%nat) as [E|E].
    + split; [|lia]. apply explosion_spent; assumption.
    + rewrite explosion_update_inactive
        by (apply (explosion_gone position count rnd k dt (n - 51) Hcount);
            lia).
      split; [reflexivity|]. intros _. reflexivity.
Qed.

(** [explosion_lasts_fifty_updates] on the explosion of a bullet hit. *)
Lemma explosion_lasts_fifty_updates_witness :
  fst (Explosion.update 0.016
         (explosionUpdates 3 0.016
            (Explosion.new (mkVec3 0 0 0) 20 (fun _ => 0.5) 0)))
  = true.
Proof.
  apply (explosion_lasts_fifty_updates (mkVec3 0 0 0) 20 (fun _ => 0.5) 0
           0.016 3).
  lia.
Defined.
(** ** What a write leaves in the state *)

(** For a key whose strict equality is Leibniz equality, [set] leaves the
    state with the value written, whether or not it notified. *)
Lemma state_set_exact {B : Type} (key : GameState.Key B) v g :
  (forall a b, GameState.same key a b = true -> a = b) ->
  (forall s, GameState.write key (GameState.read key s) s = s) ->
  Game.state (Game.GameStateManager.set key v g)
  = GameState.write key v (Game.state g).
Proof.
  intros Hsame Heta. rewrite state_set.
  destruct (GameState.same key _ v) eqn:E; [|reflexivity].
  apply Hsame in E. rewrite <- E. symmetry. apply Heta.
Qed.

Local Ltac key_facts :=
  first [ let H := fresh in
          intros ? ? H;
          first [ apply phase_eqb_eq | apply Z.eqb_eq | apply Bool.eqb_prop ];
          exact H
        | intros []; reflexivity ].

Local Ltac write_state :=
  repeat first
    [ rewrite (state_set_exact GameState.k_phase) by key_facts
    | rewrite (state_set_exact GameState.k_score) by key_facts
    | rewrite (state_set_exact GameState.k_lives) by key_facts
    | rewrite (state_set_exact GameState.k_astronautsRescued) by key_facts
    | rewrite (state_set_exact GameState.k_hasAstronaut) by key_facts
    | rewrite (state_set_exact GameState.k_level) by key_facts ].

(** The fuel is compared as a number: [set] leaves a fuel equal to the value
    written. *)
Lemma state_set_fuel v g :
  exists v', v' == v
    /\ Game.state (Game.GameStateManager.set GameState.k_fuel v g)
       = GameState.write GameState.k_fuel v' (Game.state g).
Proof.
  rewrite state_set. simpl GameState.same. simpl GameState.read.
  destruct (Qeq_bool (GameState.fuel (Game.state g)) v) eqn:E.
  - exists (GameState.fuel (Game.state g)). split.
    + apply Qeq_bool_eq. exact E.
    + destruct (Game.state g); reflexivity.
  - exists v. split; reflexivity.
Qed.

(** ** Life loss with lives to spare *)

(** X17. Losing a life while at least two are left takes one life and
    schedules the reset one second later, and does nothing else to the
    state or the lander: the phase, the score and the fuel stay as they are,
    and the lander is not moved before the timer fires. *)
Theorem life_loss_defers_the_reset g :
  (2 <= livesOf g)%Z ->
  let g' := Game.loseLife g in
  Game.state g'
  = GameState.write GameState.k_lives (livesOf g - 1)%Z (Game.state g)
  /\ Game.lander g' = Game.lander g
  /\ Game.timers g'
     = Game.timers g ++ [Game.mkTimer Game.ResetForNextAttempt 1000].
Proof.
  intros Hl g'. subst g'. unfold Game.loseLife. cbv zeta.
  set (g1 := match Game.lander (Game.play "explosion" g) with
             | Some l => Game.createExplosion (Lander.pos l) (Game.play "explosion" g)
             | None => Game.play "explosion" g
             end).
  assert (H1 : Game.state g1 = Game.state g /\ Game.timers g1 = Game.timers g
               /\ Game.lander g1 = Game.lander g).
  { subst g1. change (Game.lander (Game.play "explosion" g)) with (Game.lander g).
    destruct (Game.lander g) eqn:E; repeat split; try reflexivity; exact E. }
  destruct H1 as (Hs1 & Ht1 & Hl1).
  unfold Game.GameStateManager.loseLife. cbv zeta.
  assert (Hpos : (0 <? GameState.lives (Game.state g1) - 1)%Z = true).
  { rewrite Hs1. apply Z.ltb_lt. unfold livesOf in Hl. lia. }
  rewrite Hpos. simpl negb. cbv iota. unfold Game.setTimeout.
  change (Game.state (Game.with_timers ?x ?h)) with (Game.state h).
  change (Game.lander (Game.with_timers ?x ?h)) with (Game.lander h).
  change (Game.timers (Game.with_timers ?x ?h)) with x.
  write_state. rewrite lander_set, timers_set, Hs1, Hl1, Ht1.
  repeat split; auto.
Qed.

(** [life_loss_defers_the_reset] on a fresh game, with three lives. *)
Lemma life_loss_defers_the_reset_witness :
  let g := startedWith (mkKeys false false false false) in
  Game.timers (Game.loseLife g)
  = Game.timers g ++ [Game.mkTimer Game.ResetForNextAttempt 1000].
Proof.
  intros g. apply (life_loss_defers_the_reset g). vm_compute. discriminate.
Defined.
(** ** The deferred reset *)

(** X18. The reset that a life loss schedules puts the game into the
    Descent phase whatever phase it finds, the one of a game that ended in
    the meantime included: it returns the lander to its start, drops the
    astronaut, refills the tank, and leaves lives and score as they are. *)
Theorem deferred_reset_restarts_the_descent g :
  0 <= fuelOf g ->
  let g' := Game.run_timer Game.ResetForNextAttempt g in
  phaseOf g' = Config.DESCENT
  /\ GameState.hasAstronaut (Game.state g') = false
  /\ fuelOf g' == Config.FUEL_MAX
  /\ livesOf g' = livesOf g
  /\ GameState.score (Game.state g') = GameState.score (Game.state g)
  /\ Game.lander g' = Lander.reset <$> Game.lander g
  /\ Game.astronaut g' = None.
Proof.
  intros Hfuel g'. subst g'. unfold Game.run_timer. cbv zeta.
  unfold Game.GameStateManager.refillFuel.
  set (g2 := Game.GameStateManager.set GameState.k_hasAstronaut false
               (Game.GameStateManager.set GameState.k_phase Config.DESCENT g)).
  assert (Hs2 : Game.state g2
                = GameState.write GameState.k_hasAstronaut false
                    (GameState.write GameState.k_phase Config.DESCENT
                       (Game.state g))).
  { subst g2. write_state. reflexivity. }
  assert (Hl2 : Game.lander g2 = Game.lander g).
  { subst g2. rewrite !lander_set. reflexivity. }
  set (g3 := Game.on_lander Lander.reset g2).
  change (Game.state g3) with (Game.state g2).
  destruct (state_set_fuel
              (Qmin Config.FUEL_MAX
                 (GameState.fuel (Game.state g2) + Config.FUEL_MAX)) g3)
    as (v' & Hv' & Hs4).
  set (g4 := Game.GameStateManager.set GameState.k_fuel _ g3) in *.
  unfold phaseOf, fuelOf, livesOf.
  change (Game.state (Game.with_astronaut None g4)) with (Game.state g4).
  change (Game.lander (Game.with_astronaut None g4)) with (Game.lander g4).
  rewrite Hs4. change (Game.state g3) with (Game.state g2). rewrite Hs2.
  cbn [GameState.write GameState.read GameState.k_fuel GameState.k_phase
       GameState.k_hasAstronaut GameState.phase GameState.hasAstronaut
       GameState.fuel GameState.lives GameState.score].
  split; [reflexivity|]. split; [reflexivity|]. split.
  { rewrite Hv', Hs2. cbn [GameState.write GameState.k_hasAstronaut
      GameState.k_phase GameState.fuel].
    unfold fuelOf in Hfuel. apply Q.min_l.
    revert Hfuel. generalize (GameState.fuel (Game.state g)).
    unfold Config.FUEL_MAX. intros. lra. }
  split; [reflexivity|]. split; [reflexivity|]. split; [|reflexivity].
  subst g4. rewrite lander_set. subst g3. rewrite lander_on_lander, Hl2.
  reflexivity.
Qed.

(** [deferred_reset_restarts_the_descent] on a game that ended before the
    timer fired. *)
Lemma deferred_reset_restarts_the_descent_witness :
  let g := inPhase Config.GAME_OVER (midGame 0 1 0 40) in
  phaseOf (Game.run_timer Game.ResetForNextAttempt g) = Config.DESCENT
  /\ livesOf (Game.run_timer Game.ResetForNextAttempt g) = 0%Z.
Proof.
  intros g.
  destruct (deferred_reset_restarts_the_descent g) as (Hp & _ & _ & Hl & _).
  - apply Qle_bool_iff. vm_compute. reflexivity.
  - split; [exact Hp|]. rewrite Hl. vm_compute. reflexivity.
Defined.
(** ** Landing and docking *)

Lemma checkCollisions_clear g l :
  clearOfHazards g l ->
  exists events,
    let g0 := Game.with_collisionEvents events g in
    Game.checkCollisions g
    = match phaseOf g with
      | Config.DESCENT =>
          let '(pad, events) :=
            CollisionSystem.checkLandingPadCollision l (Game.landingPads g) in
          let g := Game.dispatch events g0 in
          match pad with
          | Some pad => Game.land pad g
          | None =>
              let '(crashed, events) :=
                CollisionSystem.checkGroundCollision l (Game.landingPads g) in
              let g := Game.dispatch events g in
              if crashed then Game.loseLife g else g
          end
      | Config.ASCENT =>
          let '(docked, events) :=
            CollisionSystem.checkDockingCollision l (Game.mothership g) in
          let g := Game.dispatch events g0 in
          if docked then Game.dock g else g
      | _ => g
      end.
Proof.
  intros (Hl & Hm & Hb & Hh). unfold Game.checkCollisions. cbv zeta.
  change (Game.get GameState.k_phase g) with (phaseOf g).
  rewrite Hl.
  destruct (CollisionSystem.checkLanderMeteorCollision l (Game.meteors g))
    as [hit ev1]. cbn [fst] in Hm. subst hit.
  unfold CollisionSystem.checkBoundaryCollision. rewrite Hb.
  change (Game.bullets (Game.dispatch ?e ?h)) with (Game.bullets h).
  change (Game.meteors (Game.dispatch ?e ?h)) with (Game.meteors h).
  destruct (CollisionSystem.checkBulletMeteorCollisions _ _) as [hits ev3].
  cbn [fst] in Hh. subst hits. cbn [foldl].
  exists (((Game.collisionEvents g ++ ev1) ++ []) ++ ev3).
  cbv zeta. destruct (phaseOf g); reflexivity.
Qed.

Lemma land_spec pad g l :
  Game.lander g = Some l ->
  let g' := Game.land pad g in
  phaseOf g' = Config.LANDED
  /\ landerX g' = vx (Lander.pos l)
  /\ landerY g' = - Config.GAME_HEIGHT / 2 + 3.5
  /\ landerVy g' = 0
  /\ fuelOf g' == Qmin Config.FUEL_MAX (fuelOf g + Config.FUEL_REFILL_ON_LAND)
  /\ scoreOf g' = (scoreOf g + Config.SCORE_LANDING)%Z
  /\ livesOf g' = livesOf g
  /\ exists r,
       Game.astronaut g' = Some (Astronaut.new r (LandingPad.padX pad)).
Proof.
  intros Hl g'. subst g'. unfold Game.land. cbv zeta.
  unfold Game.GameStateManager.refillFuel, Game.GameStateManager.addScore.
  set (g2 := Game.GameStateManager.set GameState.k_phase Config.LANDED
               (Game.play "land" g)).
  assert (Hs2 : Game.state g2
                = GameState.write GameState.k_phase Config.LANDED
                    (Game.state g)).
  { subst g2. write_state. reflexivity. }
  assert (Hl2 : Game.lander g2 = Some l).
  { subst g2. rewrite lander_set. exact Hl. }
  set (g4 := Game.on_lander _ (Game.on_lander _ g2)).
  assert (Hs4 : Game.state g4 = Game.state g2) by reflexivity.
  set (l4 := Lander.on_entity (EntityOps.with_velocity (mkVec3 0 0 0))
               (Lander.on_entity
                  (EntityOps.setPosition (vx (Lander.pos l))
                     (- Config.GAME_HEIGHT / 2 + 3.5) 0) l)).
  assert (Hl4 : Game.lander g4 = Some l4).
  { subst g4. rewrite !lander_on_lander, Hl2. reflexivity. }
  destruct (state_set_fuel
              (Qmin Config.FUEL_MAX
                 (GameState.fuel (Game.state g4) + Config.FUEL_REFILL_ON_LAND))
              g4) as (v' & Hv' & Hs5).
  set (g5 := Game.GameStateManager.set GameState.k_fuel _ g4) in *.
  assert (Hl5 : Game.lander g5 = Some l4).
  { subst g5. rewrite lander_set. exact Hl4. }
  set (g6 := Game.GameStateManager.set GameState.k_score _ g5).
  assert (Hs6 : Game.state g6
                = GameState.write GameState.k_score
                    (GameState.score (Game.state g5)
                     + Config.SCORE_LANDING)%Z (Game.state g5)).
  { subst g6. write_state. reflexivity. }
  assert (Hl6 : Game.lander g6 = Some l4).
  { subst g6. rewrite lander_set. exact Hl5. }
  unfold phaseOf, landerX, landerY, landerVy, fuelOf, scoreOf, livesOf,
    Game.createAstronaut.
  cbv zeta.
  change (Game.state (Game.with_nextRef ?a (Game.with_astronaut ?b g6)))
    with (Game.state g6).
  change (Game.lander (Game.with_nextRef ?a (Game.with_astronaut ?b g6)))
    with (Game.lander g6).
  rewrite Hl6, Hs6, Hs5, Hs4, Hs2.
  cbn [GameState.write GameState.read GameState.k_fuel GameState.k_phase
       GameState.k_score GameState.phase GameState.score
       GameState.fuel GameState.lives].
  split; [reflexivity|]. split; [reflexivity|]. split; [reflexivity|].
  split; [reflexivity|]. split; [rewrite Hv', Hs4, Hs2; reflexivity|].
  split; [reflexivity|]. split; [reflexivity|].
  eexists. reflexivity.
Qed.

(** X19. In the Descent phase a lander that is clear of meteors and
    boundaries, at ground level and over a pad lands: the phase becomes
    Landed, the lander is put to rest on the pad at its own abscissa, the
    tank gets [FUEL_REFILL_ON_LAND] up to [FUEL_MAX], the score gets
    [SCORE_LANDING], no life is lost and the pad's astronaut appears. *)
Theorem landing_on_a_pad g l pad :
  phaseOf g = Config.DESCENT ->
  clearOfHazards g l ->
  Lander.isAtGroundLevel l = true ->
  CollisionSystem.firstPadUnder (vx (Lander.pos l)) (Game.landingPads g)
  = Some pad ->
  let g' := Game.checkCollisions g in
  phaseOf g' = Config.LANDED
  /\ landerX g' = landerX g
  /\ landerY g' = - Config.GAME_HEIGHT / 2 + 3.5
  /\ landerVy g' = 0
  /\ fuelOf g' == Qmin Config.FUEL_MAX (fuelOf g + Config.FUEL_REFILL_ON_LAND)
  /\ scoreOf g' = (scoreOf g + Config.SCORE_LANDING)%Z
  /\ livesOf g' = livesOf g
  /\ exists r,
       Game.astronaut g' = Some (Astronaut.new r (LandingPad.padX pad)).
Proof.
  intros Hp Hclear Hground Hpad g'. subst g'.
  destruct (checkCollisions_clear g l Hclear) as [events Hc].
  cbv zeta in Hc. rewrite Hc, Hp.
  unfold CollisionSystem.checkLandingPadCollision.
  rewrite Hground, Hpad. simpl negb. cbv iota.
  destruct Hclear as (Hl & _).
  unfold landerX at 2. rewrite Hl.
  apply (land_spec pad
           (Game.dispatch _ (Game.with_collisionEvents events g)) l).
  exact Hl.
Qed.

(** [landing_on_a_pad] on a lander that comes down over the middle pad. *)
Lemma landing_on_a_pad_witness :
  phaseOf (Game.checkCollisions overMiddlePad) = Config.LANDED
  /\ scoreOf (Game.checkCollisions overMiddlePad) = 100%Z.
Proof.
  destruct (Game.lander overMiddlePad) as [l|] eqn:El;
    [|vm_compute in El; discriminate].
  destruct (CollisionSystem.firstPadUnder (vx (Lander.pos l))
              (Game.landingPads overMiddlePad)) as [pad|] eqn:Ep;
    [|vm_compute in El; injection El as <-; vm_compute in Ep; discriminate].
  assert (Hc : clearOfHazards overMiddlePad l).
  { split; [exact El|].
    vm_compute in El; injection El as <-.
    repeat split; vm_compute; reflexivity. }
  assert (Hg : Lander.isAtGroundLevel l = true).
  { vm_compute in El; injection El as <-. vm_compute. reflexivity. }
  destruct (landing_on_a_pad overMiddlePad l pad eq_refl Hc Hg Ep)
    as (Hp & _ & _ & _ & _ & Hs & _).
  split; [exact Hp|]. rewrite Hs. reflexivity.
Defined.
Lemma state_rescueAstronaut g :
  Game.state (Game.GameStateManager.rescueAstronaut g)
  = let s := Game.state g in
    let rescued := (GameState.astronautsRescued s + 1)%Z in
    let s1 :=
      GameState.write GameState.k_score
        (GameState.score s + Config.SCORE_RESCUE)%Z
        (GameState.write GameState.k_astronautsRescued rescued s) in
    if (Z.rem rescued Config.ASTRONAUTS_PER_LEVEL =? 0)%Z
    then GameState.write GameState.k_level (GameState.level s + 1)%Z s1
    else s1.
Proof.
  unfold Game.GameStateManager.rescueAstronaut,
    Game.GameStateManager.addScore.
  cbv zeta. destruct (_ =? _)%Z.
  - rewrite state_notify. write_state. reflexivity.
  - write_state. reflexivity.
Qed.

Lemma lander_rescueAstronaut g :
  Game.lander (Game.GameStateManager.rescueAstronaut g) = Game.lander g.
Proof.
  apply (rescueAstronaut_frame Game.lander); try reflexivity.
  intros []; reflexivity.
Qed.

Lemma dock_spec g l :
  Game.lander g = Some l ->
  let g' := Game.dock g in
  phaseOf g' = Config.DESCENT
  /\ Game.lander g' = Some (Lander.reset l)
  /\ carrying g' = false
  /\ rescuedOf g' = (rescuedOf g + if carrying g then 1 else 0)%Z
  /\ scoreOf g'
     = (scoreOf g + if carrying g then Config.SCORE_RESCUE else 0)%Z
  /\ livesOf g' = livesOf g
  /\ GameState.fuel (Game.state g') = GameState.fuel (Game.state g).
Proof.
  intros Hl g'. subst g'. unfold Game.dock. cbv zeta.
  change (Game.get GameState.k_hasAstronaut (Game.play "dock" g))
    with (carrying g).
  set (g3 := if carrying g then _ else _).
  assert (H3 : Game.lander g3 = Some l
               /\ Game.state g3
                  = if carrying g
                    then GameState.write GameState.k_hasAstronaut false
                           (Game.state
                              (Game.GameStateManager.rescueAstronaut
                                 (Game.play "dock" g)))
                    else Game.state g).
  { subst g3. destruct (carrying g).
    - rewrite lander_set, lander_rescueAstronaut. split; [exact Hl|].
      write_state. reflexivity.
    - split; [exact Hl|reflexivity]. }
  destruct H3 as [Hl3 Hs3].
  unfold phaseOf, carrying at 1, rescuedOf, scoreOf, livesOf.
  change (Game.state (Game.on_lander ?f ?h)) with (Game.state h).
  rewrite lander_on_lander, lander_set, Hl3. write_state. rewrite Hs3.
  unfold carrying in *.
  destruct (GameState.hasAstronaut (Game.state g)) eqn:Eh.
  - rewrite state_rescueAstronaut. cbv zeta.
    change (Game.state (Game.play "dock" g)) with (Game.state g).
    destruct (_ =? _)%Z; cbn; repeat split; auto.
  - cbn. rewrite Eh, !Z.add_0_r. repeat split; auto.
Qed.

(** X20. In the Ascent phase a lander that is clear of meteors and
    boundaries, above the docking height and within docking range docks:
    the phase returns to Descent and the lander to its start; an astronaut
    on board is counted and scored with [SCORE_RESCUE] and leaves the
    lander, and without one nothing is counted.  Docking neither refuels
    nor costs a life. *)
Theorem docking_at_the_mothership g l :
  phaseOf g = Config.ASCENT ->
  clearOfHazards g l ->
  Lander.reachedMothership l = true ->
  Lander.isInDockingRange l = true ->
  let g' := Game.checkCollisions g in
  phaseOf g' = Config.DESCENT
  /\ Game.lander g' = Some (Lander.reset l)
  /\ carrying g' = false
  /\ rescuedOf g' = (rescuedOf g + if carrying g then 1 else 0)%Z
  /\ scoreOf g'
     = (scoreOf g + if carrying g then Config.SCORE_RESCUE else 0)%Z
  /\ livesOf g' = livesOf g
  /\ GameState.fuel (Game.state g') = GameState.fuel (Game.state g).
Proof.
  intros Hp Hclear Hup Hrange g'. subst g'.
  destruct (checkCollisions_clear g l Hclear) as [events Hc].
  cbv zeta in Hc. rewrite Hc, Hp.
  unfold CollisionSystem.checkDockingCollision.
  rewrite Hup, Hrange. simpl andb. cbv iota.
  destruct Hclear as (Hl & _).
  apply (dock_spec (Game.dispatch _ (Game.with_collisionEvents events g)) l).
  exact Hl.
Qed.

(** [docking_at_the_mothership] on a lander that brings an astronaut up. *)
Lemma docking_at_the_mothership_witness :
  phaseOf (Game.checkCollisions underMothership) = Config.DESCENT
  /\ rescuedOf (Game.checkCollisions underMothership) = 1%Z
  /\ scoreOf (Game.checkCollisions underMothership) = 300%Z.
Proof.
  destruct (Game.lander underMothership) as [l|] eqn:El;
    [|vm_compute in El; discriminate].
  assert (Hc : clearOfHazards underMothership l).
  { split; [exact El|].
    vm_compute in El; injection El as <-.
    repeat split; vm_compute; reflexivity. }
  assert (Hu : Lander.reachedMothership l = true).
  { vm_compute in El; injection El as <-. vm_compute. reflexivity. }
  assert (Hr : Lander.isInDockingRange l = true).
  { vm_compute in El; injection El as <-. vm_compute. reflexivity. }
  destruct (docking_at_the_mothership underMothership l eq_refl Hc Hu Hr)
    as (Hp & _ & _ & Hres & Hs & _).
  split; [exact Hp|]. split; [rewrite Hres|rewrite Hs]; reflexivity.
Defined.
(** ** From the landing to the ascent *)

Lemma Qplus_zero (x : Q) : x + 0 = x.
Proof.
  destruct x as [n d]. unfold Qplus. simpl.
  rewrite Z.mul_1_r, Z.add_0_r, Pos.mul_1_r. reflexivity.
Qed.

Lemma clamp_inside (x : Q) :
  - landerHalfWidth < x < landerHalfWidth ->
  Qmax (- landerHalfWidth) (Qmin landerHalfWidth x) = x.
Proof.
  intros [Hlo Hhi].
  assert (E1 : Qmin landerHalfWidth x = x).
  { unfold Qmin, GenericMinMax.gmin.
    destruct (landerHalfWidth ?= x) eqn:E; [| |reflexivity].
    - apply Qeq_alt in E. lra.
    - apply Qlt_alt in E. lra. }
  rewrite E1. unfold Qmax, GenericMinMax.gmax.
  destruct (- landerHalfWidth ?= x) eqn:E; [|reflexivity|].
  - apply Qeq_alt in E. lra.
  - apply Qgt_alt in E. lra.
Qed.

Lemma update_resting dt p l :
  restingAt p l ->
  - landerHalfWidth < vx p < landerHalfWidth ->
  restingAt p (Lander.update dt l).
Proof.
  intros (Hp & Hv & Ha) Hx. unfold restingAt, Lander.update.
  rewrite Ha. simpl negb. cbv iota zeta.
  unfold Lander.clampPosition, Lander.set_x, Lander.set_y, Lander.on_entity,
    Lander.pos, Lander.vel in *.
  cbn [Lander.entity Lander.with_entity EntityOps.with_position position
       velocity active vx vy vz with_x with_y].
  rewrite Hv, Hp. cbn [vx vy vz]. rewrite !Qplus_zero.
  change (Config.GAME_WIDTH / 2 - 1) with landerHalfWidth.
  rewrite clamp_inside by exact Hx.
  destruct p; repeat split; auto.
Qed.

Lemma landed_frame t g p a a' :
  landedWith p a g ->
  Astronaut.update 0 p a = (false, a') ->
  landedWith p a' (Game.gameLoop t g).
Proof.
  intros (Hp & (l & Hl & Hrest) & Ha & Hx & Hy) Hu.
  rewrite gameLoop_checks by (rewrite Hp; reflexivity).
  unfold beforeChecks. cbv zeta.
  set (dt := if Qeq_bool _ _ then _ else _).
  set (g0 := Game.with_lastTime t g).
  assert (H1 : phaseOf (Game.updateLander dt g0) = Config.LANDED
               /\ Game.lander (Game.updateLander dt g0)
                  = Some (Lander.update dt l)
               /\ Game.astronaut (Game.updateLander dt g0) = Some a).
  { unfold Game.updateLander.
    change (Game.lander g0) with (Game.lander g). rewrite Hl.
    destruct Hrest as (_ & _ & Hact). rewrite Hact. simpl negb. cbv iota.
    change (Game.get GameState.k_phase g0) with (phaseOf g). rewrite Hp.
    cbv zeta iota. rewrite lander_on_lander.
    change (Game.lander g0) with (Game.lander g). rewrite Hl.
    repeat split; auto. }
  destruct H1 as (Hp1 & Hl1 & Ha1).
  set (g1 := Game.updateMeteors dt (Game.updateLander dt g0)).
  assert (Hrest1 : restingAt p (Lander.update dt l))
    by (apply update_resting; assumption).
  assert (H2 : phaseOf (Game.updateAstronaut dt g1) = Config.LANDED
               /\ Game.lander (Game.updateAstronaut dt g1)
                  = Some (Lander.update dt l)
               /\ Game.astronaut (Game.updateAstronaut dt g1) = Some a').
  { unfold Game.updateAstronaut.
    change (Game.astronaut g1) with (Game.astronaut (Game.updateLander dt g0)).
    change (Game.lander g1) with (Game.lander (Game.updateLander dt g0)).
    change (Game.get GameState.k_phase g1)
      with (phaseOf (Game.updateLander dt g0)).
    rewrite Ha1, Hl1, Hp1. simpl negb. cbv iota.
    destruct Hrest1 as (Hpos & _). rewrite Hpos.
    change (Astronaut.update dt p a) with (Astronaut.update 0 p a).
    rewrite Hu. cbv zeta iota.
    change (phaseOf g1) with (phaseOf (Game.updateLander dt g0)).
    destruct (_ && _); repeat split; auto. }
  destruct H2 as (Hp2 & Hl2 & Ha2).
  set (g2 := Game.updateAstronaut dt g1) in *.
  set (g3 := Game.updateExplosions dt (Game.updateBullets dt g2)).
  assert (Hc : Game.checkCollisions g3 = g3).
  { unfold Game.checkCollisions. cbv zeta.
    change (Game.get GameState.k_phase g3) with (phaseOf g2).
    rewrite Hp2. reflexivity. }
  rewrite Hc. unfold landedWith.
  change (phaseOf g3) with (phaseOf g2).
  change (Game.lander g3) with (Game.lander g2).
  change (Game.astronaut g3) with (Game.astronaut g2).
  split; [exact Hp2|]. split; [exists (Lander.update dt l); auto|].
  split; [exact Ha2|]. split; assumption.
Qed.
Local Ltac untouched L :=
  rewrite (L _ Game.lander) by first [ intros []; reflexivity | reflexivity ];
  rewrite (L _ Game.astronaut) by first [ intros []; reflexivity | reflexivity ].

Lemma state_game_loseLife g :
  let s := Game.state g in
  let s' := Game.state (Game.loseLife g) in
  GameState.hasAstronaut s' = GameState.hasAstronaut s
  /\ (GameState.phase s' = GameState.phase s
      \/ GameState.phase s' = Config.GAME_OVER).
Proof.
  cbv zeta. unfold Game.loseLife. cbv zeta.
  set (g1 := match Game.lander (Game.play "explosion" g) with
             | Some l => Game.createExplosion (Lander.pos l) (Game.play "explosion" g)
             | None => Game.play "explosion" g
             end).
  assert (Hs1 : Game.state g1 = Game.state g).
  { subst g1. destruct (Game.lander _); reflexivity. }
  unfold Game.GameStateManager.loseLife. cbv zeta.
  destruct (negb _).
  - unfold Game.gameOver, Game.uiCall.
    change (Game.state (Game.with_ui ?x ?h)) with (Game.state h).
    write_state. rewrite Hs1. cbn. auto.
  - unfold Game.setTimeout.
    change (Game.state (Game.with_timers ?x ?h)) with (Game.state h).
    write_state. rewrite Hs1. cbn. auto.
Qed.

Lemma resolveBulletHit_keeps hit g :
  let g' := Game.resolveBulletHit hit g in
  Game.lander g' = Game.lander g
  /\ Game.astronaut g' = Game.astronaut g
  /\ carrying g' = carrying g
  /\ phaseOf g' = phaseOf g.
Proof.
  destruct hit as [b m]. cbv zeta. unfold Game.resolveBulletHit. cbv zeta.
  unfold carrying, phaseOf, Game.GameStateManager.addScore.
  change (Game.state (Game.with_meteors ?x (Game.with_bullets ?y ?h)))
    with (Game.state h).
  change (Game.lander (Game.with_meteors ?x (Game.with_bullets ?y ?h)))
    with (Game.lander h).
  change (Game.astronaut (Game.with_meteors ?x (Game.with_bullets ?y ?h)))
    with (Game.astronaut h).
  write_state. untouched @set_frame. cbn. repeat split; reflexivity.
Qed.

Lemma resolve_all_keeps hits :
  forall g,
    let g' := foldl (fun g hit => Game.resolveBulletHit hit g) g hits in
    Game.lander g' = Game.lander g
    /\ Game.astronaut g' = Game.astronaut g
    /\ carrying g' = carrying g
    /\ phaseOf g' = phaseOf g.
Proof.
  induction hits as [|hit hits IH]; intros g; cbv zeta; [auto|].
  cbn [foldl].
  destruct (IH (Game.resolveBulletHit hit g)) as (H1 & H2 & H3 & H4).
  destruct (resolveBulletHit_keeps hit g) as (K1 & K2 & K3 & K4).
  cbv zeta in *. rewrite H1, H2, H3, H4. auto.
Qed.

(** Below the docking height, the checks of the Ascent phase can cost a
    life or score a hit, and nothing else. *)
Lemma checkCollisions_ascent_low g l :
  phaseOf g = Config.ASCENT ->
  Game.lander g = Some l ->
  Lander.reachedMothership l = false ->
  let g' := Game.checkCollisions g in
  Game.lander g' = Some l
  /\ Game.astronaut g' = Game.astronaut g
  /\ carrying g' = carrying g
  /\ (phaseOf g' = Config.ASCENT \/ phaseOf g' = Config.GAME_OVER).
Proof.
  intros Hp Hl Hlow. cbv zeta.
  assert (Hlose : forall g0,
             Game.state g0 = Game.state g ->
             Game.lander g0 = Some l ->
             Game.astronaut g0 = Game.astronaut g ->
             let g' := Game.loseLife g0 in
             Game.lander g' = Some l
             /\ Game.astronaut g' = Game.astronaut g
             /\ carrying g' = carrying g
             /\ (phaseOf g' = Config.ASCENT \/ phaseOf g' = Config.GAME_OVER)).
  { intros g0 Hs0 Hl0 Ha0. cbv zeta.
    untouched @game_loseLife_frame.
    destruct (state_game_loseLife g0) as [Hc Hph].
    unfold carrying, phaseOf in *. cbv zeta in Hc, Hph.
    rewrite Hs0 in Hc, Hph. rewrite Hc. rewrite Hp in Hph.
    repeat split; auto. }
  unfold Game.checkCollisions. cbv zeta.
  change (Game.get GameState.k_phase g) with (phaseOf g). rewrite Hp, Hl.
  destruct (CollisionSystem.checkLanderMeteorCollision l (Game.meteors g))
    as [[m|] ev1]; [apply Hlose; auto|].
  destruct (CollisionSystem.checkBoundaryCollision l) as [[|] ev2];
    [apply Hlose; auto|].
  destruct (CollisionSystem.checkBulletMeteorCollisions _ _) as [hits ev3].
  unfold CollisionSystem.checkDockingCollision. rewrite Hlow. simpl andb.
  cbv iota.
  match goal with
  | |- context [foldl _ ?g0 hits] =>
      destruct (resolve_all_keeps hits g0) as (H1 & H2 & H3 & H4)
  end.
  cbv zeta in *.
  change (Game.lander (Game.dispatch ?e ?h)) with (Game.lander h).
  change (Game.astronaut (Game.dispatch ?e ?h)) with (Game.astronaut h).
  change (carrying (Game.dispatch ?e ?h)) with (carrying h).
  change (phaseOf (Game.dispatch ?e ?h)) with (phaseOf h).
  rewrite H1, H2, H3, H4.
  change (Game.lander (Game.dispatch ?e ?h)) with (Game.lander h).
  change (Game.astronaut (Game.dispatch ?e ?h)) with (Game.astronaut h).
  change (carrying (Game.dispatch ?e ?h)) with (carrying h).
  change (phaseOf (Game.dispatch ?e ?h)) with (phaseOf h).
  repeat split; auto.
Qed.
Lemma boarding_frame t g p a a' :
  landedWith p a g ->
  Astronaut.update 0 p a = (true, a') ->
  let g' := Game.gameLoop t g in
  carrying g' = true
  /\ Game.astronaut g' = None
  /\ landerVy g' = Config.ASCENT_SPEED
  /\ (phaseOf g' = Config.ASCENT \/ phaseOf g' = Config.GAME_OVER).
Proof.
  intros (Hp & (l & Hl & Hrest) & Ha & Hx & Hy) Hu. cbv zeta.
  rewrite gameLoop_checks by (rewrite Hp; reflexivity).
  unfold beforeChecks. cbv zeta.
  set (dt := if Qeq_bool _ _ then _ else _).
  set (g0 := Game.with_lastTime t g).
  assert (H1 : phaseOf (Game.updateLander dt g0) = Config.LANDED
               /\ Game.lander (Game.updateLander dt g0)
                  = Some (Lander.update dt l)
               /\ Game.astronaut (Game.updateLander dt g0) = Some a).
  { unfold Game.updateLander.
    change (Game.lander g0) with (Game.lander g). rewrite Hl.
    destruct Hrest as (_ & _ & Hact). rewrite Hact. simpl negb. cbv iota.
    change (Game.get GameState.k_phase g0) with (phaseOf g). rewrite Hp.
    cbv zeta iota. rewrite lander_on_lander.
    change (Game.lander g0) with (Game.lander g). rewrite Hl.
    repeat split; auto. }
  destruct H1 as (Hp1 & Hl1 & Ha1).
  set (g1 := Game.updateMeteors dt (Game.updateLander dt g0)).
  assert (Hrest1 : restingAt p (Lander.update dt l))
    by (apply update_resting; assumption).
  set (l2 := Lander.startAscent (Lander.update dt l)).
  assert (H2 : phaseOf (Game.updateAstronaut dt g1) = Config.ASCENT
               /\ Game.lander (Game.updateAstronaut dt g1) = Some l2
               /\ Game.astronaut (Game.updateAstronaut dt g1) = None
               /\ carrying (Game.updateAstronaut dt g1) = true).
  { unfold Game.updateAstronaut.
    change (Game.astronaut g1) with (Game.astronaut (Game.updateLander dt g0)).
    change (Game.lander g1) with (Game.lander (Game.updateLander dt g0)).
    change (Game.get GameState.k_phase g1)
      with (phaseOf (Game.updateLander dt g0)).
    rewrite Ha1, Hl1, Hp1. simpl negb. cbv iota.
    destruct Hrest1 as (Hpos & _). rewrite Hpos.
    change (Astronaut.update dt p a) with (Astronaut.update 0 p a).
    rewrite Hu. cbv zeta iota.
    set (g' := if _ && _ then _ else _).
    assert (Hg' : Game.lander g' = Some (Lander.update dt l)).
    { subst g'. destruct (_ && _); exact Hl1. }
    unfold phaseOf, carrying.
    change (Game.state (Game.on_lander ?f ?h)) with (Game.state h).
    change (Game.astronaut (Game.on_lander ?f ?h)) with (Game.astronaut h).
    rewrite lander_on_lander, !lander_set. write_state.
    change (Game.lander (Game.with_astronaut None g')) with (Game.lander g').
    rewrite Hg'.
    rewrite !(set_frame Game.astronaut) by
      first [ intros []; reflexivity | reflexivity ].
    cbn. repeat split; reflexivity. }
  destruct H2 as (Hp2 & Hl2 & Ha2 & Hc2).
  set (g2 := Game.updateAstronaut dt g1) in *.
  set (g3 := Game.updateExplosions dt (Game.updateBullets dt g2)).
  assert (Hlow : Lander.reachedMothership l2 = false).
  { destruct Hrest1 as (Hpos & _). unfold Lander.reachedMothership.
    change (Lander.pos l2) with (Lander.pos (Lander.update dt l)).
    rewrite Hpos. apply Qltb_ge. exact Hy. }
  destruct (checkCollisions_ascent_low g3 l2 Hp2 Hl2 Hlow)
    as (Hl3 & Ha3 & Hc3 & Hp3).
  cbv zeta in *. fold g3.
  split; [rewrite Hc3; exact Hc2|]. split; [rewrite Ha3; exact Ha2|].
  split; [|exact Hp3].
  unfold landerVy. rewrite Hl3. reflexivity.
Qed.

Lemma landed_frames p :
  forall times g a a',
    landedWith p a g ->
    astronautUpdates (repeat (0, p) (length times)) a
    = (repeat false (length times), a') ->
    landedWith p a' (frames times g).
Proof.
  induction times as [|t times IH]; intros g a a' Hg Hu.
  - simpl in Hu. injection Hu as <-. exact Hg.
  - cbn [length repeat astronautUpdates] in Hu.
    destruct (Astronaut.update 0 p a) as [r a1] eqn:E1.
    destruct (astronautUpdates (repeat (0, p) (length times)) a1)
      as [rs a2] eqn:E2.
    injection Hu as -> -> ->.
    unfold frames. cbn [foldl].
    apply (IH (Game.gameLoop t g) a1 a'); [|exact E2].
    apply (landed_frame t g p a a1); assumption.
Qed.

(** A newcomer reports "aboard" after a run of updates that all report
    [false]. *)
Lemma newcomer_run a p :
  newcomer a ->
  exists k a',
    astronautUpdates (repeat (0, p) k) a = (repeat false k, a')
    /\ fst (Astronaut.update 0 p a') = true.
Proof.
  intros (Hact & Hst & Hsp & Hsc).
  set (n := Z.to_nat (Qceiling (gap p a * 20))).
  assert (Hgap : gap p a < 0.55 + inject_Z (Z.of_nat n) * 0.05).
  { assert (H0 : 0 <= gap p a) by apply Qabs_nonneg.
    assert (Hc : gap p a * 20 <= inject_Z (Qceiling (gap p a * 20)))
      by apply Qle_ceiling.
    assert (Hz : (0 <= Qceiling (gap p a * 20))%Z).
    { change 0%Z with (Qceiling 0). apply Qceiling_resp_le. lra. }
    subst n. rewrite Z2Nat.id by exact Hz. lra. }
  destruct (running_reaches 0 p n a Hact Hst Hsp Hgap)
    as (k1 & a1 & Hrun & Ha1 & Hs1 & Hsc1).
  rewrite Hsc in Hsc1.
  destruct (boarding_run 0 p 44 0 a1 Ha1 Hs1 Hsc1 shrunk_above)
    as (a2 & Hboard & Ha2 & Hs2 & Hsc2).
  destruct (boarding_step 0 p a2 Ha2 Hs2) as (Hr3 & _).
  rewrite Hsc2 in Hr3.
  change (shrunk (0 + 44) * 0.95) with (shrunk 45) in Hr3.
  rewrite shrunk_below in Hr3.
  exists (k1 + 44)%nat, a2. split; [|exact Hr3].
  rewrite repeat_app, astronautUpdates_app, Hrun. cbv beta iota.
  rewrite Hboard. rewrite <- repeat_app. reflexivity.
Qed.

(** X21. Once the lander rests on a pad the ascent comes by itself:
    there is a number of frames, the same for every timing of them and every
    key held, after which the astronaut has run to the lander and boarded,
    and the game has left the Landed phase with the astronaut aboard and the
    lander rising at [ASCENT_SPEED].  The boarding frame runs the checks of
    the Ascent phase, so it can cost a life, the last one included. *)
Theorem a_landed_lander_is_boarded g p a :
  landedWith p a g ->
  newcomer a ->
  exists n, forall times,
    length times = n ->
    let g' := frames times g in
    carrying g' = true
    /\ Game.astronaut g' = None
    /\ landerVy g' = Config.ASCENT_SPEED
    /\ (phaseOf g' = Config.ASCENT \/ phaseOf g' = Config.GAME_OVER).
Proof.
  intros Hg Hnew. destruct (newcomer_run a p Hnew) as (k & a1 & Hrun & Hlast).
  exists (S k). intros times Hlen g'. subst g'.
  destruct (exists_last (l := times)) as (ts & t & ->).
  { intros ->. discriminate. }
  rewrite length_app in Hlen. simpl in Hlen.
  assert (Hk : length ts = k) by lia. subst k.
  unfold frames. rewrite foldl_app. cbn [foldl].
  destruct (Astronaut.update 0 p a1) as [b a'] eqn:E. cbn [fst] in Hlast.
  subst b.
  apply (boarding_frame t _ p a1 a'); [|exact E].
  apply (landed_frames p ts g a a1); assumption.
Qed.

(** [a_landed_lander_is_boarded] on the game right after a landing on the
    middle pad. *)
Lemma a_landed_lander_is_boarded_witness :
  exists n, forall times,
    length times = n -> carrying (frames times justLanded) = true.
Proof.
  destruct (Game.astronaut justLanded) as [a|] eqn:Ea;
    [|vm_compute in Ea; discriminate].
  destruct (Game.lander justLanded) as [l|] eqn:El;
    [|vm_compute in El; discriminate].
  destruct (a_landed_lander_is_boarded justLanded (Lander.pos l) a)
    as [n Hn].
  - split; [vm_compute; reflexivity|]. split.
    { exists l. split; [exact El|].
      vm_compute in El. injection El as <-.
      repeat split; vm_compute; reflexivity. }
    split; [exact Ea|].
    vm_compute in El. injection El as <-.
    split; [split; apply Qltb_lt; vm_compute; reflexivity|].
    apply Qle_bool_iff. vm_compute. reflexivity.
  - vm_compute in Ea. injection Ea as <-.
    repeat split; vm_compute; reflexivity.
  - exists n. intros times Hlen. apply (Hn times Hlen).
Defined.
(** ** Listeners *)

Lemma callback_eqb_eq a b : GameState.callback_eqb a b = true <-> a = b.
Proof. destruct a, b; simpl; split; congruence. Qed.

Lemma removeFirst_fresh cb cbs :
  cb ∉ cbs -> GameState.removeFirst cb (cbs ++ [cb]) = cbs.
Proof.
  induction cbs as [|c cbs IH]; intros Hnot; simpl.
  - assert (E : GameState.callback_eqb cb cb = true)
      by (apply callback_eqb_eq; reflexivity).
    rewrite E. reflexivity.
  - destruct (GameState.callback_eqb c cb) eqn:E.
    + apply callback_eqb_eq in E. subst c. exfalso. apply Hnot. left.
    + rewrite IH; [reflexivity|]. intros Hin. apply Hnot. right. exact Hin.
Qed.

Lemma removeFirst_perm cb cbs :
  GameState.removeFirst cb (cbs ++ [cb]) ≡ₚ cbs.
Proof.
  induction cbs as [|c cbs IH]; simpl.
  - assert (E : GameState.callback_eqb cb cb = true)
      by (apply callback_eqb_eq; reflexivity).
    rewrite E. reflexivity.
  - destruct (GameState.callback_eqb c cb) eqn:E.
    + apply callback_eqb_eq in E. subst c.
      symmetry. apply Permutation_cons_append.
    + rewrite IH. reflexivity.
Qed.

(** X22. Unsubscribing right after subscribing leaves every event
    with the callbacks it had: the very same list when the callback was not
    registered before, and otherwise the same callbacks with the earlier
    registration removed in place of the new one.  The state and the other
    events are not touched. *)
Theorem off_undoes_on event cb m :
  let m' := GameState.off event cb (GameState.on event cb m) in
  callbacksOf event m' ≡ₚ callbacksOf event m
  /\ (cb ∉ callbacksOf event m -> callbacksOf event m' = callbacksOf event m)
  /\ (forall other, other <> event ->
        GameState.listeners m' !! other = GameState.listeners m !! other)
  /\ GameState.state m' = GameState.state m
  /\ GameState.notified m' = GameState.notified m.
Proof.
  cbv zeta. unfold GameState.off, GameState.on, callbacksOf.
  cbn [GameState.listeners GameState.state GameState.notified].
  rewrite lookup_insert_eq.
  cbn [GameState.listeners GameState.state GameState.notified].
  rewrite lookup_insert_eq. cbn [default].
  split; [apply removeFirst_perm|].
  split; [apply removeFirst_fresh|].
  split; [|split; reflexivity].
  intros other Hne. rewrite !lookup_insert_ne by congruence. reflexivity.
Qed.

(** [off_undoes_on] on the manager of a new game, whose "change" event has
    the UI refresh registered. *)
Lemma off_undoes_on_witness :
  let m := Game.gameState (Game.new (fun _ => 0)) in
  callbacksOf "change"
    (GameState.off "change" GameState.CreateMeteors
       (GameState.on "change" GameState.CreateMeteors m))
  = callbacksOf "change" m.
Proof.
  intros m.
  apply (off_undoes_on "change" GameState.CreateMeteors m).
  vm_compute. intros H. apply list_elem_of_singleton in H. discriminate.
Defined.

(** ** Starting over *)

(** X23. Whatever was played before, [startGame] gives the state of a new
    game in the Descent phase, a new lander at the start position, no
    bullet, explosion or astronaut, and the meteors of level one.  It does
    not cancel a reset that is still pending from the game before. *)
Theorem startGame_starts_afresh g :
  let g' := Game.startGame g in
  Game.state g'
  = GameState.write GameState.k_phase Config.DESCENT GameState.initialState
  /\ Game.bullets g' = []
  /\ Game.explosions g' = []
  /\ Game.astronaut g' = None
  /\ (exists r, Game.lander g' = Some (Lander.reset (Lander.new r)))
  /\ length (Game.meteors g')
     = Z.to_nat (Config.METEOR_COUNT + Config.METEORS_PER_LEVEL)
  /\ Game.timers g' = Game.timers g.
Proof.
  cbv zeta. unfold Game.startGame. cbv zeta.
  assert (Hs1 : Game.state
                  (Game.GameStateManager.set GameState.k_phase Config.DESCENT
                     (Game.GameStateManager.reset g))
                = GameState.write GameState.k_phase Config.DESCENT
                    GameState.initialState).
  { write_state. unfold Game.GameStateManager.reset. cbv zeta.
    rewrite state_notify. reflexivity. }
  assert (Ht1 : Game.timers
                  (Game.GameStateManager.set GameState.k_phase Config.DESCENT
                     (Game.GameStateManager.reset g))
                = Game.timers g).
  { rewrite timers_set. unfold Game.GameStateManager.reset. cbv zeta.
    rewrite (notify_frame Game.timers) by
      first [ intros []; reflexivity | reflexivity ].
    reflexivity. }
  revert Hs1 Ht1.
  generalize (Game.GameStateManager.set GameState.k_phase Config.DESCENT
                (Game.GameStateManager.reset g)).
  intros g1 Hs1 Ht1.
  pose proof (createMeteors_length g1) as Hm. rewrite Hs1 in Hm.
  assert (Hs2 : Game.state (Game.createMeteors g1) = Game.state g1)
    by reflexivity.
  assert (Ht2 : Game.timers (Game.createMeteors g1) = Game.timers g1)
    by reflexivity.
  revert Hm Hs2 Ht2. generalize (Game.createMeteors g1). intros g2 Hm Hs2 Ht2.
  unfold Game.uiCall, Game.createLander.
  split; [rewrite <- Hs1, <- Hs2; reflexivity|].
  split; [reflexivity|]. split; [reflexivity|].
  split; [reflexivity|]. split; [eexists; reflexivity|].
  split; [exact Hm|]. rewrite <- Ht1, <- Ht2. reflexivity.
Qed.
(** ** Key handling *)

Lemma keys_handleSpacePress pressed g :
  Game.keys (Game.handleSpacePress pressed g) = Game.keys g
  /\ Game.inputEnabled (Game.handleSpacePress pressed g) = Game.inputEnabled g.
Proof.
  unfold Game.handleSpacePress, Game.createBullet.
  destruct (_ && _); [|auto].
  destruct (_ <=? _)%nat; [auto|].
  destruct (Game.lander g); auto.
Qed.

Lemma keys_notify action data g :
  Game.keys (InputSystem._notify action data g) = Game.keys g
  /\ Game.inputEnabled (InputSystem._notify action data g)
     = Game.inputEnabled g.
Proof. destruct action; simpl; auto using keys_handleSpacePress. Qed.

Lemma key_setKey action v k :
  InputSystem.key action (InputSystem.setKey action v k) = v.
Proof. destruct action; reflexivity. Qed.

Lemma setKey_same action k :
  InputSystem.setKey action (InputSystem.key action k) k = k.
Proof. destruct action, k; reflexivity. Qed.

Lemma with_keys_same g : Game.with_keys (Game.keys g) g = g.
Proof. destruct g; reflexivity. Qed.

(** A key-down on a game in which the key is already held changes
    nothing. *)
Lemma onKeyDown_held code action g :
  InputSystem.keyBindings code = Some action ->
  InputSystem.key action (Game.keys g) = true ->
  InputSystem._onKeyDown code g = g.
Proof.
  intros Hb Hk. unfold InputSystem._onKeyDown.
  destruct (negb _); [reflexivity|]. rewrite Hb. cbv zeta. rewrite Hk.
  simpl negb. cbv iota. rewrite <- Hk at 1.
  rewrite setKey_same. apply with_keys_same.
Qed.

Lemma onKeyDown_ignored code g :
  Game.inputEnabled g = false \/ InputSystem.keyBindings code = None ->
  InputSystem._onKeyDown code g = g.
Proof.
  unfold InputSystem._onKeyDown. intros [H|H]; rewrite H; [reflexivity|].
  destruct (negb _); reflexivity.
Qed.

Lemma onKeyDown_sets code action g :
  Game.inputEnabled g = true ->
  InputSystem.keyBindings code = Some action ->
  InputSystem.key action (Game.keys (InputSystem._onKeyDown code g)) = true
  /\ Game.inputEnabled (InputSystem._onKeyDown code g) = true.
Proof.
  intros Hen Hb. unfold InputSystem._onKeyDown. rewrite Hen, Hb.
  simpl negb. cbv iota zeta.
  destruct (negb (InputSystem.key action (Game.keys g)));
    [rewrite (proj1 (keys_notify _ _ _)), (proj2 (keys_notify _ _ _))|];
    change (Game.inputEnabled (Game.with_keys ?k ?h))
      with (Game.inputEnabled h);
    change (Game.keys (Game.with_keys ?k ?h)) with k;
    rewrite key_setKey; auto.
Qed.

(** X24. A key that is held fires once.  The repeated key-down events that
    the browser sends for a held key change nothing after the first, so
    however long the fire key is held, at most one bullet is created.  A
    bound key counts as pressed from its key-down to its key-up. *)
Theorem held_key_fires_once code g n :
  let g1 := InputSystem._onKeyDown code g in
  Nat.iter (S n) (InputSystem._onKeyDown code) g = g1
  /\ (length (Game.bullets g1) <= S (length (Game.bullets g)))%nat
  /\ (Game.inputEnabled g = true ->
      forall action,
        InputSystem.keyBindings code = Some action ->
        Game.isPressed (InputSystem.key action) g1 = true
        /\ Game.isPressed (InputSystem.key action)
             (InputSystem._onKeyUp code g1) = false).
Proof.
  cbv zeta.
  assert (Hidem : InputSystem._onKeyDown code (InputSystem._onKeyDown code g)
                  = InputSystem._onKeyDown code g).
  { destruct (Game.inputEnabled g) eqn:Een;
      [|rewrite !(onKeyDown_ignored code g) by auto; reflexivity].
    destruct (InputSystem.keyBindings code) as [action|] eqn:Eb;
      [|rewrite !(onKeyDown_ignored code g) by auto; reflexivity].
    apply (onKeyDown_held code action); [exact Eb|].
    apply onKeyDown_sets; assumption. }
  split; [|split].
  - induction n as [|n IH]; [reflexivity|].
    change (Nat.iter (S (S n)) (InputSystem._onKeyDown code) g)
      with (InputSystem._onKeyDown code
              (Nat.iter (S n) (InputSystem._onKeyDown code) g)).
    rewrite IH. exact Hidem.
  - unfold InputSystem._onKeyDown.
    destruct (negb _); [lia|].
    destruct (InputSystem.keyBindings code) as [action|]; [|lia].
    cbv zeta. destruct (negb _); [|simpl; lia].
    destruct action; simpl; try lia.
    unfold Game.handleSpacePress, Game.createBullet.
    destruct (_ && _); [|simpl; lia].
    destruct (_ <=? _)%nat; [simpl; lia|].
    destruct (Game.lander _); [|simpl; lia].
    cbv zeta. unfold Game.play.
    change (Game.bullets (Game.with_audio ?a ?h)) with (Game.bullets h).
    change (Game.bullets (Game.with_bullets ?x ?h)) with x.
    rewrite length_app. simpl. lia.
  - intros Hen action Hb.
    destruct (onKeyDown_sets code action g Hen Hb) as [Hk Hen1].
    unfold Game.isPressed. rewrite Hk, Hen1. split; [reflexivity|].
    unfold InputSystem._onKeyUp. rewrite Hb. cbv zeta.
    rewrite (proj1 (keys_notify _ _ _)), (proj2 (keys_notify _ _ _)).
    change (Game.keys (Game.with_keys ?k ?h)) with k.
    rewrite key_setKey. apply andb_false_r.
Qed.

(** [held_key_fires_once] on the fire key in the Ascent phase: one bullet,
    however often the key-down repeats. *)
Lemma held_key_fires_once_witness :
  length (Game.bullets (Nat.iter 5 (InputSystem._onKeyDown "Space") ascending))
  = 1%nat.
Proof.
  rewrite (proj1 (held_key_fires_once "Space" ascending 4)).
  vm_compute. reflexivity.
Defined.

(** ** Lives *)

Lemma lives_consumeFuel amount g :
  livesOf (snd (Game.GameStateManager.consumeFuel amount g)) = livesOf g.
Proof.
  unfold livesOf. rewrite state_consumeFuel. cbv zeta.
  destruct (Qle_bool _ 0); [reflexivity|].
  destruct (Qeq_bool _ _); reflexivity.
Qed.

Lemma lives_updateLander dt g :
  livesOf (Game.updateLander dt g) = livesOf g.
Proof.
  unfold Game.updateLander.
  destruct (Game.lander g) as [l|]; [|reflexivity].
  destruct (negb _); [reflexivity|].
  unfold livesOf.
  change (Game.state (Game.on_lander ?f ?h)) with (Game.state h).
  change (Game.get GameState.k_phase g) with (phaseOf g).
  destruct (phaseOf g); try reflexivity.
  - rewrite state_updateDescentPhase.
    destruct (thrustApplied g); [apply lives_consumeFuel|reflexivity].
  - rewrite state_updateAscentPhase.
    destruct (Game.isPressed space g); [reflexivity|].
    destruct (thrustApplied g); [apply lives_consumeFuel|reflexivity].
Qed.

Lemma lives_updateAstronaut dt g :
  livesOf (Game.updateAstronaut dt g) = livesOf g.
Proof.
  unfold Game.updateAstronaut.
  destruct (Game.astronaut g) as [a|]; [|reflexivity].
  destruct (Game.lander g) as [l|]; [|reflexivity].
  destruct (negb _); [reflexivity|].
  destruct (Astronaut.update dt (Lander.pos l) a) as [[|] a']; cbv zeta.
  - unfold livesOf.
    change (Game.state (Game.on_lander ?f ?h)) with (Game.state h).
    write_state. destruct (_ && _); reflexivity.
  - destruct (_ && _); reflexivity.
Qed.

Lemma lives_beforeChecks t g : livesOf (beforeChecks t g) = livesOf g.
Proof.
  unfold beforeChecks. cbv zeta.
  set (dt := if Qeq_bool _ _ then _ else _).
  change (livesOf (Game.updateExplosions dt (Game.updateBullets dt ?h)))
    with (livesOf h).
  rewrite lives_updateAstronaut.
  change (livesOf (Game.updateMeteors dt ?h)) with (livesOf h).
  rewrite lives_updateLander. reflexivity.
Qed.

Lemma lives_game_loseLife g :
  livesOf (Game.loseLife g) = (livesOf g - 1)%Z.
Proof.
  unfold Game.loseLife. cbv zeta.
  set (g1 := match Game.lander (Game.play "explosion" g) with
             | Some l => Game.createExplosion (Lander.pos l) (Game.play "explosion" g)
             | None => Game.play "explosion" g
             end).
  assert (Hs1 : Game.state g1 = Game.state g).
  { subst g1. destruct (Game.lander _); reflexivity. }
  unfold Game.GameStateManager.loseLife, livesOf. cbv zeta.
  destruct (negb _).
  - unfold Game.gameOver, Game.uiCall.
    change (Game.state (Game.with_ui ?x ?h)) with (Game.state h).
    write_state. rewrite Hs1. reflexivity.
  - unfold Game.setTimeout.
    change (Game.state (Game.with_timers ?x ?h)) with (Game.state h).
    write_state. rewrite Hs1. reflexivity.
Qed.

Lemma lives_resolve_all hits :
  forall g,
    livesOf (foldl (fun g hit => Game.resolveBulletHit hit g) g hits)
    = livesOf g.
Proof.
  induction hits as [|[b m] hits IH]; intros g; [reflexivity|].
  cbn [foldl]. rewrite IH. unfold Game.resolveBulletHit. cbv zeta.
  unfold livesOf, Game.GameStateManager.addScore.
  change (Game.state (Game.with_meteors ?x (Game.with_bullets ?y ?h)))
    with (Game.state h).
  write_state. reflexivity.
Qed.

(** X25. A frame costs at most one life, whatever the lander touches
    in it: the updates cost none, and the collision checks stop at the
    first hazard they find. *)
Theorem a_frame_costs_at_most_one_life t g :
  let g' := Game.gameLoop t g in
  livesOf g' = livesOf g \/ livesOf g' = (livesOf g - 1)%Z.
Proof.
  cbv zeta. destruct (simulated (phaseOf g)) eqn:Hsim.
  2:{ left. unfold Game.gameLoop. cbv zeta.
      change (Game.get GameState.k_phase (Game.with_lastTime t g))
        with (phaseOf g).
      destruct (phaseOf g); try discriminate; reflexivity. }
  rewrite gameLoop_checks by exact Hsim.
  rewrite <- (lives_beforeChecks t g).
  generalize (beforeChecks t g). clear g Hsim. intros g.
  assert (Hlose : forall g0,
             Game.state g0 = Game.state g ->
             livesOf (Game.loseLife g0) = (livesOf g - 1)%Z).
  { intros g0 H0. rewrite lives_game_loseLife. unfold livesOf.
    rewrite H0. reflexivity. }
  unfold Game.checkCollisions. cbv zeta.
  change (Game.get GameState.k_phase g) with (phaseOf g).
  destruct (phaseOf g) eqn:Hp; auto;
    (destruct (Game.lander g) as [l|] eqn:Hl; [|auto]);
    (destruct (CollisionSystem.checkLanderMeteorCollision l (Game.meteors g))
       as [[m|] ev1]; [right; apply Hlose; reflexivity|]);
    (destruct (CollisionSystem.checkBoundaryCollision l) as [[|] ev2];
     [right; apply Hlose; reflexivity|]);
    destruct (CollisionSystem.checkBulletMeteorCollisions _ _) as [hits ev3];
    match goal with
    | |- context [foldl _ ?g0 hits] =>
        pose proof (lives_resolve_all hits g0) as Hr;
        assert (Hlr : Game.lander (foldl (fun g hit => Game.resolveBulletHit hit g) g0 hits) = Some l)
          by (rewrite (proj1 (resolve_all_keeps hits g0)); exact Hl);
        revert Hr Hlr;
        generalize (foldl (fun g hit => Game.resolveBulletHit hit g) g0 hits)
    end;
    intros g3 Hr Hlr;
    change (livesOf g3 = livesOf g) in Hr.
  - destruct (CollisionSystem.checkLandingPadCollision _ _) as [[pad|] ev4].
    + left. rewrite <- Hr.
      apply (land_spec pad (Game.dispatch ev4 g3) l). exact Hlr.
    + destruct (CollisionSystem.checkGroundCollision _ _) as [[|] ev5].
      * right. rewrite lives_game_loseLife, <- Hr. reflexivity.
      * left. exact Hr.
  - destruct (CollisionSystem.checkDockingCollision _ _) as [[|] ev4].
    + left. rewrite <- Hr.
      apply (dock_spec (Game.dispatch ev4 g3) l). exact Hlr.
    + left. exact Hr.
Qed.
(** ** The explosion pool *)

Lemma updateExplosions_running dt g :
  allRunning (Game.updateExplosions dt g).
Proof.
  unfold allRunning, Game.updateExplosions.
  change (Game.explosions (Game.with_explosions ?x ?h)) with x.
  induction (Game.explosions g) as [|x xs IH]; simpl; [constructor|].
  destruct (Explosion.update dt x) as [alive x'] eqn:E.
  destruct alive; [|exact IH]. constructor; [|exact IH].
  unfold Explosion.update in E.
  destruct (negb (Explosion.active x)); [discriminate|].
  cbv zeta in E. injection E as E1 <-. exact E1.
Qed.

Lemma createExplosion_running p g :
  allRunning g -> allRunning (Game.createExplosion p g).
Proof.
  unfold allRunning, Game.createExplosion. cbv zeta.
  change (Game.explosions (Game.with_explosions ?x ?h)) with x.
  change (Game.explosions (Game.with_cursor ?x ?h)) with (Game.explosions h).
  intros H. apply Forall_app. split; [exact H|].
  constructor; [reflexivity|constructor].
Qed.

Local Ltac explosions_frame L :=
  unfold allRunning;
  rewrite (L _ Game.explosions) by
    first [ intros []; reflexivity | reflexivity ].

Lemma game_loseLife_running g :
  allRunning g -> allRunning (Game.loseLife g).
Proof.
  intros H. unfold Game.loseLife. cbv zeta.
  set (g1 := match Game.lander (Game.play "explosion" g) with
             | Some l => Game.createExplosion (Lander.pos l) (Game.play "explosion" g)
             | None => Game.play "explosion" g
             end).
  assert (H1 : allRunning g1).
  { subst g1. destruct (Game.lander _);
      [apply createExplosion_running|]; exact H. }
  unfold Game.GameStateManager.loseLife, Game.gameOver, Game.setTimeout,
    Game.uiCall.
  cbv zeta.
  destruct (negb _); unfold allRunning;
    [change (Game.explosions (Game.with_ui ?x ?h)) with (Game.explosions h)
    |change (Game.explosions (Game.with_timers ?x ?h))
       with (Game.explosions h)];
    rewrite !(set_frame Game.explosions) by
      first [ intros []; reflexivity | reflexivity ];
    exact H1.
Qed.

Lemma resolve_all_running hits :
  forall g,
    allRunning g ->
    allRunning (foldl (fun g hit => Game.resolveBulletHit hit g) g hits).
Proof.
  induction hits as [|[b m] hits IH]; intros g H; [exact H|].
  cbn [foldl]. apply IH. unfold Game.resolveBulletHit. cbv zeta.
  unfold allRunning.
  change (Game.explosions (Game.with_meteors ?x (Game.with_bullets ?y ?h)))
    with (Game.explosions h).
  rewrite (addScore_frame Game.explosions) by
    first [ intros []; reflexivity | reflexivity ].
  apply (createExplosion_running (Meteor.pos m) g H).
Qed.

Lemma checkCollisions_running g :
  allRunning g -> allRunning (Game.checkCollisions g).
Proof.
  intros H. unfold Game.checkCollisions. cbv zeta.
  destruct (Game.get GameState.k_phase g); try exact H;
    (destruct (Game.lander g) as [l|]; [|exact H]);
    (destruct (CollisionSystem.checkLanderMeteorCollision l (Game.meteors g))
       as [[m|] ev1]; [apply game_loseLife_running; exact H|]);
    (destruct (CollisionSystem.checkBoundaryCollision l) as [[|] ev2];
     [apply game_loseLife_running; exact H|]);
    destruct (CollisionSystem.checkBulletMeteorCollisions _ _) as [hits ev3];
    match goal with
    | |- context [foldl _ ?g0 hits] =>
        pose proof (resolve_all_running hits g0 H) as Hr; revert Hr;
        generalize (foldl (fun g hit => Game.resolveBulletHit hit g) g0 hits)
    end;
    intros g3 Hr.
  - destruct (CollisionSystem.checkLandingPadCollision _ _) as [[pad|] ev4].
    + explosions_frame @land_frame. exact Hr.
    + destruct (CollisionSystem.checkGroundCollision _ _) as [[|] ev5];
        [apply game_loseLife_running|]; exact Hr.
  - destruct (CollisionSystem.checkDockingCollision _ _) as [[|] ev4];
      [explosions_frame @dock_frame|]; exact Hr.
Qed.

(** X26. A frame of a running game leaves only running explosions in the
    pool: the spent ones are spliced out by [updateExplosions], and the ones
    that the collision checks add are new. *)
Theorem frame_keeps_only_running_explosions t g :
  simulated (phaseOf g) = true ->
  allRunning (Game.gameLoop t g).
Proof.
  intros Hsim. rewrite gameLoop_checks by exact Hsim.
  apply checkCollisions_running. unfold beforeChecks. cbv zeta.
  apply updateExplosions_running.
Qed.

(** [frame_keeps_only_running_explosions] on a frame that drops a spent
    explosion and adds the one of a meteor hit. *)
Lemma frame_keeps_only_running_explosions_witness :
  allRunning (Game.gameLoop 16 hitWithDebris)
  /\ length (Game.explosions (Game.gameLoop 16 hitWithDebris)) = 1%nat.
Proof.
  split.
  - apply (frame_keeps_only_running_explosions 16 hitWithDebris).
    vm_compute. reflexivity.
  - vm_compute. reflexivity.
Defined.
